(** * letsgo: the App Runner convergence engine (apps/ops/src/aws/apprunner.ts)

    A shallow embedding of [apprunner.ts] and the properties its
    specification states about it.

    The module talks to AWS through [apprunner.send(command)], to the
    configuration store through [getConfig], to the registry through
    [getEcrRepositoryArn], to the clock through [new Date()] and
    [setTimeout], and ends a run through [process.exit(1)].  Every one of
    these is an interaction with the outside world; the embedding threads
    the history of interactions through a small state-and-error monad [M],
    and the outside world is an oracle [Provider] whose answers may depend
    on everything that happened before.  Calls to [logger] only print and
    are left out; the message printed before a [process.exit(1)] names the
    exit site in [Fatal].  The two paging loops run for as long as the
    provider hands out continuation tokens; they are given fuel, and a run
    that uses it up ends in [Diverge]. *)

From stdpp Require Import base strings list gmap.
From Stdlib Require Import ZArith Lia.

Open Scope string_scope.
Open Scope list_scope.
Open Scope Z_scope.

(** ** JavaScript values *)

(** Truthiness of an optional string: [undefined] and [""] are falsy. *)
Definition truthy (s : option string) : bool :=
  match s with
  | Some s => negb (String.eqb s "")
  | None => false
  end.

(** [s || ""] *)
Definition orEmpty (s : option string) : string :=
  match s with
  | Some s => s
  | None => ""
  end.

(** The values found in the attribute bags compared by name
    ([current[setting] !== desired[setting]]). *)
Inductive JsValue :=
| JsUndefined
| JsNumber (n : Z)
| JsString (s : string).

#[global] Instance JsValue_eq_dec : EqDecision JsValue.
Proof. solve_decision. Defined.

Definition jsNumber (n : option Z) : JsValue :=
  match n with Some n => JsNumber n | None => JsUndefined end.

Definition jsString (s : option string) : JsValue :=
  match s with Some s => JsString s | None => JsUndefined end.

(** [a !== b] *)
Definition strictNe `{EqDecision A} (a b : A) : bool := negb (bool_decide (a = b)).

(** [l.includes(k)] *)
Definition includes (l : list string) (k : string) : bool := bool_decide (k ∈ l).

(** [l.find(p) !== undefined], for a list whose elements are never [undefined]. *)
Definition found {A} (p : A → bool) (l : list A) : bool :=
  match List.find p l with
  | Some _ => true
  | None => false
  end.

(** Optional chaining, [o?.f] *)
Definition chain {A B} (o : option A) (f : A → option B) : option B :=
  match o with
  | Some a => f a
  | None => None
  end.
Notation "o ?. f" := (chain o f) (at level 50, left associativity).

(** [Object.keys(o)] of a string-keyed object. *)
Definition Object_keys (o : gmap string string) : list string := (map_to_list o).*1.

(** ** The data of the AWS SDK (every field is optional there) *)

Record Tag := {
  Tag_Key : option string;
  Tag_Value : option string }.

Record AutoScalingConfigurationSummary := {
  acs_AutoScalingConfigurationArn : option string;
  acs_Status : option string;
  acs_HasAssociatedService : option bool }.

Record AutoScalingConfiguration := {
  ac_AutoScalingConfigurationArn : option string;
  ac_MaxConcurrency : option Z;
  ac_MinSize : option Z;
  ac_MaxSize : option Z }.

Record HealthCheckConfiguration := {
  hc_Protocol : option string;
  hc_Path : option string;
  hc_Interval : option Z;
  hc_Timeout : option Z;
  hc_HealthyThreshold : option Z;
  hc_UnhealthyThreshold : option Z }.

Record InstanceConfiguration := {
  ic_InstanceRoleArn : option string;
  ic_Cpu : option string;
  ic_Memory : option string }.

Record ImageConfiguration := {
  RuntimeEnvironmentSecrets : option (gmap string string);
  RuntimeEnvironmentVariables : option (gmap string string) }.

Record ImageRepository := {
  ImageIdentifier : option string;
  ImageRepositoryType : option string;
  ir_ImageConfiguration : option ImageConfiguration }.

Record SourceConfiguration := {
  sc_ImageRepository : option ImageRepository;
  AutoDeploymentsEnabled : option bool;
  AccessRoleArn : option string  (* AuthenticationConfiguration.AccessRoleArn *) }.

Record Service := {
  ServiceArn : option string;
  ServiceUrl : option string;
  Status : option string;
  svc_SourceConfiguration : option SourceConfiguration;
  svc_InstanceConfiguration : option InstanceConfiguration;
  svc_HealthCheckConfiguration : option HealthCheckConfiguration;
  (* AutoScalingConfigurationSummary?.AutoScalingConfigurationArn *)
  svc_AutoScalingConfigurationArn : option string }.

Record ServiceSummary := {
  ss_ServiceArn : option string;
  ss_ServiceUrl : option string;
  ss_Status : option string }.

Record ListAutoScalingConfigurationsOutput := {
  AutoScalingConfigurationSummaryList : option (list AutoScalingConfigurationSummary);
  lac_NextToken : option string }.

Record ListServicesOutput := {
  ServiceSummaryList : option (list ServiceSummary);
  ls_NextToken : option string }.

Record CreateAutoScalingConfigurationInput := {
  AutoScalingConfigurationName : string;
  MaxConcurrency : Z;
  MaxSize : Z;
  MinSize : Z;
  cac_Tags : list Tag }.

Record UpdateServiceInput := {
  us_ServiceArn : option string;
  us_AutoScalingConfigurationArn : option string;
  us_HealthCheckConfiguration : option HealthCheckConfiguration;
  us_InstanceConfiguration : option InstanceConfiguration;
  us_SourceConfiguration : option SourceConfiguration }.

Record CreateServiceInput := {
  ServiceName : string;
  cs_SourceConfiguration : SourceConfiguration;
  cs_InstanceConfiguration : InstanceConfiguration;
  cs_Tags : list Tag;
  cs_HealthCheckConfiguration : HealthCheckConfiguration;
  cs_AutoScalingConfigurationArn : option string;
  IsPubliclyAccessible : bool }.

(** ** The caller's options *)

Record AutoScalingSettings := {
  minSize : Z;
  maxSize : Z;
  maxConcurrency : Z }.

Record HealthCheckSettings := {
  path : string;
  interval : Z;
  timeout : Z;
  healthyThreshold : Z;
  unhealthyThreshold : Z }.

(** [setAppRunnerUrl] is an effect of the outside world (see [Provider]);
    [logger] is left out. *)
Record EnsureAppRunnerOptions := {
  region : string;
  deployment : string;
  component : string;
  ecrRepositoryName : string;
  imageTag : string;
  autoScalingConfigurationName : string;
  autoScaling : AutoScalingSettings;
  healthCheck : HealthCheckSettings;
  appRunnerServiceName : string;
  appRunnerInstanceRoleArn : string;
  appRunnerCpu : option string;
  appRunnerMemory : option string;
  ignoreConfigKeys : list string }.

(** ** Outcomes of a run *)

(** A rejected promise: the exception [e] with [e.name] and [e.message]. *)
Record SdkError := {
  err_name : string;
  err_message : string }.

Inductive Result (A : Type) :=
| Resolved (a : A)
| Rejected (e : SdkError).
Arguments Resolved {A} a.
Arguments Rejected {A} e.

(** The sites of [process.exit(1)], named after the message logged there. *)
Inductive Fatal :=
| UnexpectedStatusDeleting (status : option string)
    (* "failure deleting ...: unexpected service status ..." *)
| UnexpectedStatusCreating (status : option string)
    (* "failure creating ...: unexpected service status ..." *)
| UpdateTimeout
    (* "... was updated but did not reach the RUNNING state within ..." *)
| RolledBack
    (* "... update failed and the deployment was rolled back to the previous version" *)
| CreateTimeout
    (* "... was created but did not reach the RUNNING state within ..." *)
| InvalidState (message : string)
    (* the message of the InvalidStateException of DeleteService *)
| DeleteTimeout
    (* "... was deleted but did not reach the DELETED state within ..." *)
| Ambiguous (services : list ServiceSummary)
    (* "found multiple ... services, and expected only one" *)
| Busy
    (* "the ... service is currently being updated, please try again later" *).

(** [Diverge] stands for a paging loop that was still running when its fuel
    ran out. *)
Inductive Outcome (A : Type) :=
| Ret (a : A)
| Exit (f : Fatal)
| Throw (e : SdkError)
| Diverge.
Arguments Ret {A} a.
Arguments Exit {A} f.
Arguments Throw {A} e.
Arguments Diverge {A}.

(** ** Interactions with the outside world *)

Inductive Event :=
| EvGetEcrRepositoryArn (region repositoryName : string) (r : Result string)
| EvGetConfig (region deployment : string)
    (r : Result (gmap string (gmap string (gmap string string))))
| EvNow (iso : string)
| EvSetAppRunnerUrl (url : string) (r : Result unit)
| EvSleep (seconds : Z)
| EvDescribeService (arn : string) (r : Result (option Service))
| EvCreateService (input : CreateServiceInput) (r : Result (option Service))
| EvCreateAutoScalingConfiguration (input : CreateAutoScalingConfigurationInput)
    (r : Result (option AutoScalingConfiguration))
| EvListAutoScalingConfigurations (name : string) (nextToken : option string)
    (r : Result ListAutoScalingConfigurationsOutput)
| EvDeleteAutoScalingConfiguration (arn : option string) (r : Result unit)
| EvDescribeAutoScalingConfiguration (arn : string)
    (r : Result (option AutoScalingConfiguration))
| EvUpdateService (input : UpdateServiceInput) (r : Result unit)
| EvTagResource (arn : option string) (tags : list Tag) (r : Result unit)
| EvDeleteService (arn : string) (r : Result unit)
| EvListServices (nextToken : option string) (r : Result ListServicesOutput)
| EvListTagsForResource (arn : string) (r : Result (option (list Tag))).

Definition History := list Event.

(** The outside world.  Each answer is a function of the history so far, so
    a provider may change its state with every call it received.  The
    commands of the SDK take the region of the client they are sent through
    ([getAppRunnerClient(region)]) before their input. *)
Record Provider := {
  getEcrRepositoryArn : History → string → string → Result string;
  getConfig : History → string → string →
              Result (gmap string (gmap string (gmap string string)));
  Date_toISOString : History → string;  (* new Date().toISOString() *)
  setAppRunnerUrl : History → string → Result unit;
  DescribeServiceCommand : History → string → string → Result (option Service);
  CreateServiceCommand : History → string → CreateServiceInput → Result (option Service);
  CreateAutoScalingConfigurationCommand :
    History → string → CreateAutoScalingConfigurationInput →
    Result (option AutoScalingConfiguration);
  ListAutoScalingConfigurationsCommand :
    History → string → string → option string → Result ListAutoScalingConfigurationsOutput;
  DeleteAutoScalingConfigurationCommand : History → string → option string → Result unit;
  DescribeAutoScalingConfigurationCommand :
    History → string → string → Result (option AutoScalingConfiguration);
  UpdateServiceCommand : History → string → UpdateServiceInput → Result unit;
  TagResourceCommand : History → string → option string → list Tag → Result unit;
  DeleteServiceCommand : History → string → string → Result unit;
  ListServicesCommand : History → string → option string → Result ListServicesOutput;
  ListTagsForResourceCommand : History → string → string → Result (option (list Tag)) }.

(** ** The monad of a run: the history is state, an outcome other than [Ret]
    ends the run *)

Definition M (A : Type) : Type := History → Outcome A * History.

#[global] Instance M_ret : MRet M := λ A a h, (Ret a, h).

#[global] Instance M_bind : MBind M := λ A B k m h,
  match m h with
  | (Ret a, h1) => k a h1
  | (Exit f, h1) => (Exit f, h1)
  | (Throw e, h1) => (Throw e, h1)
  | (Diverge, h1) => (Diverge, h1)
  end.

(** [process.exit(1)] after logging the message of site [f] *)
Definition exit {A} (f : Fatal) : M A := λ h, (Exit f, h).

(** [throw e] *)
Definition throw {A} (e : SdkError) : M A := λ h, (Throw e, h).

Definition diverge {A} : M A := λ h, (Diverge, h).

(** [await new Promise((resolve) => setTimeout(resolve, seconds * 1000))] *)
Definition sleep (seconds : Z) : M unit := λ h, (Ret tt, h ++ [EvSleep seconds]).

(** One interaction: ask the oracle at the present history and record the
    question with its answer.  The result is the settled promise, for the
    call sites inside [try ... catch]. *)
Definition settle {A} (call : History → Result A) (ev : Result A → Event) : M (Result A) :=
  λ h, let r := call h in (Ret r, h ++ [ev r]).

(** [await promise] outside of a [try]: a rejection is thrown on. *)
Definition await {A} (call : History → Result A) (ev : Result A → Event) : M A :=
  r ← settle call ev;
  match r with
  | Resolved a => mret a
  | Rejected e => throw e
  end.

(** ** The program *)

(** [./defaults] is not part of the sources at hand: the two tag keys and
    [getTags] are parameters of the development. *)
Record Defaults := {
  TagKeys_LetsGoDeployment : string;
  TagKeys_LetsGoComponent : string;
  getTags : string → string → list (string * string) → list Tag }.

Definition MaxWaitTimeForAppRunnerCreate : Z := 60 * 15.
Definition MaxWaitTimeForAppRunnerUpdate : Z := 60 * 15.

(** *** The pure parts of [updateAppRunnerService] *)

(** [getAutoScalingSettings(options)[setting]] *)
Definition getAutoScalingSettings (options : EnsureAppRunnerOptions) (setting : string) : JsValue :=
  if String.eqb setting "MaxConcurrency" then JsNumber (maxConcurrency (autoScaling options))
  else if String.eqb setting "MaxSize" then JsNumber (maxSize (autoScaling options))
  else if String.eqb setting "MinSize" then JsNumber (minSize (autoScaling options))
  else JsUndefined.

(** [getHealthCheckSettings(options)[setting]] *)
Definition getHealthCheckSettings (options : EnsureAppRunnerOptions) (setting : string) : JsValue :=
  if String.eqb setting "Protocol" then JsString "HTTP"
  else if String.eqb setting "Path" then JsString (path (healthCheck options))
  else if String.eqb setting "Interval" then JsNumber (interval (healthCheck options))
  else if String.eqb setting "Timeout" then JsNumber (timeout (healthCheck options))
  else if String.eqb setting "HealthyThreshold" then
    JsNumber (healthyThreshold (healthCheck options))
  else if String.eqb setting "UnhealthyThreshold" then
    JsNumber (unhealthyThreshold (healthCheck options))
  else JsUndefined.

(** [{ ...desiredHealthCheckSettings }] as the request's section *)
Definition desiredHealthCheckConfiguration (options : EnsureAppRunnerOptions) :
    HealthCheckConfiguration :=
  {| hc_Protocol := Some "HTTP";
     hc_Path := Some (path (healthCheck options));
     hc_Interval := Some (interval (healthCheck options));
     hc_Timeout := Some (timeout (healthCheck options));
     hc_HealthyThreshold := Some (healthyThreshold (healthCheck options));
     hc_UnhealthyThreshold := Some (unhealthyThreshold (healthCheck options)) |}.

(** [(autoScalingResponse.AutoScalingConfiguration || {})[setting]] *)
Definition currentAutoScalingSettings (c : option AutoScalingConfiguration)
    (setting : string) : JsValue :=
  match c with
  | None => JsUndefined
  | Some c =>
      if String.eqb setting "MaxConcurrency" then jsNumber (ac_MaxConcurrency c)
      else if String.eqb setting "MaxSize" then jsNumber (ac_MaxSize c)
      else if String.eqb setting "MinSize" then jsNumber (ac_MinSize c)
      else if String.eqb setting "AutoScalingConfigurationArn" then
        jsString (ac_AutoScalingConfigurationArn c)
      else JsUndefined
  end.

(** [(existingService.HealthCheckConfiguration || {})[setting]] *)
Definition currentHealthCheckSettings (c : option HealthCheckConfiguration)
    (setting : string) : JsValue :=
  match c with
  | None => JsUndefined
  | Some c =>
      if String.eqb setting "Protocol" then jsString (hc_Protocol c)
      else if String.eqb setting "Path" then jsString (hc_Path c)
      else if String.eqb setting "Interval" then jsNumber (hc_Interval c)
      else if String.eqb setting "Timeout" then jsNumber (hc_Timeout c)
      else if String.eqb setting "HealthyThreshold" then jsNumber (hc_HealthyThreshold c)
      else if String.eqb setting "UnhealthyThreshold" then jsNumber (hc_UnhealthyThreshold c)
      else JsUndefined
  end.

Definition autoScalingNeedsUpdate (current : option AutoScalingConfiguration)
    (options : EnsureAppRunnerOptions) : bool :=
  found (λ setting, strictNe (currentAutoScalingSettings current setting)
                             (getAutoScalingSettings options setting))
        ["MaxConcurrency"; "MinSize"; "MaxSize"].

Definition healthCheckNeedsUpdate (existingService : Service)
    (options : EnsureAppRunnerOptions) : bool :=
  found (λ setting,
           strictNe (currentHealthCheckSettings (svc_HealthCheckConfiguration existingService)
                       setting)
                    (getHealthCheckSettings options setting))
        ["Path"; "Interval"; "Timeout"; "HealthyThreshold"; "UnhealthyThreshold"].

Definition instanceConfigurationNeedsUpdate (existingService : Service)
    (options : EnsureAppRunnerOptions) : bool :=
  strictNe (svc_InstanceConfiguration existingService ?. ic_Cpu) (appRunnerCpu options)
  || strictNe (svc_InstanceConfiguration existingService ?. ic_Memory) (appRunnerMemory options).

(** [`${ecrRepositoryUrl}:${options.imageTag}`] *)
Definition imageIdentifier (ecrRepositoryUrl : string) (options : EnsureAppRunnerOptions) :
    string :=
  ecrRepositoryUrl +:+ ":" +:+ imageTag options.

Definition imageNeedsUpdate (existingService : Service) (ecrRepositoryUrl : string)
    (options : EnsureAppRunnerOptions) : bool :=
  strictNe (orEmpty (svc_SourceConfiguration existingService ?. sc_ImageRepository
                       ?. ImageIdentifier))
           (imageIdentifier ecrRepositoryUrl options).

Definition currentConfigKeys (existingService : Service) : list string :=
  Object_keys (default ∅ (svc_SourceConfiguration existingService ?. sc_ImageRepository
                            ?. ir_ImageConfiguration ?. RuntimeEnvironmentSecrets)).

Definition configNeedsUpdate (currentConfigKeys desiredConfigKeys ignoreConfigKeys : list string) :
    bool :=
  found (λ key, negb (includes currentConfigKeys key) && negb (includes ignoreConfigKeys key))
        desiredConfigKeys
  || found (λ key, negb (includes desiredConfigKeys key) && negb (includes ignoreConfigKeys key))
        currentConfigKeys.

(** What lines 209-301 of [updateAppRunnerService] have computed when the
    update plan is built. *)
Record UpdateDecisions := {
  ecrRepositoryUrl : string;
  newAutoScalingConfigurationArn : option string;
  healthCheckNeedsUpdate_ : bool;
  instanceConfigurationNeedsUpdate_ : bool;
  imageNeedsUpdate_ : bool;
  desiredConfig : gmap string string;
  configNeedsUpdate_ : bool }.

(** lines 254-301: the comparisons, once the registry address, the ARN of
    the new revision (if one was created) and the desired configuration are
    known *)
Definition decisions (options : EnsureAppRunnerOptions) (existingService : Service)
    (ecrRepositoryUrl : string) (newAutoScalingConfigurationArn : option string)
    (desiredConfig : gmap string string) : UpdateDecisions :=
  {| ecrRepositoryUrl := ecrRepositoryUrl;
     newAutoScalingConfigurationArn := newAutoScalingConfigurationArn;
     healthCheckNeedsUpdate_ := healthCheckNeedsUpdate existingService options;
     instanceConfigurationNeedsUpdate_ :=
       instanceConfigurationNeedsUpdate existingService options;
     imageNeedsUpdate_ := imageNeedsUpdate existingService ecrRepositoryUrl options;
     desiredConfig := desiredConfig;
     configNeedsUpdate_ :=
       configNeedsUpdate (currentConfigKeys existingService) (Object_keys desiredConfig)
         (ignoreConfigKeys options) |}.

Definition updatePlan (d : UpdateDecisions) : list string :=
  (if truthy (newAutoScalingConfigurationArn d) then ["autoscaling settings"] else [])
  ++ (if healthCheckNeedsUpdate_ d then ["healthcheck settings"] else [])
  ++ (if instanceConfigurationNeedsUpdate_ d then ["instance configuration"] else [])
  ++ (if imageNeedsUpdate_ d then ["image"] else [])
  ++ (if configNeedsUpdate_ d then ["variables"] else []).

(** [RuntimeEnvironmentVariables] of a create or update request *)
Definition runtimeEnvironmentVariables (options : EnsureAppRunnerOptions) (updatedAt : string) :
    gmap string string :=
  {[ "LETSGO_IMAGE_TAG" := imageTag options;
     "LETSGO_DEPLOYMENT" := deployment options;
     "LETSGO_UPDATED_AT" := updatedAt;
     "HOSTNAME" := "0.0.0.0" ]}.

Definition updateServiceInput (options : EnsureAppRunnerOptions) (existingService : Service)
    (d : UpdateDecisions) (updatedAt : string) : UpdateServiceInput :=
  {| us_ServiceArn := ServiceArn existingService;
     us_AutoScalingConfigurationArn :=
       if truthy (newAutoScalingConfigurationArn d)
       then newAutoScalingConfigurationArn d else None;
     us_HealthCheckConfiguration :=
       if healthCheckNeedsUpdate_ d
       then Some (desiredHealthCheckConfiguration options) else None;
     us_InstanceConfiguration :=
       if instanceConfigurationNeedsUpdate_ d
       then Some {| ic_InstanceRoleArn := Some (appRunnerInstanceRoleArn options);
                    ic_Cpu := appRunnerCpu options;
                    ic_Memory := appRunnerMemory options |}
       else None;
     us_SourceConfiguration :=
       if imageNeedsUpdate_ d || configNeedsUpdate_ d
       then Some
         {| sc_ImageRepository := Some
              {| ImageIdentifier := Some (imageIdentifier (ecrRepositoryUrl d) options);
                 ImageRepositoryType := Some "ECR";
                 ir_ImageConfiguration :=
                   if configNeedsUpdate_ d
                   then Some
                     {| RuntimeEnvironmentSecrets := Some (desiredConfig d);
                        RuntimeEnvironmentVariables :=
                          Some (runtimeEnvironmentVariables options updatedAt) |}
                   else None |};
            AutoDeploymentsEnabled := Some false;
            AccessRoleArn := Some (appRunnerInstanceRoleArn options) |}
       else None |}.

(** [service.SourceConfiguration?.ImageRepository?.ImageConfiguration
      ?.RuntimeEnvironmentVariables?.LETSGO_UPDATED_AT] *)
Definition LETSGO_UPDATED_AT (service : Service) : option string :=
  svc_SourceConfiguration service ?. sc_ImageRepository ?. ir_ImageConfiguration
    ?. RuntimeEnvironmentVariables ?. (λ vars : gmap string string, vars !! "LETSGO_UPDATED_AT").

(** The delay of the next tick of [waitForAppRunnerService] (lines 174-180);
    [delay] is the variable's value so far. *)
Definition nextDelay (clock delay : Z) : Z :=
  if clock >? 60 then 10
  else if clock >? 20 then 5
  else if clock >? 5 then 2
  else delay.

Section Program.

Variable D : Defaults.
Variable P : Provider.

(** [new Date().toISOString()] *)
Definition toISOString : M string :=
  λ h, (Ret (Date_toISOString P h), h ++ [EvNow (Date_toISOString P h)]).

(** *** [describeService] *)

Definition describeService (region : string) (serviceArn : option string) :
    M (option Service) :=
  if negb (truthy serviceArn) then mret None
  else
    r ← settle (λ h, DescribeServiceCommand P h region (orEmpty serviceArn))
               (EvDescribeService (orEmpty serviceArn));
    match r with
    | Resolved service => mret service
    | Rejected e =>
        if strictNe (err_name e) "ResourceNotFoundException" then throw e
        else mret None
    end.

(** *** [deleteUnusedAutoScalingConfigurations] *)

(** the [for ... of] over one page *)
Fixpoint deleteUnusedOfPage (region : string) (page : list AutoScalingConfigurationSummary) :
    M unit :=
  match page with
  | [] => mret tt
  | revision :: rest =>
      if negb (default false (acs_HasAssociatedService revision))
         && bool_decide (acs_Status revision = Some "active")
      then
        _ ← await (λ h, DeleteAutoScalingConfigurationCommand P h region
                          (acs_AutoScalingConfigurationArn revision))
                  (EvDeleteAutoScalingConfiguration (acs_AutoScalingConfigurationArn revision));
        deleteUnusedOfPage region rest
      else deleteUnusedOfPage region rest
  end.

(** the [while (true)] over the pages; [nextToken] is
    [listCommandInput.NextToken] *)
Fixpoint deleteUnusedPages (fuel : nat) (region autoScalingConfigurationName : string)
    (nextToken : option string) : M unit :=
  match fuel with
  | O => diverge
  | S fuel =>
      listResult ← await (λ h, ListAutoScalingConfigurationsCommand P h region
                                 autoScalingConfigurationName nextToken)
                         (EvListAutoScalingConfigurations autoScalingConfigurationName nextToken);
      _ ← deleteUnusedOfPage region
            (default [] (AutoScalingConfigurationSummaryList listResult));
      if negb (truthy (lac_NextToken listResult)) then mret tt
      else deleteUnusedPages fuel region autoScalingConfigurationName
             (lac_NextToken listResult)
  end.

Definition deleteUnusedAutoScalingConfigurations (fuel : nat)
    (region autoScalingConfigurationName : string) : M unit :=
  deleteUnusedPages fuel region autoScalingConfigurationName None.

(** *** [waitForAppRunnerService] *)

(** the [while (true)], from the state [clock], [delay] *)
Fixpoint waitLoop (fuel : nat) (region serviceArn : string) (maxWait : Z) (isDeleting : bool)
    (clock delay : Z) : M (option Service) :=
  match fuel with
  | O => diverge
  | S fuel =>
      r ← settle (λ h, DescribeServiceCommand P h region serviceArn)
                 (EvDescribeService serviceArn);
      match r with
      | Rejected e =>
          if bool_decide (err_name e = "ResourceNotFoundException") && isDeleting
          then mret None
          else throw e
      | Resolved service =>
          let status := service ?. Status in
          let continue : M (option Service) :=
            if clock >=? maxWait then mret (if isDeleting then service else None)
            else
              let delay := nextDelay clock delay in
              let clock := clock + delay in
              _ ← sleep delay;
              waitLoop fuel region serviceArn maxWait isDeleting clock delay
          in
          if isDeleting then
            if bool_decide (status = Some "DELETED") then mret None
            else if strictNe status (Some "OPERATION_IN_PROGRESS")
                 then exit (UnexpectedStatusDeleting status)
                 else continue
          else
            if bool_decide (status = Some "RUNNING") then mret service
            else if strictNe status (Some "OPERATION_IN_PROGRESS")
                 then exit (UnexpectedStatusCreating status)
                 else continue
      end
  end.

(** The clock starts at 0 and grows by at least 1 with every tick, so the
    loop body runs at most [maxWait + 1] times: that much fuel is never used
    up ([waitLoop_terminates] below). *)
Definition waitForAppRunnerService (region serviceArn : string) (maxWait : Z)
    (isDeleting : bool) : M (option Service) :=
  waitLoop (S (Z.to_nat maxWait)) region serviceArn maxWait isDeleting 0 1.

(** *** [updateAppRunnerService] *)

Definition tagsOf (options : EnsureAppRunnerOptions) : list Tag :=
  getTags D (region options) (deployment options)
    [(TagKeys_LetsGoComponent D, component options)].

Definition createAutoScalingConfigurationInput (options : EnsureAppRunnerOptions) :
    CreateAutoScalingConfigurationInput :=
  {| AutoScalingConfigurationName := autoScalingConfigurationName options;
     MaxConcurrency := maxConcurrency (autoScaling options);
     MaxSize := maxSize (autoScaling options);
     MinSize := minSize (autoScaling options);
     cac_Tags := tagsOf options |}.

(** [(await getConfig(region, deployment, true))[region]?.[deployment] || {}] *)
Definition awaitConfig (options : EnsureAppRunnerOptions) : M (gmap string string) :=
  config ← await (λ h, getConfig P h (region options) (deployment options))
                 (EvGetConfig (region options) (deployment options));
  mret (default ∅ ((config !! region options) ?.
                     (λ byDeployment : gmap string (gmap string string),
                        byDeployment !! deployment options))).

(** lines 209-310: everything up to the update plan *)
Definition decideUpdate (fuel : nat) (options : EnsureAppRunnerOptions)
    (existingService : Service) : M UpdateDecisions :=
  ecrRepositoryUrl ← await (λ h, getEcrRepositoryArn P h (region options)
                                   (ecrRepositoryName options))
                           (EvGetEcrRepositoryArn (region options) (ecrRepositoryName options));
  _ ← deleteUnusedAutoScalingConfigurations fuel (region options)
        (autoScalingConfigurationName options);
  autoScalingResponse ←
    await (λ h, DescribeAutoScalingConfigurationCommand P h (region options)
                  (orEmpty (svc_AutoScalingConfigurationArn existingService)))
          (EvDescribeAutoScalingConfiguration
             (orEmpty (svc_AutoScalingConfigurationArn existingService)));
  newAutoScalingConfigurationArn ←
    (if autoScalingNeedsUpdate autoScalingResponse options then
       autoScalingResult ←
         await (λ h, CreateAutoScalingConfigurationCommand P h (region options)
                       (createAutoScalingConfigurationInput options))
               (EvCreateAutoScalingConfiguration (createAutoScalingConfigurationInput options));
       mret (autoScalingResult ?. ac_AutoScalingConfigurationArn)
     else mret None);
  desiredConfig ← awaitConfig options;
  mret (decisions options existingService ecrRepositoryUrl newAutoScalingConfigurationArn
          desiredConfig).

(** lines 311-416: what is done with the update plan *)
Definition applyUpdate (options : EnsureAppRunnerOptions) (existingService : Service)
    (d : UpdateDecisions) : M unit :=
  if (0 <? Z.of_nat (length (updatePlan d))) then
    updatedAt ← toISOString;
    _ ← await (λ h, UpdateServiceCommand P h (region options)
                      (updateServiceInput options existingService d updatedAt))
              (EvUpdateService (updateServiceInput options existingService d updatedAt));
    _ ← await (λ h, TagResourceCommand P h (region options) (ServiceArn existingService)
                      (tagsOf options))
              (EvTagResource (ServiceArn existingService) (tagsOf options));
    service ← waitForAppRunnerService (region options)
                (orEmpty (ServiceArn existingService)) MaxWaitTimeForAppRunnerUpdate false;
    match service with
    | None => exit UpdateTimeout
    | Some service =>
        if strictNe (LETSGO_UPDATED_AT service) (Some updatedAt) then exit RolledBack
        else mret tt
    end
  else mret tt.

Definition updateAppRunnerService (fuel : nat) (options : EnsureAppRunnerOptions)
    (existingService : Service) : M unit :=
  d ← decideUpdate fuel options existingService;
  applyUpdate options existingService d.

(** *** [createAppRunnerService] *)

Definition createServiceInput (options : EnsureAppRunnerOptions) (ecrRepositoryUrl : string)
    (secrets : gmap string string) (updatedAt : string)
    (autoScalingResult : option AutoScalingConfiguration) : CreateServiceInput :=
  {| ServiceName := appRunnerServiceName options;
     cs_SourceConfiguration :=
       {| sc_ImageRepository := Some
            {| ImageIdentifier := Some (imageIdentifier ecrRepositoryUrl options);
               ImageRepositoryType := Some "ECR";
               ir_ImageConfiguration := Some
                 {| RuntimeEnvironmentSecrets := Some secrets;
                    RuntimeEnvironmentVariables :=
                      Some (runtimeEnvironmentVariables options updatedAt) |} |};
          AutoDeploymentsEnabled := Some false;
          AccessRoleArn := Some (appRunnerInstanceRoleArn options) |};
     cs_InstanceConfiguration :=
       {| ic_InstanceRoleArn := Some (appRunnerInstanceRoleArn options);
          ic_Cpu := appRunnerCpu options;
          ic_Memory := appRunnerMemory options |};
     cs_Tags := tagsOf options;
     cs_HealthCheckConfiguration := desiredHealthCheckConfiguration options;
     cs_AutoScalingConfigurationArn := autoScalingResult ?. ac_AutoScalingConfigurationArn;
     IsPubliclyAccessible := true |}.

Definition createAppRunnerService (fuel : nat) (options : EnsureAppRunnerOptions) : M unit :=
  ecrRepositoryUrl ← await (λ h, getEcrRepositoryArn P h (region options)
                                   (ecrRepositoryName options))
                           (EvGetEcrRepositoryArn (region options) (ecrRepositoryName options));
  _ ← deleteUnusedAutoScalingConfigurations fuel (region options)
        (autoScalingConfigurationName options);
  autoScalingResult ←
    await (λ h, CreateAutoScalingConfigurationCommand P h (region options)
                  (createAutoScalingConfigurationInput options))
          (EvCreateAutoScalingConfiguration (createAutoScalingConfigurationInput options));
  secrets ← awaitConfig options;
  updatedAt ← toISOString;
  createServiceResult ←
    await (λ h, CreateServiceCommand P h (region options)
                  (createServiceInput options ecrRepositoryUrl secrets updatedAt
                     autoScalingResult))
          (EvCreateService (createServiceInput options ecrRepositoryUrl secrets updatedAt
                              autoScalingResult));
  let url := if truthy (createServiceResult ?. ServiceUrl)
             then "https://" +:+ orEmpty (createServiceResult ?. ServiceUrl)
             else "" in
  _ ← await (λ h, setAppRunnerUrl P h url) (EvSetAppRunnerUrl url);
  service ← waitForAppRunnerService (region options)
              (orEmpty (createServiceResult ?. ServiceArn)) MaxWaitTimeForAppRunnerCreate false;
  match service with
  | Some _ => mret tt
  | None => exit CreateTimeout
  end.

(** *** [deleteAppRunnerService] *)

Definition deleteAppRunnerService (region serviceArn : string) : M unit :=
  r ← settle (λ h, DeleteServiceCommand P h region serviceArn) (EvDeleteService serviceArn);
  match r with
  | Rejected e =>
      if bool_decide (err_name e = "InvalidStateException") then exit (InvalidState (err_message e))
      else if strictNe (err_name e) "ResourceNotFoundException" then throw e
      else mret tt
  | Resolved _ =>
      service ← waitForAppRunnerService region serviceArn MaxWaitTimeForAppRunnerUpdate true;
      match service with
      | Some _ => exit DeleteTimeout
      | None => mret tt
      end
  end.

(** *** [listLetsGoAppRunnerServices] *)

(** [tagsResult.Tags?.find((tag) => tag.Key === key)?.Value] *)
Definition tagValue (tags : option (list Tag)) (key : string) : option string :=
  tags ?. List.find (λ tag, bool_decide (Tag_Key tag = Some key)) ?. Tag_Value.

(** the condition under which a listed service is kept *)
Definition isLetsGoService (deployment component : option string) (tags : option (list Tag)) :
    bool :=
  let deploymentValue := tagValue tags (TagKeys_LetsGoDeployment D) in
  let componentValue := tagValue tags (TagKeys_LetsGoComponent D) in
  truthy deploymentValue
  && truthy componentValue
  && (negb (truthy deployment) || bool_decide (deployment = deploymentValue))
  && (negb (truthy component) || bool_decide (component = componentValue)).

(** the [for ... of] over one page; [services] is the array being built *)
Fixpoint listLetsGoOfPage (region : string) (deployment component : option string)
    (page : list ServiceSummary) (services : list ServiceSummary) : M (list ServiceSummary) :=
  match page with
  | [] => mret services
  | service :: rest =>
      tags ← await (λ h, ListTagsForResourceCommand P h region (orEmpty (ss_ServiceArn service)))
                   (EvListTagsForResource (orEmpty (ss_ServiceArn service)));
      listLetsGoOfPage region deployment component rest
        (if isLetsGoService deployment component tags then services ++ [service] else services)
  end.

(** the [while (true)] over the pages; [nextToken] is [listInput.NextToken] *)
Fixpoint listLetsGoPages (fuel : nat) (region : string) (deployment component : option string)
    (nextToken : option string) (services : list ServiceSummary) : M (list ServiceSummary) :=
  match fuel with
  | O => diverge
  | S fuel =>
      result ← await (λ h, ListServicesCommand P h region nextToken) (EvListServices nextToken);
      services ← listLetsGoOfPage region deployment component
                   (default [] (ServiceSummaryList result)) services;
      if negb (truthy (ls_NextToken result)) then mret services
      else listLetsGoPages fuel region deployment component (ls_NextToken result) services
  end.

Definition listLetsGoAppRunnerServices (fuel : nat) (region : string)
    (deployment component : option string) : M (list ServiceSummary) :=
  listLetsGoPages fuel region deployment component None [].

(** *** [getOneLetsGoAppRunnerService] *)

Definition getOneLetsGoAppRunnerService (fuel : nat) (options : EnsureAppRunnerOptions) :
    M (option ServiceSummary) :=
  existingServices ← listLetsGoAppRunnerServices fuel (region options)
                       (Some (deployment options)) (Some (component options));
  if 1 <? Z.of_nat (length existingServices) then exit (Ambiguous existingServices)
  else if Z.of_nat (length existingServices) =? 0 then mret None
  else mret (head existingServices).

(** *** [ensureAppRunner] *)

Definition ensureAppRunner (fuel : nat) (options : EnsureAppRunnerOptions) : M unit :=
  existingServiceSummary ← getOneLetsGoAppRunnerService fuel options;
  if bool_decide (existingServiceSummary ?. ss_Status = Some "OPERATION_IN_PROGRESS")
  then exit Busy
  else
    existingServiceSummary ←
      (if bool_decide (existingServiceSummary ?. ss_Status = Some "CREATE_FAILED") then
         _ ← deleteAppRunnerService (region options)
               (orEmpty (existingServiceSummary ?. ss_ServiceArn));
         mret None
       else mret existingServiceSummary);
    existingService ←
      match existingServiceSummary with
      | Some summary => describeService (region options) (ss_ServiceArn summary)
      | None => mret None
      end;
    match existingService with
    | Some existingService =>
        if bool_decide (existingServiceSummary ?. ss_Status = Some "DELETED")
        then createAppRunnerService fuel options
        else updateAppRunnerService fuel options existingService
    | None => createAppRunnerService fuel options
    end.

End Program.

(** * Traces and the words of the specification *)

(** ** The kinds of interaction a run makes *)

Inductive Kind :=
| KGetEcrRepositoryArn | KGetConfig | KNow | KSetAppRunnerUrl | KSleep
| KDescribeService | KCreateService | KCreateAutoScalingConfiguration
| KListAutoScalingConfigurations | KDeleteAutoScalingConfiguration
| KDescribeAutoScalingConfiguration | KUpdateService | KTagResource | KDeleteService
| KListServices | KListTagsForResource.

#[global] Instance Kind_eq_dec : EqDecision Kind.
Proof. solve_decision. Defined.

Definition kindOf (e : Event) : Kind :=
  match e with
  | EvGetEcrRepositoryArn _ _ _ => KGetEcrRepositoryArn
  | EvGetConfig _ _ _ => KGetConfig
  | EvNow _ => KNow
  | EvSetAppRunnerUrl _ _ => KSetAppRunnerUrl
  | EvSleep _ => KSleep
  | EvDescribeService _ _ => KDescribeService
  | EvCreateService _ _ => KCreateService
  | EvCreateAutoScalingConfiguration _ _ => KCreateAutoScalingConfiguration
  | EvListAutoScalingConfigurations _ _ _ => KListAutoScalingConfigurations
  | EvDeleteAutoScalingConfiguration _ _ => KDeleteAutoScalingConfiguration
  | EvDescribeAutoScalingConfiguration _ _ => KDescribeAutoScalingConfiguration
  | EvUpdateService _ _ => KUpdateService
  | EvTagResource _ _ _ => KTagResource
  | EvDeleteService _ _ => KDeleteService
  | EvListServices _ _ => KListServices
  | EvListTagsForResource _ _ => KListTagsForResource
  end.

(** the calls that change something at the provider *)
Definition isMutation (k : Kind) : bool :=
  match k with
  | KCreateService | KCreateAutoScalingConfiguration | KDeleteAutoScalingConfiguration
  | KUpdateService | KTagResource | KDeleteService => true
  | _ => false
  end.

(** [only ks t]: every interaction of the trace [t] is of a kind in [ks] *)
Definition only (ks : list Kind) (t : History) : Prop :=
  Forall (λ e, bool_decide (kindOf e ∈ ks) = true) t.

(** [emits ks m]: whatever the history, a run of [m] only adds interactions,
    and only of the kinds [ks] *)
Definition emits {A} (ks : list Kind) (m : M A) : Prop :=
  ∀ h, ∃ t, (m h).2 = h ++ t ∧ only ks t.

(** The kinds of interaction of the phases of the flows *)

Definition decideKinds : list Kind :=
  [KGetEcrRepositoryArn; KListAutoScalingConfigurations; KDeleteAutoScalingConfiguration;
   KDescribeAutoScalingConfiguration; KCreateAutoScalingConfiguration; KGetConfig].

Definition applyKinds : list Kind :=
  [KNow; KUpdateService; KTagResource; KDescribeService; KSleep].

Definition createKinds : list Kind :=
  [KGetEcrRepositoryArn; KListAutoScalingConfigurations; KDeleteAutoScalingConfiguration;
   KCreateAutoScalingConfiguration; KGetConfig; KNow; KCreateService; KSetAppRunnerUrl;
   KDescribeService; KSleep].

Definition deleteKinds : list Kind := [KDeleteService; KDescribeService; KSleep].

Definition listKinds : list Kind := [KListServices; KListTagsForResource].

(** ** The polling waiter *)

(** What one poll of [waitForAppRunnerService] decides from the settled
    describe call, before the clock is looked at: the run stops with an
    outcome, or the status was OPERATION_IN_PROGRESS. *)
Inductive Verdict :=
| Stop (o : Outcome (option Service))
| InProgress (service : option Service).

Definition verdict (isDeleting : bool) (r : Result (option Service)) : Verdict :=
  match r with
  | Rejected e =>
      Stop (if bool_decide (err_name e = "ResourceNotFoundException") && isDeleting
            then Ret None else Throw e)
  | Resolved service =>
      if isDeleting then
        if bool_decide (service ?. Status = Some "DELETED") then Stop (Ret None)
        else if strictNe (service ?. Status) (Some "OPERATION_IN_PROGRESS")
             then Stop (Exit (UnexpectedStatusDeleting (service ?. Status)))
             else InProgress service
      else
        if bool_decide (service ?. Status = Some "RUNNING") then Stop (Ret service)
        else if strictNe (service ?. Status) (Some "OPERATION_IN_PROGRESS")
             then Stop (Exit (UnexpectedStatusCreating (service ?. Status)))
             else InProgress service
  end.

(** The delay schedule the loop follows, as a function of the seconds
    elapsed: 1s on [0,5], 2s on (5,20], 5s on (20,60], 10s beyond. *)
Definition schedule (elapsed : Z) : Z :=
  if elapsed >? 60 then 10
  else if elapsed >? 20 then 5
  else if elapsed >? 5 then 2
  else 1.

(** Following the words of the specification (4.2): [0,5) -> 1s,
    [5,20) -> 2s, [20,60) -> 5s, [60,oo) -> 10s. *)
Definition specSchedule (elapsed : Z) : Z :=
  if elapsed <? 5 then 1
  else if elapsed <? 20 then 2
  else if elapsed <? 60 then 5
  else 10.

(** [scheduled sched elapsed t]: every sleep of the trace [t] lasts what
    [sched] gives for the seconds slept before it, counted from [elapsed]. *)
Fixpoint scheduled (sched : Z → Z) (elapsed : Z) (t : History) : Prop :=
  match t with
  | [] => True
  | EvSleep seconds :: t => seconds = sched elapsed ∧ scheduled sched (elapsed + seconds) t
  | _ :: t => scheduled sched elapsed t
  end.

(** Following the words of the specification (4.2): what the waiter returns
    when [maxWaitSeconds] elapses, [last] being the last-observed record. *)
Definition specTimeoutResult (isDeleting : bool) (last : option Service) : option Service :=
  if isDeleting then None else last.

(** ** The diff, in the words of the specification (4.3, 4.4) *)

Inductive Category := Autoscaling | Healthcheck | Instance | Image | Variables.

#[global] Instance Category_eq_dec : EqDecision Category.
Proof. solve_decision. Defined.

(** the entry of [updatePlan] that stands for a category *)
Definition categoryName (c : Category) : string :=
  match c with
  | Autoscaling => "autoscaling settings"
  | Healthcheck => "healthcheck settings"
  | Instance => "instance configuration"
  | Image => "image"
  | Variables => "variables"
  end.

(** [needsNewRevision]: any of maxConcurrency, minSize, maxSize differs *)
Definition differsAutoscaling (current : option AutoScalingConfiguration)
    (options : EnsureAppRunnerOptions) : Prop :=
  current ?. ac_MaxConcurrency ≠ Some (maxConcurrency (autoScaling options))
  ∨ current ?. ac_MinSize ≠ Some (minSize (autoScaling options))
  ∨ current ?. ac_MaxSize ≠ Some (maxSize (autoScaling options)).

(** any of path, interval, timeout, healthyThreshold, unhealthyThreshold is
    unequal to current *)
Definition differsHealthcheck (existingService : Service) (options : EnsureAppRunnerOptions) :
    Prop :=
  let current := svc_HealthCheckConfiguration existingService in
  current ?. hc_Path ≠ Some (path (healthCheck options))
  ∨ current ?. hc_Interval ≠ Some (interval (healthCheck options))
  ∨ current ?. hc_Timeout ≠ Some (timeout (healthCheck options))
  ∨ current ?. hc_HealthyThreshold ≠ Some (healthyThreshold (healthCheck options))
  ∨ current ?. hc_UnhealthyThreshold ≠ Some (unhealthyThreshold (healthCheck options)).

(** cpu or memory token differs from current *)
Definition differsInstance (existingService : Service) (options : EnsureAppRunnerOptions) :
    Prop :=
  svc_InstanceConfiguration existingService ?. ic_Cpu ≠ appRunnerCpu options
  ∨ svc_InstanceConfiguration existingService ?. ic_Memory ≠ appRunnerMemory options.

(** "<resolvedRegistryUrl>:<tag>" differs from the current image identifier
    string *)
Definition differsImage (existingService : Service) (resolvedRegistryUrl : string)
    (options : EnsureAppRunnerOptions) : Prop :=
  svc_SourceConfiguration existingService ?. sc_ImageRepository ?. ImageIdentifier
  ≠ Some (resolvedRegistryUrl +:+ ":" +:+ imageTag options).

(** the current secret bindings of a service *)
Definition currentSecrets (existingService : Service) : gmap string string :=
  default ∅ (svc_SourceConfiguration existingService ?. sc_ImageRepository
               ?. ir_ImageConfiguration ?. RuntimeEnvironmentSecrets).

(** the symmetric difference of the two key sets, the keys of
    [ignoreConfigKeys] left out on both sides, is not empty *)
Definition differsVariables (current desired : gmap string string) (ignoreConfigKeys : list string) :
    Prop :=
  let currentKeys : gset string := dom current ∖ list_to_set ignoreConfigKeys in
  let desiredKeys : gset string := dom desired ∖ list_to_set ignoreConfigKeys in
  (desiredKeys ∖ currentKeys) ∪ (currentKeys ∖ desiredKeys) ≠ ∅.

Definition differs (c : Category) (current : option AutoScalingConfiguration)
    (existingService : Service) (resolvedRegistryUrl : string) (desired : gmap string string)
    (options : EnsureAppRunnerOptions) : Prop :=
  match c with
  | Autoscaling => differsAutoscaling current options
  | Healthcheck => differsHealthcheck existingService options
  | Instance => differsInstance existingService options
  | Image => differsImage existingService resolvedRegistryUrl options
  | Variables =>
      differsVariables (currentSecrets existingService) desired (ignoreConfigKeys options)
  end.

(** whether a category is part of the update plan *)
Definition planned (c : Category) (d : UpdateDecisions) : bool :=
  match c with
  | Autoscaling => truthy (newAutoScalingConfigurationArn d)
  | Healthcheck => healthCheckNeedsUpdate_ d
  | Instance => instanceConfigurationNeedsUpdate_ d
  | Image => imageNeedsUpdate_ d
  | Variables => configNeedsUpdate_ d
  end.

(** ** Paging and the reclaim of unused revisions (4.1, 4.3) *)

(** the condition under which [deleteUnusedAutoScalingConfigurations]
    deletes a listed revision *)
Definition isUnused (revision : AutoScalingConfigurationSummary) : bool :=
  negb (default false (acs_HasAssociatedService revision))
  && bool_decide (acs_Status revision = Some "active").

(** the resolved calls that list revisions, in the order of the trace: the
    name asked for, the token sent, the page received *)
Fixpoint revisionPages (t : History) :
    list (string * option string * ListAutoScalingConfigurationsOutput) :=
  match t with
  | [] => []
  | EvListAutoScalingConfigurations name nextToken (Resolved page) :: t =>
      (name, nextToken, page) :: revisionPages t
  | _ :: t => revisionPages t
  end.

(** the revisions listed in a trace, over all pages *)
Definition listedRevisions (t : History) : list AutoScalingConfigurationSummary :=
  p ← revisionPages t; default [] (AutoScalingConfigurationSummaryList p.2).

(** the ARNs of the revisions deleted in a trace *)
Fixpoint deletedRevisions (t : History) : list (option string) :=
  match t with
  | [] => []
  | EvDeleteAutoScalingConfiguration arn (Resolved _) :: t => arn :: deletedRevisions t
  | _ :: t => deletedRevisions t
  end.

(** the resolved calls that list services: the token sent, the page received *)
Fixpoint servicePages (t : History) : list (option string * ListServicesOutput) :=
  match t with
  | [] => []
  | EvListServices nextToken (Resolved page) :: t => (nextToken, page) :: servicePages t
  | _ :: t => servicePages t
  end.

(** [drained next token pages]: the calls start with [token], every further
    call sends the continuation token of the page before it, and the last
    page carries none (an absent or empty one) *)
Fixpoint drained {Page} (next : Page → option string) (token : option string)
    (pages : list (option string * Page)) : Prop :=
  match pages with
  | [] => False
  | (sent, page) :: pages =>
      sent = token
      ∧ if truthy (next page) then drained next (next page) pages else pages = []
  end.

(** What a trace of the reclaim shows when the reclaim is done: every page
    was asked for under the name, the pages were drained, and the revisions
    deleted are the listed ones that were unused, in their order. *)
Definition Reclaimed (name : string) (t : History) : Prop :=
  only [KListAutoScalingConfigurations; KDeleteAutoScalingConfiguration] t
  ∧ Forall (λ p, p.1.1 = name) (revisionPages t)
  ∧ drained lac_NextToken None ((λ p, (p.1.2, p.2)) <$> revisionPages t)
  ∧ deletedRevisions t
    = acs_AutoScalingConfigurationArn <$> List.filter isUnused (listedRevisions t).

(** A flow reclaims first: its trace from [h] starts with the registry
    lookup, goes on with the interactions of the reclaim, and has anything
    after those only if the reclaim returned (with the trace [t1]). *)
Definition ReclaimsFirst (P : Provider) (fuel : nat) (options : EnsureAppRunnerOptions)
    (h h' : History) : Prop :=
  ∃ e t1 t2,
    h' = h ++ e :: t1 ++ t2
    ∧ kindOf e = KGetEcrRepositoryArn
    ∧ only [KListAutoScalingConfigurations; KDeleteAutoScalingConfiguration] t1
    ∧ (t2 ≠ [] →
       deleteUnusedAutoScalingConfigurations P fuel (region options)
         (autoScalingConfigurationName options) (h ++ [e])
       = (Ret tt, h ++ e :: t1)
       ∧ Reclaimed (autoScalingConfigurationName options) t1).

(** ** The update flow (4.5) *)

(** the configuration bindings of the flow's region and deployment *)
Definition configOf (options : EnsureAppRunnerOptions)
    (config : gmap string (gmap string (gmap string string))) : gmap string string :=
  default ∅ ((config !! region options) ?.
               (λ byDeployment : gmap string (gmap string string),
                  byDeployment !! deployment options)).

(** the fingerprint an update request carries in its variable bindings *)
Definition requestFingerprint (input : UpdateServiceInput) : option string :=
  us_SourceConfiguration input ?. sc_ImageRepository ?. ir_ImageConfiguration
    ?. RuntimeEnvironmentVariables ?. (λ vars : gmap string string, vars !! "LETSGO_UPDATED_AT").

(** the update requests of a trace *)
Fixpoint updateRequests (t : History) : list UpdateServiceInput :=
  match t with
  | [] => []
  | EvUpdateService input _ :: t => input :: updateRequests t
  | _ :: t => updateRequests t
  end.

(** the comparisons of the code, by category *)
Definition differsb (c : Category) (current : option AutoScalingConfiguration)
    (existingService : Service) (ecrRepositoryUrl : string) (desired : gmap string string)
    (options : EnsureAppRunnerOptions) : bool :=
  match c with
  | Autoscaling => autoScalingNeedsUpdate current options
  | Healthcheck => healthCheckNeedsUpdate existingService options
  | Instance => instanceConfigurationNeedsUpdate existingService options
  | Image => imageNeedsUpdate existingService ecrRepositoryUrl options
  | Variables =>
      configNeedsUpdate (currentConfigKeys existingService) (Object_keys desired)
        (ignoreConfigKeys options)
  end.

(** the value a run returned, if it returned *)
Definition returned {A} (o : Outcome A) : option A :=
  match o with
  | Ret a => Some a
  | _ => None
  end.

(** ** Discovery (4.5) *)

(** the services listed in a trace, over all pages *)
Definition listedServices (t : History) : list ServiceSummary :=
  p ← servicePages t; default [] (ServiceSummaryList p.2).

(** a tag list carries a nonempty value under the key *)
Definition carriesTag (tags : option (list Tag)) (key : string) : Prop :=
  ∃ tag value, tags ?. List.find (λ tag, bool_decide (Tag_Key tag = Some key)) = Some tag
               ∧ Tag_Value tag = Some value
               ∧ value ≠ "".

(** the kinds of call of the update flow that neither the delete flow nor
    the create flow makes *)
Definition updateOnlyKinds : list Kind :=
  [KUpdateService; KTagResource; KDescribeAutoScalingConfiguration].

(** ** Fuel *)

(** [m'] does what [m] does wherever [m] does not run out of fuel. *)
Definition sameUnlessDiverge {A} (m m' : M A) : Prop :=
  ∀ h, (m h).1 ≠ Diverge → m' h = m h.

(** * More of the engine's behaviour *)

(** ** Measures of a trace *)

(** the seconds slept in a trace *)
Fixpoint sleptSeconds (t : History) : Z :=
  match t with
  | [] => 0
  | EvSleep seconds :: t => seconds + sleptSeconds t
  | _ :: t => sleptSeconds t
  end.

(** the number of interactions of the kinds [ks] in a trace *)
Definition count (ks : list Kind) (t : History) : nat :=
  length (List.filter (λ e, bool_decide (kindOf e ∈ ks)) t).

Definition allKinds : list Kind :=
  [KGetEcrRepositoryArn; KGetConfig; KNow; KSetAppRunnerUrl; KSleep; KDescribeService;
   KCreateService; KCreateAutoScalingConfiguration; KListAutoScalingConfigurations;
   KDeleteAutoScalingConfiguration; KDescribeAutoScalingConfiguration; KUpdateService;
   KTagResource; KDeleteService; KListServices; KListTagsForResource].

(** the kinds that are not in [ks] *)
Definition others (ks : list Kind) : list Kind :=
  List.filter (λ k, negb (bool_decide (k ∈ ks))) allKinds.

(** [polling arn t]: the trace is a describe call for [arn], a sleep, a
    describe call for [arn], ..., and ends with a describe call *)
Fixpoint polling (arn : string) (t : History) : Prop :=
  match t with
  | [EvDescribeService a _] => a = arn
  | EvDescribeService a _ :: EvSleep _ :: t => a = arn ∧ polling arn t
  | _ => False
  end.

(** the error of a rejected promise *)
Definition rejectedWith {A} (r : Result A) : option SdkError :=
  match r with
  | Resolved _ => None
  | Rejected e => Some e
  end.

(** the error an interaction ended with, if it was rejected *)
Definition rejection (e : Event) : option SdkError :=
  match e with
  | EvGetEcrRepositoryArn _ _ r => rejectedWith r
  | EvGetConfig _ _ r => rejectedWith r
  | EvNow _ => None
  | EvSetAppRunnerUrl _ r => rejectedWith r
  | EvSleep _ => None
  | EvDescribeService _ r => rejectedWith r
  | EvCreateService _ r => rejectedWith r
  | EvCreateAutoScalingConfiguration _ r => rejectedWith r
  | EvListAutoScalingConfigurations _ _ r => rejectedWith r
  | EvDeleteAutoScalingConfiguration _ r => rejectedWith r
  | EvDescribeAutoScalingConfiguration _ r => rejectedWith r
  | EvUpdateService _ r => rejectedWith r
  | EvTagResource _ _ r => rejectedWith r
  | EvDeleteService _ r => rejectedWith r
  | EvListServices _ r => rejectedWith r
  | EvListTagsForResource _ r => rejectedWith r
  end.

(** the provider reported that the resource does not exist *)
Definition notFound {A} (r : Result A) : Prop :=
  ∃ e, r = Rejected e ∧ err_name e = "ResourceNotFoundException".

(** What the last poll of [waitForAppRunnerService] was answered, by the
    outcome of the wait. *)
Definition waitEnded (isDeleting : bool) (o : Outcome (option Service))
    (r : Result (option Service)) : Prop :=
  match o with
  | Ret (Some service) =>
      r = Resolved (Some service)
      ∧ Status service = Some (if isDeleting then "OPERATION_IN_PROGRESS" else "RUNNING")
  | Ret None =>
      if isDeleting
      then notFound r ∨ ∃ service, r = Resolved service ∧ service ?. Status = Some "DELETED"
      else ∃ service, r = Resolved (Some service)
                      ∧ Status service = Some "OPERATION_IN_PROGRESS"
  | Exit f =>
      ∃ service, r = Resolved service
                 ∧ service ?. Status ≠ Some "OPERATION_IN_PROGRESS"
                 ∧ service ?. Status ≠ Some (if isDeleting then "DELETED" else "RUNNING")
                 ∧ f = (if isDeleting then UnexpectedStatusDeleting (service ?. Status)
                        else UnexpectedStatusCreating (service ?. Status))
  | Throw e =>
      r = Rejected e ∧ (isDeleting = true → err_name e ≠ "ResourceNotFoundException")
  | Diverge => False
  end.

(** ** Properties of runs *)

(** [atMost ks n m]: whatever the history, a run of [m] only adds
    interactions, at most [n] of them of the kinds [ks] *)
Definition atMost {A} (ks : list Kind) (n : nat) (m : M A) : Prop :=
  ∀ h, ∃ t, (m h).2 = h ++ t ∧ (count ks t ≤ n)%nat.

(** [failsFast m]: when a run of [m] throws, the call it made last was
    rejected, and what is thrown is the error of that rejection *)
Definition failsFast {A} (m : M A) : Prop :=
  ∀ h e h', m h = (Throw e, h') → ∃ ev, last h' = Some ev ∧ rejection ev = Some e.

(** ** The flows *)

(** the URL the create flow hands to the caller:
    [Service?.ServiceUrl ? `https://${Service?.ServiceUrl}` : ""] *)
Definition publicUrl (result : option Service) : string :=
  if truthy (result ?. ServiceUrl) then "https://" +:+ orEmpty (result ?. ServiceUrl) else "".

(** a trace of polls for [arn] whose last one observed [service] in RUNNING *)
Definition reachedRunning (arn : string) (service : Service) (polls : History) : Prop :=
  polling arn polls
  ∧ last polls = Some (EvDescribeService arn (Resolved (Some service)))
  ∧ Status service = Some "RUNNING".

(** ** The dispatch of [ensureAppRunner] *)

(** What [ensureAppRunner] goes on with after discovery, by the services
    discovered. *)
Definition dispatch (D : Defaults) (P : Provider) (fuel : nat)
    (options : EnsureAppRunnerOptions) (services : list ServiceSummary) : M unit :=
  match services with
  | [] => createAppRunnerService D P fuel options
  | [summary] =>
      if bool_decide (ss_Status summary = Some "OPERATION_IN_PROGRESS") then exit Busy
      else if bool_decide (ss_Status summary = Some "CREATE_FAILED") then
        _ ← deleteAppRunnerService P (region options) (orEmpty (ss_ServiceArn summary));
        createAppRunnerService D P fuel options
      else
        existingService ← describeService P (region options) (ss_ServiceArn summary);
        match existingService with
        | Some existingService =>
            if bool_decide (ss_Status summary = Some "DELETED")
            then createAppRunnerService D P fuel options
            else updateAppRunnerService D P fuel options existingService
        | None => createAppRunnerService D P fuel options
        end
  | _ => exit (Ambiguous services)
  end.

(** a run ended with the configuration lookup of an update flow, or with a
    poll that observed RUNNING *)
Definition convergedAt (h' : History) : Prop :=
  (∃ region deployment config, last h' = Some (EvGetConfig region deployment (Resolved config)))
  ∨ ∃ arn service, last h' = Some (EvDescribeService arn (Resolved (Some service)))
                   ∧ Status service = Some "RUNNING".

(** what the delete flow makes of the outcome of its wait *)
Definition deleteOutcome (waited : Outcome (option Service)) : Outcome unit :=
  match waited with
  | Ret None => Ret tt
  | Ret (Some _) => Exit DeleteTimeout
  | Exit f => Exit f
  | Throw e => Throw e
  | Diverge => Diverge
  end.

(** ** Discovery *)

(** the tags read in a trace: the ARN asked for, the tags received *)
Fixpoint tagReads (t : History) : list (string * option (list Tag)) :=
  match t with
  | [] => []
  | EvListTagsForResource arn (Resolved tags) :: t => (arn, tags) :: tagReads t
  | _ :: t => tagReads t
  end.

(** the services kept for their tags, [tags] being read in the order of
    [services] *)
Definition kept (D : Defaults) (deployment component : option string)
    (services : list ServiceSummary) (tags : list (option (list Tag))) : list ServiceSummary :=
  (List.filter (λ st, isLetsGoService D deployment component st.2) (zip services tags)).*1.

(** ** The reclaim, whatever its outcome *)

(** the ARNs of the revisions a trace asks to delete, accepted or not *)
Fixpoint deleteRequests (t : History) : list (option string) :=
  match t with
  | [] => []
  | EvDeleteAutoScalingConfiguration arn _ :: t => arn :: deleteRequests t
  | _ :: t => deleteRequests t
  end.

(** ** The URL of a created service *)

(** What a trace shows of the creation of a service: no create request and
    no URL handed over; or a create request that was rejected, as the last
    interaction; or a create request that was accepted, the URL of its answer
    handed over at once, and only polls after that. *)
Definition handsOverUrl (t : History) : Prop :=
  count [KCreateService; KSetAppRunnerUrl] t = 0%nat
  ∨ (∃ t1 input e,
       t = t1 ++ [EvCreateService input (Rejected e)]
       ∧ count [KCreateService; KSetAppRunnerUrl] t1 = 0%nat)
  ∨ (∃ t1 input result r polls,
       t = t1 ++ EvCreateService input (Resolved result)
                 :: EvSetAppRunnerUrl (publicUrl result) r :: polls
       ∧ count [KCreateService; KSetAppRunnerUrl] t1 = 0%nat
       ∧ only [KDescribeService; KSleep] polls).

Definition creates {A} (m : M A) : Prop :=
  ∀ h, ∃ t, (m h).2 = h ++ t ∧ handsOverUrl t.

(** ** Runs that do not end *)

(** a list call answered with a page that carries a continuation token *)
Definition continues (e : Event) : bool :=
  match e with
  | EvListServices _ (Resolved page) => truthy (ls_NextToken page)
  | EvListAutoScalingConfigurations _ _ (Resolved page) => truthy (lac_NextToken page)
  | _ => false
  end.

Definition continuations (t : History) : nat := length (List.filter continues t).

(** [endless n m]: a run of [m] that does not end has been answered at least
    [n] pages with a continuation token *)
Definition endless {A} (n : nat) (m : M A) : Prop :=
  ∀ h h', m h = (Diverge, h') → ∃ t, h' = h ++ t ∧ (n ≤ continuations t)%nat.

(** * Concrete providers and runs *)

Definition unsupported : SdkError :=
  {| err_name := "UnsupportedOperation"; err_message := "not part of this scenario" |}.

(** A provider that rejects every call; the scenarios below override the
    calls they need. *)
Definition rejecting : Provider :=
  {| getEcrRepositoryArn := λ _ _ _, Rejected unsupported;
     getConfig := λ _ _ _, Rejected unsupported;
     Date_toISOString := λ _, "2024-01-01T00:00:00.000Z";
     setAppRunnerUrl := λ _ _, Rejected unsupported;
     DescribeServiceCommand := λ _ _ _, Rejected unsupported;
     CreateServiceCommand := λ _ _ _, Rejected unsupported;
     CreateAutoScalingConfigurationCommand := λ _ _ _, Rejected unsupported;
     ListAutoScalingConfigurationsCommand := λ _ _ _ _, Rejected unsupported;
     DeleteAutoScalingConfigurationCommand := λ _ _ _, Rejected unsupported;
     DescribeAutoScalingConfigurationCommand := λ _ _ _, Rejected unsupported;
     UpdateServiceCommand := λ _ _ _, Rejected unsupported;
     TagResourceCommand := λ _ _ _ _, Rejected unsupported;
     DeleteServiceCommand := λ _ _ _, Rejected unsupported;
     ListServicesCommand := λ _ _ _, Rejected unsupported;
     ListTagsForResourceCommand := λ _ _ _, Rejected unsupported |}.

Definition serviceWithStatus (status : string) : Service :=
  {| ServiceArn := Some "arn:aws:apprunner:web";
     ServiceUrl := Some "web.example.awsapprunner.com";
     Status := Some status;
     svc_SourceConfiguration := None;
     svc_InstanceConfiguration := None;
     svc_HealthCheckConfiguration := None;
     svc_AutoScalingConfigurationArn := None |}.

(** The service stays in OPERATION_IN_PROGRESS at every poll. *)
Definition busyProvider : Provider :=
  {| getEcrRepositoryArn := getEcrRepositoryArn rejecting;
     getConfig := getConfig rejecting;
     Date_toISOString := Date_toISOString rejecting;
     setAppRunnerUrl := setAppRunnerUrl rejecting;
     DescribeServiceCommand := λ _ _ _, Resolved (Some (serviceWithStatus "OPERATION_IN_PROGRESS"));
     CreateServiceCommand := CreateServiceCommand rejecting;
     CreateAutoScalingConfigurationCommand := CreateAutoScalingConfigurationCommand rejecting;
     ListAutoScalingConfigurationsCommand := ListAutoScalingConfigurationsCommand rejecting;
     DeleteAutoScalingConfigurationCommand := DeleteAutoScalingConfigurationCommand rejecting;
     DescribeAutoScalingConfigurationCommand := DescribeAutoScalingConfigurationCommand rejecting;
     UpdateServiceCommand := UpdateServiceCommand rejecting;
     TagResourceCommand := TagResourceCommand rejecting;
     DeleteServiceCommand := DeleteServiceCommand rejecting;
     ListServicesCommand := ListServicesCommand rejecting;
     ListTagsForResourceCommand := ListTagsForResourceCommand rejecting |}.

(** The service is in OPERATION_IN_PROGRESS at the first two polls and
    RUNNING from the third on. *)
Definition settlingProvider : Provider :=
  {| getEcrRepositoryArn := getEcrRepositoryArn rejecting;
     getConfig := getConfig rejecting;
     Date_toISOString := Date_toISOString rejecting;
     setAppRunnerUrl := setAppRunnerUrl rejecting;
     DescribeServiceCommand := λ h _ _,
       Resolved (Some (serviceWithStatus
                         (if (length h <? 4)%nat then "OPERATION_IN_PROGRESS" else "RUNNING")));
     CreateServiceCommand := CreateServiceCommand rejecting;
     CreateAutoScalingConfigurationCommand := CreateAutoScalingConfigurationCommand rejecting;
     ListAutoScalingConfigurationsCommand := ListAutoScalingConfigurationsCommand rejecting;
     DeleteAutoScalingConfigurationCommand := DeleteAutoScalingConfigurationCommand rejecting;
     DescribeAutoScalingConfigurationCommand := DescribeAutoScalingConfigurationCommand rejecting;
     UpdateServiceCommand := UpdateServiceCommand rejecting;
     TagResourceCommand := TagResourceCommand rejecting;
     DeleteServiceCommand := DeleteServiceCommand rejecting;
     ListServicesCommand := ListServicesCommand rejecting;
     ListTagsForResourceCommand := ListTagsForResourceCommand rejecting |}.

(** ** The options and the service of the scenarios *)

(** the timestamp of an earlier run *)
Definition earlier : string := "2023-12-31T00:00:00.000Z".

Definition defaults : Defaults :=
  {| TagKeys_LetsGoDeployment := "LetsGoDeployment";
     TagKeys_LetsGoComponent := "LetsGoComponent";
     getTags := λ region deployment extra,
       {| Tag_Key := Some "LetsGoRegion"; Tag_Value := Some region |}
       :: {| Tag_Key := Some "LetsGoDeployment"; Tag_Value := Some deployment |}
       :: ((λ kv : string * string, {| Tag_Key := Some kv.1; Tag_Value := Some kv.2 |})
             <$> extra) |}.

Definition webOptions : EnsureAppRunnerOptions :=
  {| region := "eu-west-1";
     deployment := "main";
     component := "web";
     ecrRepositoryName := "letsgo-web";
     imageTag := "v2";
     autoScalingConfigurationName := "letsgo-web";
     autoScaling := {| minSize := 1; maxSize := 5; maxConcurrency := 100 |};
     healthCheck := {| path := "/api/health"; interval := 5; timeout := 2;
                       healthyThreshold := 1; unhealthyThreshold := 5 |};
     appRunnerServiceName := "letsgo-web";
     appRunnerInstanceRoleArn := "arn:aws:iam:role/letsgo";
     appRunnerCpu := Some "1024";
     appRunnerMemory := Some "2048";
     ignoreConfigKeys := ["LEGACY_KEY"] |}.

(** the live autoscaling revision: what [webOptions] asks for *)
Definition liveRevision : AutoScalingConfiguration :=
  {| ac_AutoScalingConfigurationArn := Some "arn:aws:apprunner:autoscaling/letsgo-web/1";
     ac_MaxConcurrency := Some 100;
     ac_MinSize := Some 1;
     ac_MaxSize := Some 5 |}.

(** A running service that has everything [webOptions] asks for when the
    registry is "registry.example" and the image tag is [tag]; its secret
    bindings are the keys A and LEGACY_KEY, its fingerprint is [updatedAt]. *)
Definition webService (tag updatedAt : string) : Service :=
  {| ServiceArn := Some "arn:aws:apprunner:web";
     ServiceUrl := Some "web.example.awsapprunner.com";
     Status := Some "RUNNING";
     svc_SourceConfiguration := Some
       {| sc_ImageRepository := Some
            {| ImageIdentifier := Some ("registry.example:" +:+ tag);
               ImageRepositoryType := Some "ECR";
               ir_ImageConfiguration := Some
                 {| RuntimeEnvironmentSecrets :=
                      Some {[ "A" := "arn:aws:ssm:parameter/a"; "LEGACY_KEY" := "arn:aws:ssm:parameter/old" ]};
                    RuntimeEnvironmentVariables :=
                      Some {[ "LETSGO_IMAGE_TAG" := tag;
                              "LETSGO_DEPLOYMENT" := "main";
                              "LETSGO_UPDATED_AT" := updatedAt;
                              "HOSTNAME" := "0.0.0.0" ]} |} |};
          AutoDeploymentsEnabled := Some false;
          AccessRoleArn := Some "arn:aws:iam:role/letsgo" |};
     svc_InstanceConfiguration := Some
       {| ic_InstanceRoleArn := Some "arn:aws:iam:role/letsgo";
          ic_Cpu := Some "1024";
          ic_Memory := Some "2048" |};
     svc_HealthCheckConfiguration := Some
       {| hc_Protocol := Some "HTTP";
          hc_Path := Some "/api/health";
          hc_Interval := Some 5;
          hc_Timeout := Some 2;
          hc_HealthyThreshold := Some 1;
          hc_UnhealthyThreshold := Some 5 |};
     svc_AutoScalingConfigurationArn := Some "arn:aws:apprunner:autoscaling/letsgo-web/1" |}.

(** ** A provider for the flows *)

Definition revision (n : string) (hasAssociatedService : bool) (status : string) :
    AutoScalingConfigurationSummary :=
  {| acs_AutoScalingConfigurationArn := Some ("arn:aws:apprunner:autoscaling/letsgo-web/" +:+ n);
     acs_Status := Some status;
     acs_HasAssociatedService := Some hasAssociatedService |}.

(** two pages of revisions: revision 1 is live, 2 and 4 are unused, 3 is
    inactive *)
Definition revisionsPage (nextToken : option string) : ListAutoScalingConfigurationsOutput :=
  if truthy nextToken
  then {| AutoScalingConfigurationSummaryList :=
            Some [revision "3" false "inactive"; revision "4" false "active"];
          lac_NextToken := None |}
  else {| AutoScalingConfigurationSummaryList :=
            Some [revision "1" true "active"; revision "2" false "active"];
          lac_NextToken := Some "page-2" |}.

Definition storedConfig : gmap string (gmap string (gmap string string)) :=
  {[ "eu-west-1" := {[ "main" := {[ "A" := "arn:aws:ssm:parameter/a-rotated" ]} ]} ]}.

(** A provider that accepts every call of the update flow.  Its registry is
    "registry.example", its live revision is [liveRevision], a new revision
    comes back as [created], and the service it describes is
    [webService "v2"] with the fingerprint of an earlier run: the image of
    [webOptions] is live, the variable bindings were not touched. *)
Definition webProvider (created : option AutoScalingConfiguration) : Provider :=
  {| getEcrRepositoryArn := λ _ _ _, Resolved "registry.example";
     getConfig := λ _ _ _, Resolved storedConfig;
     Date_toISOString := λ _, "2024-01-01T00:00:00.000Z";
     setAppRunnerUrl := λ _ _, Resolved tt;
     DescribeServiceCommand := λ _ _ _,
       Resolved (Some (webService "v2" earlier));
     CreateServiceCommand := λ _ _ _,
       Resolved (Some (webService "v2" "2024-01-01T00:00:00.000Z"));
     CreateAutoScalingConfigurationCommand := λ _ _ _, Resolved created;
     ListAutoScalingConfigurationsCommand := λ _ _ _ nextToken,
       Resolved (revisionsPage nextToken);
     DeleteAutoScalingConfigurationCommand := λ _ _ _, Resolved tt;
     DescribeAutoScalingConfigurationCommand := λ _ _ _, Resolved (Some liveRevision);
     UpdateServiceCommand := λ _ _ _, Resolved tt;
     TagResourceCommand := λ _ _ _ _, Resolved tt;
     DeleteServiceCommand := λ _ _ _, Resolved tt;
     ListServicesCommand := ListServicesCommand rejecting;
     ListTagsForResourceCommand := ListTagsForResourceCommand rejecting |}.

Definition newRevision : AutoScalingConfiguration :=
  {| ac_AutoScalingConfigurationArn := Some "arn:aws:apprunner:autoscaling/letsgo-web/5";
     ac_MaxConcurrency := Some 100;
     ac_MinSize := Some 1;
     ac_MaxSize := Some 10 |}.

(** [webOptions] with the upper bound of the autoscaling raised to 10 *)
Definition scaledOptions : EnsureAppRunnerOptions :=
  {| region := region webOptions;
     deployment := deployment webOptions;
     component := component webOptions;
     ecrRepositoryName := ecrRepositoryName webOptions;
     imageTag := imageTag webOptions;
     autoScalingConfigurationName := autoScalingConfigurationName webOptions;
     autoScaling := {| minSize := 1; maxSize := 10; maxConcurrency := 100 |};
     healthCheck := healthCheck webOptions;
     appRunnerServiceName := appRunnerServiceName webOptions;
     appRunnerInstanceRoleArn := appRunnerInstanceRoleArn webOptions;
     appRunnerCpu := appRunnerCpu webOptions;
     appRunnerMemory := appRunnerMemory webOptions;
     ignoreConfigKeys := ignoreConfigKeys webOptions |}.

(** what the update flow decides for [scaledOptions] when the new revision's
    ARN comes back *)
Definition scaledDecisions : UpdateDecisions :=
  decisions scaledOptions (webService "v2" earlier) "registry.example"
    (ac_AutoScalingConfigurationArn newRevision) (configOf scaledOptions storedConfig).

(** what the update flow decides for [webOptions] when the service has
    everything they ask for *)
Definition convergedDecisions : UpdateDecisions :=
  decisions webOptions (webService "v2" earlier) "registry.example" None
    (configOf webOptions storedConfig).

(** ** Providers for discovery *)

Definition summary (name status : string) : ServiceSummary :=
  {| ss_ServiceArn := Some ("arn:aws:apprunner:" +:+ name);
     ss_ServiceUrl := Some (name +:+ ".example.awsapprunner.com");
     ss_Status := Some status |}.

Definition tag (key value : string) : Tag :=
  {| Tag_Key := Some key; Tag_Value := Some value |}.

(** [base] with the two calls of discovery answered from [pages] and [tags] *)
Definition withDiscovery (base : Provider) (pages : option string → ListServicesOutput)
    (tags : string → option (list Tag)) : Provider :=
  {| getEcrRepositoryArn := getEcrRepositoryArn base;
     getConfig := getConfig base;
     Date_toISOString := Date_toISOString base;
     setAppRunnerUrl := setAppRunnerUrl base;
     DescribeServiceCommand := DescribeServiceCommand base;
     CreateServiceCommand := CreateServiceCommand base;
     CreateAutoScalingConfigurationCommand := CreateAutoScalingConfigurationCommand base;
     ListAutoScalingConfigurationsCommand := ListAutoScalingConfigurationsCommand base;
     DeleteAutoScalingConfigurationCommand := DeleteAutoScalingConfigurationCommand base;
     DescribeAutoScalingConfigurationCommand := DescribeAutoScalingConfigurationCommand base;
     UpdateServiceCommand := UpdateServiceCommand base;
     TagResourceCommand := TagResourceCommand base;
     DeleteServiceCommand := DeleteServiceCommand base;
     ListServicesCommand := λ _ _ nextToken, Resolved (pages nextToken);
     ListTagsForResourceCommand := λ _ _ arn, Resolved (tags arn) |}.

(** Two pages of services: "web" and "web-old" carry both tags of the
    deployment "main" and the component "web", "db" carries no component
    tag. *)
Definition twinsProvider : Provider :=
  withDiscovery rejecting
    (λ nextToken,
       if truthy nextToken
       then {| ServiceSummaryList := Some [summary "web-old" "RUNNING"];
               ls_NextToken := None |}
       else {| ServiceSummaryList := Some [summary "web" "RUNNING"; summary "db" "RUNNING"];
               ls_NextToken := Some "page-2" |})
    (λ arn,
       if String.eqb arn "arn:aws:apprunner:db"
       then Some [tag "LetsGoDeployment" "main"]
       else Some [tag "LetsGoDeployment" "main"; tag "LetsGoComponent" "web"]).

(** One service, left behind in CREATE_FAILED.  Deleting it is accepted;
    describing it reports not-found until a service is created again, and
    RUNNING afterwards. *)
Definition failedProvider : Provider :=
  withDiscovery
    {| getEcrRepositoryArn := getEcrRepositoryArn (webProvider (Some newRevision));
       getConfig := getConfig (webProvider (Some newRevision));
       Date_toISOString := Date_toISOString (webProvider (Some newRevision));
       setAppRunnerUrl := setAppRunnerUrl (webProvider (Some newRevision));
       DescribeServiceCommand := λ h _ _,
         if existsb (λ e, bool_decide (kindOf e = KCreateService)) h
         then Resolved (Some (webService "v2" "2024-01-01T00:00:00.000Z"))
         else Rejected {| err_name := "ResourceNotFoundException";
                          err_message := "service not found" |};
       CreateServiceCommand := CreateServiceCommand (webProvider (Some newRevision));
       CreateAutoScalingConfigurationCommand :=
         CreateAutoScalingConfigurationCommand (webProvider (Some newRevision));
       ListAutoScalingConfigurationsCommand :=
         ListAutoScalingConfigurationsCommand (webProvider (Some newRevision));
       DeleteAutoScalingConfigurationCommand :=
         DeleteAutoScalingConfigurationCommand (webProvider (Some newRevision));
       DescribeAutoScalingConfigurationCommand :=
         DescribeAutoScalingConfigurationCommand (webProvider (Some newRevision));
       UpdateServiceCommand := UpdateServiceCommand (webProvider (Some newRevision));
       TagResourceCommand := TagResourceCommand (webProvider (Some newRevision));
       DeleteServiceCommand := DeleteServiceCommand (webProvider (Some newRevision));
       ListServicesCommand := ListServicesCommand rejecting;
       ListTagsForResourceCommand := ListTagsForResourceCommand rejecting |}
    (λ _, {| ServiceSummaryList := Some [summary "web" "CREATE_FAILED"];
             ls_NextToken := None |})
    (λ _, Some [tag "LetsGoDeployment" "main"; tag "LetsGoComponent" "web"]).

(** * More concrete providers *)

(** [webProvider], describing the service with the fingerprint of the
    present run: the update was applied. *)
Definition appliedProvider : Provider :=
  {| getEcrRepositoryArn := getEcrRepositoryArn (webProvider (Some newRevision));
     getConfig := getConfig (webProvider (Some newRevision));
     Date_toISOString := Date_toISOString (webProvider (Some newRevision));
     setAppRunnerUrl := setAppRunnerUrl (webProvider (Some newRevision));
     DescribeServiceCommand := λ _ _ _,
       Resolved (Some (webService "v2" "2024-01-01T00:00:00.000Z"));
     CreateServiceCommand := CreateServiceCommand (webProvider (Some newRevision));
     CreateAutoScalingConfigurationCommand :=
       CreateAutoScalingConfigurationCommand (webProvider (Some newRevision));
     ListAutoScalingConfigurationsCommand :=
       ListAutoScalingConfigurationsCommand (webProvider (Some newRevision));
     DeleteAutoScalingConfigurationCommand :=
       DeleteAutoScalingConfigurationCommand (webProvider (Some newRevision));
     DescribeAutoScalingConfigurationCommand :=
       DescribeAutoScalingConfigurationCommand (webProvider (Some newRevision));
     UpdateServiceCommand := UpdateServiceCommand (webProvider (Some newRevision));
     TagResourceCommand := TagResourceCommand (webProvider (Some newRevision));
     DeleteServiceCommand := DeleteServiceCommand (webProvider (Some newRevision));
     ListServicesCommand := ListServicesCommand rejecting;
     ListTagsForResourceCommand := ListTagsForResourceCommand rejecting |}.

(** [base], discovering the one service "web" in the given status *)
Definition discovering (base : Provider) (status : string) : Provider :=
  withDiscovery base
    (λ _, {| ServiceSummaryList := Some [summary "web" status]; ls_NextToken := None |})
    (λ _, Some [tag "LetsGoDeployment" "main"; tag "LetsGoComponent" "web"]).

(** A provider whose listing of services never ends: every page carries a
    continuation token. *)
Definition endlessProvider : Provider :=
  withDiscovery rejecting
    (λ _, {| ServiceSummaryList := Some [summary "web" "RUNNING"];
             ls_NextToken := Some "more" |})
    (λ _, Some [tag "LetsGoDeployment" "main"; tag "LetsGoComponent" "web"]).

(** * Reasoning about runs *)

Lemma run_bind {A B} (m : M A) (k : A → M B) (h : History) :
  (m ≫= k) h =
  match m h with
  | (Ret a, h1) => k a h1
  | (Exit f, h1) => (Exit f, h1)
  | (Throw e, h1) => (Throw e, h1)
  | (Diverge, h1) => (Diverge, h1)
  end.
Proof. reflexivity. Qed.

Lemma run_ret {A} (a : A) (h : History) : (mret a : M A) h = (Ret a, h).
Proof. reflexivity. Qed.

Lemma run_settle {A} (call : History → Result A) (ev : Result A → Event) (h : History) :
  settle call ev h = (Ret (call h), h ++ [ev (call h)]).
Proof. reflexivity. Qed.

Lemma run_await {A} (call : History → Result A) (ev : Result A → Event) (h : History) :
  await call ev h =
  match call h with
  | Resolved a => (Ret a, h ++ [ev (call h)])
  | Rejected e => (Throw e, h ++ [ev (call h)])
  end.
Proof. unfold await. rewrite run_bind, run_settle. by destruct (call h). Qed.

Lemma only_nil ks : only ks [].
Proof. constructor. Qed.

Lemma only_app ks t1 t2 : only ks t1 → only ks t2 → only ks (t1 ++ t2).
Proof. apply Forall_app_2. Qed.

Lemma only_mono ks ks' t : ks ⊆ ks' → only ks t → only ks' t.
Proof.
  intros Hsub Ht. eapply Forall_impl; [exact Ht |]. intros e He. simpl in *.
  apply bool_decide_eq_true_1 in He. apply bool_decide_eq_true_2. by apply Hsub.
Qed.

Lemma only_elem_of ks t e : only ks t → e ∈ t → kindOf e ∈ ks.
Proof.
  intros Ht He. unfold only in Ht. rewrite Forall_forall in Ht.
  eapply bool_decide_eq_true_1. by apply Ht.
Qed.

Lemma emits_mono {A} ks ks' (m : M A) : ks ⊆ ks' → emits ks m → emits ks' m.
Proof.
  intros Hsub Hm h. destruct (Hm h) as (t & Ht & Hk).
  exists t. split; [done | by eapply only_mono].
Qed.

Lemma emits_ret {A} ks (a : A) : emits ks (mret a).
Proof. intros h. exists []. rewrite app_nil_r. split; [done | apply only_nil]. Qed.

Lemma emits_exit {A} ks f : emits ks (exit f : M A).
Proof. intros h. exists []. rewrite app_nil_r. split; [done | apply only_nil]. Qed.

Lemma emits_throw {A} ks e : emits ks (throw e : M A).
Proof. intros h. exists []. rewrite app_nil_r. split; [done | apply only_nil]. Qed.

Lemma emits_diverge {A} ks : emits ks (diverge : M A).
Proof. intros h. exists []. rewrite app_nil_r. split; [done | apply only_nil]. Qed.

Lemma emits_bind {A B} ks (m : M A) (k : A → M B) :
  emits ks m → (∀ a, emits ks (k a)) → emits ks (m ≫= k).
Proof.
  intros Hm Hk h. rewrite run_bind.
  destruct (Hm h) as (t & Ht & Hkt).
  destruct (m h) as [[a|f|e|] h1]; simpl in Ht; subst h1; eauto.
  destruct (Hk a (h ++ t)) as (t' & Ht' & Hkt').
  exists (t ++ t'). rewrite Ht', app_assoc. split; [done | by apply only_app].
Qed.

Lemma emits_settle {A} ks (call : History → Result A) (ev : Result A → Event) :
  (∀ r, kindOf (ev r) ∈ ks) → emits ks (settle call ev).
Proof.
  intros Hev h. exists [ev (call h)]. split; [done |].
  constructor; [| constructor]. by apply bool_decide_eq_true_2.
Qed.

Lemma emits_await {A} ks (call : History → Result A) (ev : Result A → Event) :
  (∀ r, kindOf (ev r) ∈ ks) → emits ks (await call ev).
Proof.
  intros Hev. apply emits_bind; [by apply emits_settle |].
  intros [a|e]; [apply emits_ret | apply emits_throw].
Qed.

Lemma emits_sleep ks seconds : KSleep ∈ ks → emits ks (sleep seconds).
Proof.
  intros Hk h. exists [EvSleep seconds]. split; [done |].
  constructor; [| constructor]. by apply bool_decide_eq_true_2.
Qed.

Lemma emits_toISOString ks P : KNow ∈ ks → emits ks (toISOString P).
Proof.
  intros Hk h. exists [EvNow (Date_toISOString P h)]. split; [done |].
  constructor; [| constructor]. by apply bool_decide_eq_true_2.
Qed.

Create HintDb emits.
#[global] Hint Resolve emits_ret emits_exit emits_throw emits_diverge : emits.

(** Membership of a kind in a list of kinds, by computation. *)
Ltac kind_in :=
  intros; simpl;
  match goal with
  | |- ?k ∈ ?ks => apply (bool_decide_eq_true_1 (k ∈ ks)); vm_compute; reflexivity
  end.

(** Inclusion between two lists of kinds. *)
Ltac kinds_sub :=
  let k := fresh "k" in
  let Hk := fresh "Hk" in
  intros k Hk;
  match type of Hk with
  | ?Q => apply (bool_decide_eq_true_2 Q) in Hk
  end;
  match goal with
  | |- ?k ∈ ?ks => apply (bool_decide_eq_true_1 (k ∈ ks))
  end;
  destruct k; vm_compute in Hk |- *; congruence.

(** Walk through the binds and branches of a run. *)
Ltac emits_step :=
  match goal with
  | |- emits _ (mbind _ _) => apply emits_bind; [| intros ?]
  | |- emits _ (settle _ _) => apply emits_settle; kind_in
  | |- emits _ (await _ _) => apply emits_await; kind_in
  | |- emits _ (sleep _) => apply emits_sleep; kind_in
  | |- emits _ (toISOString _) => apply emits_toISOString; kind_in
  | |- emits _ (if ?b then _ else _) => destruct b
  | |- emits _ (match ?x with _ => _ end) => destruct x
  | |- emits _ _ => solve [eauto with emits]
  end.

(** Use a lemma that speaks of fewer kinds. *)
Ltac emits_by lem := eapply emits_mono; [| apply lem]; kinds_sub.

(** ** What each function of the program interacts with *)

Section Emits.

Variable D : Defaults.
Variable P : Provider.

Lemma describeService_emits region serviceArn :
  emits [KDescribeService] (describeService P region serviceArn).
Proof. unfold describeService. repeat emits_step. Qed.

Lemma deleteUnusedOfPage_emits region page :
  emits [KDeleteAutoScalingConfiguration] (deleteUnusedOfPage P region page).
Proof. induction page as [|revision rest IH]; simpl; repeat emits_step. Qed.

Lemma deleteUnusedPages_emits fuel region name nextToken :
  emits [KListAutoScalingConfigurations; KDeleteAutoScalingConfiguration]
    (deleteUnusedPages P fuel region name nextToken).
Proof.
  revert nextToken. induction fuel as [|fuel IH]; intros nextToken; simpl; repeat emits_step.
  emits_by deleteUnusedOfPage_emits.
Qed.

Lemma waitLoop_emits fuel region serviceArn maxWait isDeleting clock delay :
  emits [KDescribeService; KSleep]
    (waitLoop P fuel region serviceArn maxWait isDeleting clock delay).
Proof.
  revert clock delay. induction fuel as [|fuel IH]; intros clock delay; simpl;
    repeat emits_step.
Qed.

Lemma waitForAppRunnerService_emits region serviceArn maxWait isDeleting :
  emits [KDescribeService; KSleep]
    (waitForAppRunnerService P region serviceArn maxWait isDeleting).
Proof. apply waitLoop_emits. Qed.

Lemma awaitConfig_emits options : emits [KGetConfig] (awaitConfig P options).
Proof. unfold awaitConfig. repeat emits_step. Qed.

Lemma decideUpdate_emits fuel options existingService :
  emits decideKinds (decideUpdate D P fuel options existingService).
Proof.
  unfold decideUpdate, decideKinds, deleteUnusedAutoScalingConfigurations.
  emits_step; [emits_step |].
  emits_step; [emits_by deleteUnusedPages_emits |].
  emits_step; [emits_step |].
  emits_step; [repeat emits_step |].
  emits_step; [emits_by awaitConfig_emits | emits_step].
Qed.

Lemma applyUpdate_emits options existingService d :
  emits applyKinds (applyUpdate D P options existingService d).
Proof.
  unfold applyUpdate, applyKinds.
  emits_step; [| emits_step].
  emits_step; [emits_step |].
  emits_step; [emits_step |].
  emits_step; [emits_step |].
  emits_step; [emits_by waitForAppRunnerService_emits |].
  repeat emits_step.
Qed.

Lemma createAppRunnerService_emits fuel options :
  emits createKinds (createAppRunnerService D P fuel options).
Proof.
  unfold createAppRunnerService, createKinds, deleteUnusedAutoScalingConfigurations.
  emits_step; [emits_step |].
  emits_step; [emits_by deleteUnusedPages_emits |].
  emits_step; [emits_step |].
  emits_step; [emits_by awaitConfig_emits |].
  emits_step; [emits_step |].
  emits_step; [emits_step |].
  emits_step; [emits_step |].
  emits_step; [emits_by waitForAppRunnerService_emits |].
  repeat emits_step.
Qed.

Lemma deleteAppRunnerService_emits region serviceArn :
  emits deleteKinds (deleteAppRunnerService P region serviceArn).
Proof.
  unfold deleteAppRunnerService, deleteKinds.
  emits_step; [emits_step |].
  emits_step; [| repeat emits_step].
  emits_step; [emits_by waitForAppRunnerService_emits |].
  repeat emits_step.
Qed.

Lemma listLetsGoOfPage_emits region deployment component page services :
  emits listKinds (listLetsGoOfPage D P region deployment component page services).
Proof.
  revert services. induction page as [|service rest IH]; intros services; simpl;
    unfold listKinds in *; repeat emits_step.
Qed.

Lemma listLetsGoPages_emits fuel region deployment component nextToken services :
  emits listKinds (listLetsGoPages D P fuel region deployment component nextToken services).
Proof.
  revert nextToken services.
  induction fuel as [|fuel IH]; intros nextToken services; simpl; [apply emits_diverge |].
  emits_step; [unfold listKinds; emits_step |].
  emits_step; [apply listLetsGoOfPage_emits |].
  emits_step; [apply emits_ret | apply IH].
Qed.

End Emits.

(** ** The polling waiter *)

Lemma strictNe_false `{EqDecision A} (a b : A) : strictNe a b = false ↔ a = b.
Proof.
  unfold strictNe. rewrite negb_false_iff. apply bool_decide_eq_true.
Qed.

Lemma strictNe_true `{EqDecision A} (a b : A) : strictNe a b = true ↔ a ≠ b.
Proof.
  unfold strictNe. rewrite negb_true_iff. apply bool_decide_eq_false.
Qed.

Section Waiter.

Variable P : Provider.
Variables region serviceArn : string.
Variable maxWait : Z.
Variable isDeleting : bool.

(** One turn of the loop. *)
Lemma waitLoop_S fuel clock delay h :
  waitLoop P (S fuel) region serviceArn maxWait isDeleting clock delay h =
  let r := DescribeServiceCommand P h region serviceArn in
  let h1 := h ++ [EvDescribeService serviceArn r] in
  match verdict isDeleting r with
  | Stop o => (o, h1)
  | InProgress service =>
      if clock >=? maxWait then (Ret (if isDeleting then service else None), h1)
      else waitLoop P fuel region serviceArn maxWait isDeleting
             (clock + nextDelay clock delay) (nextDelay clock delay)
             (h1 ++ [EvSleep (nextDelay clock delay)])
  end.
Proof.
  simpl. rewrite run_bind, run_settle. unfold verdict.
  destruct (DescribeServiceCommand P h region serviceArn) as [service|e].
  - destruct isDeleting.
    + destruct (bool_decide (service ?. Status = Some "DELETED")); [done |].
      destruct (strictNe (service ?. Status) (Some "OPERATION_IN_PROGRESS")); [done |].
      destruct (clock >=? maxWait); done.
    + destruct (bool_decide (service ?. Status = Some "RUNNING")); [done |].
      destruct (strictNe (service ?. Status) (Some "OPERATION_IN_PROGRESS")); [done |].
      destruct (clock >=? maxWait); done.
  - by destruct (bool_decide (err_name e = "ResourceNotFoundException") && isDeleting).
Qed.

Lemma verdict_InProgress r service :
  verdict isDeleting r = InProgress service →
  r = Resolved service ∧ service ?. Status = Some "OPERATION_IN_PROGRESS".
Proof.
  unfold verdict. destruct r as [s|e]; [| done].
  destruct isDeleting.
  - destruct (bool_decide _); [done |].
    destruct (strictNe _ _) eqn:E; [done |].
    apply (proj1 (strictNe_false _ _)) in E. intros [= <-]. by split.
  - destruct (bool_decide _); [done |].
    destruct (strictNe _ _) eqn:E; [done |].
    apply (proj1 (strictNe_false _ _)) in E. intros [= <-]. by split.
Qed.

Lemma nextDelay_schedule clock delay :
  (clock ≤ 5 → delay = 1) → nextDelay clock delay = schedule clock.
Proof.
  intros Hd. unfold nextDelay, schedule.
  destruct (clock >? 60); [done |]. destruct (clock >? 20); [done |].
  destruct (clock >? 5) eqn:E; [done |]. apply Hd. lia.
Qed.

Lemma schedule_pos clock : 1 ≤ schedule clock.
Proof.
  unfold schedule. repeat case_match; lia.
Qed.

Lemma nextDelay_pos clock delay : 1 ≤ delay → 1 ≤ nextDelay clock delay.
Proof. intros Hd. unfold nextDelay. repeat case_match; lia. Qed.

(** Every sleep follows the schedule. *)
Lemma waitLoop_scheduled fuel clock delay h :
  (clock ≤ 5 → delay = 1) →
  ∃ t, (waitLoop P fuel region serviceArn maxWait isDeleting clock delay h).2 = h ++ t
       ∧ scheduled schedule clock t.
Proof.
  revert clock delay h. induction fuel as [|fuel IH]; intros clock delay h Hinv.
  - exists []. by rewrite app_nil_r.
  - rewrite waitLoop_S. cbv zeta.
    set (r := DescribeServiceCommand P h region serviceArn).
    destruct (verdict isDeleting r) as [o|service].
    + by exists [EvDescribeService serviceArn r].
    + destruct (clock >=? maxWait).
      * by exists [EvDescribeService serviceArn r].
      * pose proof (nextDelay_schedule clock delay Hinv) as Hnd.
        pose proof (schedule_pos clock) as Hpos.
        destruct (IH (clock + nextDelay clock delay) (nextDelay clock delay)
                    ((h ++ [EvDescribeService serviceArn r])
                       ++ [EvSleep (nextDelay clock delay)])) as (t & Ht & Hs).
        { intros Hle. rewrite Hnd in *. unfold schedule in *.
          repeat case_match; lia. }
        exists (EvDescribeService serviceArn r :: EvSleep (nextDelay clock delay) :: t).
        rewrite Ht, <- !app_assoc. split; [done |]. simpl. by rewrite <- Hnd at 1.
Qed.

(** The fuel of [waitForAppRunnerService] is never used up. *)
Lemma waitLoop_terminates fuel clock delay h :
  1 ≤ delay → Z.max 0 (maxWait - clock) < Z.of_nat fuel →
  (waitLoop P fuel region serviceArn maxWait isDeleting clock delay h).1 ≠ Diverge.
Proof.
  revert clock delay h. induction fuel as [|fuel IH]; intros clock delay h Hd Hfuel; [lia |].
  rewrite waitLoop_S. cbv zeta.
  destruct (verdict isDeleting _) as [o|service] eqn:Ev.
  - unfold verdict in Ev. repeat case_match; simplify_eq; done.
  - destruct (clock >=? maxWait) eqn:Hc; [done |].
    pose proof (nextDelay_pos clock delay Hd). apply IH; lia.
Qed.

(** A provider that reports OPERATION_IN_PROGRESS at every poll: the loop
    runs into its bound and returns there. *)
Lemma waitLoop_timeout fuel clock delay h :
  (∀ h', ∃ svc, DescribeServiceCommand P h' region serviceArn = Resolved (Some svc)
                ∧ Status svc = Some "OPERATION_IN_PROGRESS") →
  1 ≤ delay → Z.max 0 (maxWait - clock) < Z.of_nat fuel →
  ∃ svc t,
    waitLoop P fuel region serviceArn maxWait isDeleting clock delay h
    = (Ret (if isDeleting then Some svc else None),
       (h ++ t) ++ [EvDescribeService serviceArn (Resolved (Some svc))])
    ∧ DescribeServiceCommand P (h ++ t) region serviceArn = Resolved (Some svc)
    ∧ Status svc = Some "OPERATION_IN_PROGRESS".
Proof.
  intros Hbusy. revert clock delay h.
  induction fuel as [|fuel IH]; intros clock delay h Hd Hfuel; [lia |].
  rewrite waitLoop_S. cbv zeta.
  destruct (Hbusy h) as (svc & Hr & Hst). rewrite Hr.
  assert (verdict isDeleting (Resolved (Some svc)) = InProgress (Some svc)) as ->.
  { unfold verdict. simpl. rewrite Hst. by destruct isDeleting. }
  destruct (clock >=? maxWait) eqn:Hc.
  - exists svc, []. rewrite app_nil_r. by rewrite Hr.
  - pose proof (nextDelay_pos clock delay Hd).
    destruct (IH (clock + nextDelay clock delay) (nextDelay clock delay)
                ((h ++ [EvDescribeService serviceArn (Resolved (Some svc))])
                   ++ [EvSleep (nextDelay clock delay)])) as (svc' & t & Hrun & Hlast);
      [lia | lia |].
    exists svc', (EvDescribeService serviceArn (Resolved (Some svc))
                  :: EvSleep (nextDelay clock delay) :: t).
    rewrite Hrun. rewrite <- ?app_assoc in *. simpl in *. by rewrite <- ?app_assoc in *.
Qed.

End Waiter.

(** Waiting for RUNNING returns a record only when the describe call just
    made reported RUNNING. *)
Lemma waitLoop_running P region serviceArn maxWait fuel clock delay h s h' :
  waitLoop P fuel region serviceArn maxWait false clock delay h = (Ret (Some s), h') →
  Status s = Some "RUNNING"
  ∧ ∃ t, h' = (h ++ t) ++ [EvDescribeService serviceArn (Resolved (Some s))]
         ∧ DescribeServiceCommand P (h ++ t) region serviceArn = Resolved (Some s).
Proof.
  revert clock delay h.
  induction fuel as [|fuel IH]; intros clock delay h; [done |].
  rewrite waitLoop_S. cbv zeta. unfold verdict.
  destruct (DescribeServiceCommand P h region serviceArn) as [service|e] eqn:Hr.
  - destruct (bool_decide (service ?. Status = Some "RUNNING")) eqn:Hrun.
    + intros [= -> <-]. apply bool_decide_eq_true_1 in Hrun. split; [done |].
      exists []. by rewrite app_nil_r.
    + destruct (strictNe _ _); [done |].
      destruct (clock >=? maxWait); [done |].
      intros Hloop. destruct (IH _ _ _ Hloop) as (Hst & t & -> & Hlast). split; [done |].
      exists (EvDescribeService serviceArn (Resolved service)
              :: EvSleep (nextDelay clock delay) :: t).
      rewrite <- ?app_assoc in *. simpl in *. by rewrite <- ?app_assoc in *.
  - rewrite andb_false_r. done.
Qed.


(** ** The comparisons of the diff *)

Lemma found_exists {A} (p : A → bool) (l : list A) :
  found p l = true ↔ ∃ x, x ∈ l ∧ p x = true.
Proof.
  unfold found. induction l as [|a l IH]; simpl.
  - split; [done | intros (x & Hx & _); by apply not_elem_of_nil in Hx].
  - destruct (p a) eqn:Ha.
    + split; [| done]. intros _. exists a. split; [apply list_elem_of_here | done].
    + rewrite IH. split.
      * intros (x & Hx & Hp). exists x. split; [by apply list_elem_of_further | done].
      * intros (x & Hx & Hp). apply elem_of_cons in Hx as [-> | Hx]; [congruence |].
        by exists x.
Qed.

Lemma includes_true l k : includes l k = true ↔ k ∈ l.
Proof. apply bool_decide_eq_true. Qed.

Lemma includes_false l k : negb (includes l k) = true ↔ k ∉ l.
Proof. unfold includes. rewrite negb_true_iff. apply bool_decide_eq_false. Qed.

Lemma jsNumber_ne (o : option Z) (n : Z) : strictNe (jsNumber o) (JsNumber n) = true ↔ o ≠ Some n.
Proof. rewrite strictNe_true. destruct o; simpl; split; congruence. Qed.

Lemma jsString_ne (o : option string) (s : string) :
  strictNe (jsString o) (JsString s) = true ↔ o ≠ Some s.
Proof. rewrite strictNe_true. destruct o; simpl; split; congruence. Qed.

Lemma autoScalingNeedsUpdate_spec current options :
  autoScalingNeedsUpdate current options = true ↔ differsAutoscaling current options.
Proof.
  unfold autoScalingNeedsUpdate, differsAutoscaling. rewrite found_exists.
  destruct current as [c|]; simpl.
  - rewrite <- !jsNumber_ne. split.
    + intros (x & Hx & Hp). set_unfold in Hx. destruct Hx as [-> | [-> | [-> | []]]]; auto.
    + intros [H | [H | H]];
        [exists "MaxConcurrency" | exists "MinSize" | exists "MaxSize"];
        (split; [set_solver | done]).
  - split; [intros _; by left |]. intros _. exists "MaxConcurrency". split; [set_solver | done].
Qed.

Lemma healthCheckNeedsUpdate_spec existingService options :
  healthCheckNeedsUpdate existingService options = true
  ↔ differsHealthcheck existingService options.
Proof.
  unfold healthCheckNeedsUpdate, differsHealthcheck. rewrite found_exists.
  destruct (svc_HealthCheckConfiguration existingService) as [c|]; simpl.
  - rewrite <- !jsNumber_ne, <- jsString_ne. split.
    + intros (x & Hx & Hp). set_unfold in Hx.
      destruct Hx as [-> | [-> | [-> | [-> | [-> | []]]]]]; auto.
    + intros [H | [H | [H | [H | H]]]];
        [exists "Path" | exists "Interval" | exists "Timeout" | exists "HealthyThreshold"
         | exists "UnhealthyThreshold"];
        (split; [set_solver | done]).
  - split; [intros _; by left |]. intros _. exists "Path". split; [set_solver | done].
Qed.

Lemma instanceConfigurationNeedsUpdate_spec existingService options :
  instanceConfigurationNeedsUpdate existingService options = true
  ↔ differsInstance existingService options.
Proof.
  unfold instanceConfigurationNeedsUpdate, differsInstance.
  by rewrite orb_true_iff, !strictNe_true.
Qed.

Lemma imageIdentifier_nonempty ecrRepositoryUrl options :
  imageIdentifier ecrRepositoryUrl options ≠ "".
Proof. unfold imageIdentifier. by destruct ecrRepositoryUrl. Qed.

Lemma imageNeedsUpdate_spec existingService ecrRepositoryUrl options :
  imageNeedsUpdate existingService ecrRepositoryUrl options = true
  ↔ differsImage existingService ecrRepositoryUrl options.
Proof.
  unfold imageNeedsUpdate, differsImage. rewrite strictNe_true.
  fold (imageIdentifier ecrRepositoryUrl options).
  pose proof (imageIdentifier_nonempty ecrRepositoryUrl options) as Hne.
  destruct (svc_SourceConfiguration existingService ?. sc_ImageRepository ?. ImageIdentifier)
    as [identifier|]; simpl; split; congruence.
Qed.

Lemma Object_keys_dom (o : gmap string string) (k : string) :
  (k ∈ Object_keys o) ↔ (k ∈ dom o).
Proof.
  unfold Object_keys. rewrite elem_of_dom, list_elem_of_fmap. split.
  - intros ([k' v] & -> & Hkv). apply elem_of_map_to_list in Hkv. by exists v.
  - intros [v Hv]. exists (k, v). split; [done |]. by apply elem_of_map_to_list.
Qed.

(** The variables comparison on the two key lists. *)
Lemma configNeedsUpdate_exists currentConfigKeys desiredConfigKeys ignoreConfigKeys :
  configNeedsUpdate currentConfigKeys desiredConfigKeys ignoreConfigKeys = true
  ↔ ∃ key, (key ∉ ignoreConfigKeys)
           ∧ ((key ∈ desiredConfigKeys ∧ key ∉ currentConfigKeys)
              ∨ (key ∈ currentConfigKeys ∧ key ∉ desiredConfigKeys)).
Proof.
  unfold configNeedsUpdate. rewrite orb_true_iff, !found_exists. split.
  - intros [(k & Hk & Hp) | (k & Hk & Hp)];
      apply andb_true_iff in Hp as [H1 H2];
      apply includes_false in H1; apply includes_false in H2; exists k; auto.
  - intros (k & Hi & [[Hd Hc] | [Hc Hd]]); [left | right];
      (exists k; split; [done |]);
      apply andb_true_iff; split; by apply includes_false.
Qed.

Lemma configNeedsUpdate_spec (current desired : gmap string string) ignoreConfigKeys :
  configNeedsUpdate (Object_keys current) (Object_keys desired) ignoreConfigKeys = true
  ↔ differsVariables current desired ignoreConfigKeys.
Proof.
  rewrite configNeedsUpdate_exists. unfold differsVariables. cbv zeta.
  setoid_rewrite Object_keys_dom. split.
  - intros (k & Hi & Hk) Hempty.
    assert (k ∈ (∅ : gset string)) as Hin; [| set_solver].
    rewrite <- Hempty. set_solver.
  - intros Hne. apply set_choose_L in Hne as [k Hk]. exists k. set_solver.
Qed.

(** ** The update plan *)

Lemma updatePlan_planned d :
  updatePlan d
  = categoryName <$> List.filter (λ c, planned c d)
                       [Autoscaling; Healthcheck; Instance; Image; Variables].
Proof.
  unfold updatePlan. simpl.
  destruct (truthy (newAutoScalingConfigurationArn d)), (healthCheckNeedsUpdate_ d),
    (instanceConfigurationNeedsUpdate_ d), (imageNeedsUpdate_ d), (configNeedsUpdate_ d);
    reflexivity.
Qed.

Lemma categoryName_inj c c' : categoryName c = categoryName c' → c = c'.
Proof. by destruct c, c'. Qed.

Lemma updatePlan_elem d c : categoryName c ∈ updatePlan d ↔ planned c d = true.
Proof.
  rewrite updatePlan_planned, list_elem_of_fmap. split.
  - intros (c' & Hname & Hin). apply categoryName_inj in Hname as <-.
    apply list_elem_of_In, filter_In in Hin. tauto.
  - intros Hp. exists c. split; [done |]. apply list_elem_of_In, filter_In. split; [| done].
    destruct c; simpl; tauto.
Qed.

Lemma updatePlan_exactly d c :
  (∀ c', planned c' d = true ↔ c' = c) → updatePlan d = [categoryName c].
Proof.
  intros Hone. rewrite updatePlan_planned.
  assert (∀ c', planned c' d = bool_decide (c' = c)) as Hp.
  { intros c'. destruct (planned c' d) eqn:E.
    - apply Hone in E as ->. by rewrite bool_decide_eq_true_2.
    - symmetry. apply bool_decide_eq_false_2. intros ->.
      pose proof (proj2 (Hone c) eq_refl). congruence. }
  pose proof (Hp Autoscaling) as H1. pose proof (Hp Healthcheck) as H2.
  pose proof (Hp Instance) as H3. pose proof (Hp Image) as H4.
  pose proof (Hp Variables) as H5. simpl in H1, H2, H3, H4, H5 |- *.
  rewrite H1, H2, H3, H4, H5. by destruct c.
Qed.

Lemma updatePlan_nil_length d : (0 <? Z.of_nat (length (updatePlan d))) = false ↔ updatePlan d = [].
Proof. destruct (updatePlan d); simpl; split; (done || lia). Qed.

(** ** Taking runs apart *)

Lemma bind_Ret {A B} (m : M A) (k : A → M B) h b h2 :
  (m ≫= k) h = (Ret b, h2) ↔ ∃ a h1, m h = (Ret a, h1) ∧ k a h1 = (Ret b, h2).
Proof.
  rewrite run_bind. destruct (m h) as [[a|f|e|] h1]; split;
    try done; try (by intros (a' & h1' & [=] & _)).
  - intros Hk. by exists a, h1.
  - by intros (a' & h1' & [= <- <-] & Hk).
Qed.

Lemma await_Ret {A} (call : History → Result A) (ev : Result A → Event) h a h1 :
  await call ev h = (Ret a, h1) ↔ call h = Resolved a ∧ h1 = h ++ [ev (Resolved a)].
Proof.
  rewrite run_await. destruct (call h) as [a'|e]; split.
  - by intros [= -> <-].
  - by intros [[= ->] ->].
  - done.
  - by intros [[=] _].
Qed.

Lemma bind_assoc_run {A B C} (m : M A) (k : A → M B) (k' : B → M C) h :
  ((m ≫= k) ≫= k') h = (m ≫= (λ a, k a ≫= k')) h.
Proof. rewrite !run_bind. by destruct (m h) as [[a|f|e|] h1]. Qed.

Lemma bind_assoc2_run {A B C E} (m1 : M A) (m2 : A → M B) (k : A → B → M C) (k' : C → M E) h :
  ((m1 ≫= λ a, m2 a ≫= k a) ≫= k') h = (m1 ≫= λ a, m2 a ≫= λ b, k a b ≫= k') h.
Proof.
  rewrite !run_bind. destruct (m1 h) as [[a|f|e|] h1]; try done.
  rewrite !run_bind. by destruct (m2 a h1) as [[b|f|e|] h2].
Qed.

(** What a bind adds to the history of its first part comes from the
    continuation, and the continuation runs only when the first part
    returned. *)
Lemma bind_prefix {A B} ks (m : M A) (k : A → M B) h :
  (∀ a, emits ks (k a)) →
  ∃ t2, ((m ≫= k) h).2 = (m h).2 ++ t2
        ∧ only ks t2
        ∧ (t2 ≠ [] → ∃ a, (m h).1 = Ret a).
Proof.
  intros Hk. rewrite run_bind. destruct (m h) as [[a|f|e|] h1]; simpl;
    try (exists []; rewrite app_nil_r; split; [done | split; [apply only_nil | done]]).
  destruct (Hk a h1) as (t & Ht & Hkt). exists t. split; [done |]. split; [done |]. eauto.
Qed.

(** ** The reclaim of unused revisions *)

Lemma revisionPages_app t1 t2 : revisionPages (t1 ++ t2) = revisionPages t1 ++ revisionPages t2.
Proof.
  induction t1 as [|e t1 IH]; [done |]. destruct e; simpl; try done.
  destruct r; simpl; by rewrite ?IH.
Qed.

Lemma deletedRevisions_app t1 t2 :
  deletedRevisions (t1 ++ t2) = deletedRevisions t1 ++ deletedRevisions t2.
Proof.
  induction t1 as [|e t1 IH]; [done |]. destruct e; simpl; try done.
  destruct r; simpl; by rewrite ?IH.
Qed.

Lemma listedRevisions_app t1 t2 :
  listedRevisions (t1 ++ t2) = listedRevisions t1 ++ listedRevisions t2.
Proof. unfold listedRevisions. by rewrite revisionPages_app, bind_app. Qed.

Section Reclaim.

Variable P : Provider.
Variable region : string.

(** One page: the unused revisions of the page are deleted, in their order,
    and nothing else is asked of the provider. *)
Lemma deleteUnusedOfPage_Ret page h h' :
  deleteUnusedOfPage P region page h = (Ret tt, h') →
  ∃ t, h' = h ++ t
       ∧ only [KDeleteAutoScalingConfiguration] t
       ∧ revisionPages t = []
       ∧ deletedRevisions t = acs_AutoScalingConfigurationArn <$> List.filter isUnused page.
Proof.
  revert h h'. induction page as [|revision rest IH]; intros h h'; simpl.
  - intros [= <-]. exists []. rewrite app_nil_r. by repeat split; try apply only_nil.
  - fold (isUnused revision). destruct (isUnused revision).
    + intros ([] & h1 & Hdel & Hrest)%bind_Ret.
      apply await_Ret in Hdel as [Hres Hh1]. subst h1.
      apply IH in Hrest as (t & -> & Honly & Hpages & Hdeleted).
      exists (EvDeleteAutoScalingConfiguration (acs_AutoScalingConfigurationArn revision)
                (Resolved tt) :: t).
      rewrite <- app_assoc. simpl. rewrite Hdeleted. repeat split; try done.
      constructor; [done | exact Honly].
    + intros Hrest. by apply IH in Hrest.
Qed.

Lemma deleteUnusedPages_Ret fuel name nextToken h h' :
  deleteUnusedPages P fuel region name nextToken h = (Ret tt, h') →
  ∃ t, h' = h ++ t
       ∧ only [KListAutoScalingConfigurations; KDeleteAutoScalingConfiguration] t
       ∧ Forall (λ p, p.1.1 = name) (revisionPages t)
       ∧ drained lac_NextToken nextToken ((λ p, (p.1.2, p.2)) <$> revisionPages t)
       ∧ deletedRevisions t
         = acs_AutoScalingConfigurationArn <$> List.filter isUnused (listedRevisions t).
Proof.
  revert nextToken h h'. induction fuel as [|fuel IH]; intros nextToken h h'; [done |]. simpl.
  intros (page & h1 & Hlist & Hrest)%bind_Ret.
  apply await_Ret in Hlist as [Hres Hh1]. subst h1.
  apply bind_Ret in Hrest as ([] & h2 & Hpage & Hrest).
  apply deleteUnusedOfPage_Ret in Hpage as (tp & -> & Hponly & Hppages & Hpdeleted).
  assert (only [KListAutoScalingConfigurations; KDeleteAutoScalingConfiguration] tp) as Hponly'.
  { eapply only_mono; [| exact Hponly]. kinds_sub. }
  destruct (truthy (lac_NextToken page)) eqn:Htoken; simpl in Hrest.
  - apply IH in Hrest as (tr & -> & Hronly & Hrname & Hrdrained & Hrdeleted).
    exists (EvListAutoScalingConfigurations name nextToken (Resolved page) :: tp ++ tr).
    rewrite <- !app_assoc. simpl. split; [done |].
    rewrite revisionPages_app, deletedRevisions_app, Hppages. simpl.
    split; [constructor; [done | by apply only_app] |].
    split; [by constructor |].
    rewrite Htoken. split; [done |].
    unfold listedRevisions in *. simpl. rewrite revisionPages_app, Hppages. simpl.
    rewrite List.filter_app, fmap_app. by rewrite Hpdeleted, Hrdeleted.
  - injection Hrest as <-.
    exists (EvListAutoScalingConfigurations name nextToken (Resolved page) :: tp).
    rewrite <- !app_assoc. simpl. split; [done |].
    split; [by constructor |].
    unfold listedRevisions. simpl. rewrite !Hppages. simpl. rewrite Htoken, app_nil_r.
    by repeat split; try constructor.
Qed.

End Reclaim.

Lemma deleteUnusedAutoScalingConfigurations_Ret P fuel region name h h' :
  deleteUnusedAutoScalingConfigurations P fuel region name h = (Ret tt, h') →
  ∃ t, h' = h ++ t ∧ Reclaimed name t.
Proof.
  intros (t & -> & Hreclaimed)%deleteUnusedPages_Ret. by exists t.
Qed.

(** A flow that looks up the registry, reclaims, and then goes on. *)
Lemma reclaims_first {B} P fuel options ks (rest : string → M B) h :
  (∀ url, emits ks (rest url)) →
  ReclaimsFirst P fuel options h
    ((url ← await (λ h, getEcrRepositoryArn P h (region options) (ecrRepositoryName options))
               (EvGetEcrRepositoryArn (region options) (ecrRepositoryName options));
      _ ← deleteUnusedAutoScalingConfigurations P fuel (region options)
            (autoScalingConfigurationName options);
      rest url) h).2.
Proof.
  intros Hrest. rewrite run_bind, run_await.
  set (r := getEcrRepositoryArn P h (region options) (ecrRepositoryName options)).
  set (e := EvGetEcrRepositoryArn (region options) (ecrRepositoryName options) r).
  destruct r as [url|err] eqn:Hr.
  - destruct (bind_prefix ks
                (deleteUnusedAutoScalingConfigurations P fuel (region options)
                   (autoScalingConfigurationName options))
                (λ _, rest url) (h ++ [e])) as (t2 & Ht2 & Honly2 & Hret); [done |].
    destruct (deleteUnusedPages_emits P fuel (region options)
                (autoScalingConfigurationName options) None (h ++ [e])) as (t1 & Ht1 & Honly1).
    fold (deleteUnusedAutoScalingConfigurations P fuel (region options)
            (autoScalingConfigurationName options)) in Ht1.
    exists e, t1, t2. rewrite Ht2, Ht1, <- !app_assoc.
    split; [done |]. split; [done |]. split; [done |]. intros Hne.
    destruct (Hret Hne) as [[] Hfst].
    destruct (deleteUnusedAutoScalingConfigurations P fuel (region options)
                (autoScalingConfigurationName options) (h ++ [e])) as [o h1] eqn:Hrun.
    simpl in Hfst, Ht1. subst o h1. split; [by rewrite <- app_assoc |].
    apply deleteUnusedAutoScalingConfigurations_Ret in Hrun as (t & Ht & Hreclaimed).
    by apply app_inv_head in Ht as ->.
  - exists e, [], []. simpl. split; [done |]. split; [done |]. split; [apply only_nil | done].
Qed.

Lemma createAppRunnerService_reclaims_first D P fuel options h :
  ReclaimsFirst P fuel options h (createAppRunnerService D P fuel options h).2.
Proof.
  unfold createAppRunnerService. apply (reclaims_first P fuel options createKinds).
  intros url. unfold createKinds.
  emits_step; [emits_step |].
  emits_step; [emits_by awaitConfig_emits |].
  emits_step; [emits_step |].
  emits_step; [emits_step |].
  emits_step; [emits_step |].
  emits_step; [emits_by waitForAppRunnerService_emits |].
  repeat emits_step.
Qed.

Lemma updateAppRunnerService_reclaims_first D P fuel options existingService h :
  ReclaimsFirst P fuel options h (updateAppRunnerService D P fuel options existingService h).2.
Proof.
  unfold updateAppRunnerService, decideUpdate.
  rewrite bind_assoc2_run.
  apply (reclaims_first P fuel options (decideKinds ++ applyKinds)).
  intros url. apply emits_bind.
  - unfold decideKinds, applyKinds. simpl.
    emits_step; [emits_step |].
    emits_step; [repeat emits_step |].
    emits_step; [emits_by awaitConfig_emits | emits_step].
  - intros d. emits_by applyUpdate_emits.
Qed.

(** ** The update flow *)

Section UpdateFlow.

Variable D : Defaults.
Variable P : Provider.
Variable fuel : nat.
Variable options : EnsureAppRunnerOptions.
Variable existingService : Service.

Lemma awaitConfig_Ret h desired h1 :
  awaitConfig P options h = (Ret desired, h1) →
  ∃ config, getConfig P h (region options) (deployment options) = Resolved config
            ∧ desired = configOf options config
            ∧ h1 = h ++ [EvGetConfig (region options) (deployment options) (Resolved config)].
Proof.
  unfold awaitConfig. intros (config & h' & Hget & Hret)%bind_Ret.
  apply await_Ret in Hget as [Hget ->]. injection Hret as <- <-. by exists config.
Qed.

(** What a run of the first half of the update flow went through when it
    returned the decisions [d]. *)
Lemma decideUpdate_Ret h d h1 :
  decideUpdate D P fuel options existingService h = (Ret d, h1) →
  ∃ url t1 current created config,
    Reclaimed (autoScalingConfigurationName options) t1
    ∧ (if autoScalingNeedsUpdate current options
       then ∃ result,
              created = [EvCreateAutoScalingConfiguration
                           (createAutoScalingConfigurationInput D options) (Resolved result)]
              ∧ newAutoScalingConfigurationArn d = result ?. ac_AutoScalingConfigurationArn
       else created = [] ∧ newAutoScalingConfigurationArn d = None)
    ∧ h1 = h ++ EvGetEcrRepositoryArn (region options) (ecrRepositoryName options)
                  (Resolved url)
               :: t1
               ++ EvDescribeAutoScalingConfiguration
                    (orEmpty (svc_AutoScalingConfigurationArn existingService))
                    (Resolved current)
                  :: created
               ++ [EvGetConfig (region options) (deployment options) (Resolved config)]
    ∧ d = decisions options existingService url (newAutoScalingConfigurationArn d)
            (configOf options config).
Proof.
  unfold decideUpdate.
  intros (url & h' & Hecr & Hrest)%bind_Ret. apply await_Ret in Hecr as [Hecr ->].
  apply bind_Ret in Hrest as ([] & h' & Hreclaim & Hrest).
  apply deleteUnusedAutoScalingConfigurations_Ret in Hreclaim as (t1 & -> & Hreclaimed).
  apply bind_Ret in Hrest as (current & h' & Hdescribe & Hrest).
  apply await_Ret in Hdescribe as [Hdescribe ->].
  apply bind_Ret in Hrest as (newArn & h' & Hcreate & Hrest).
  apply bind_Ret in Hrest as (desired & h'' & Hconfig & Hret).
  apply awaitConfig_Ret in Hconfig as (config & Hget & -> & ->).
  injection Hret as <- <-. simpl.
  destruct (autoScalingNeedsUpdate current options) eqn:Hneeds.
  - apply bind_Ret in Hcreate as (result & h'' & Hcreate & Hret).
    apply await_Ret in Hcreate as [Hcreate ->]. injection Hret as <- <-.
    exists url, t1, current,
      [EvCreateAutoScalingConfiguration (createAutoScalingConfigurationInput D options)
         (Resolved result)], config.
    rewrite Hneeds. split; [done |]. split; [by exists result |].
    split; [| done]. by rewrite <- !app_assoc.
  - injection Hcreate as <- <-.
    exists url, t1, current, [], config.
    rewrite Hneeds. split; [done |]. split; [done |].
    split; [| done]. by rewrite <- !app_assoc.
Qed.

(** The request of the update flow carries the fingerprint exactly when the
    variables category is part of the plan. *)
Lemma updateServiceInput_fingerprint d updatedAt :
  requestFingerprint (updateServiceInput options existingService d updatedAt)
  = if configNeedsUpdate_ d then Some updatedAt else None.
Proof.
  unfold requestFingerprint, updateServiceInput. simpl.
  destruct (configNeedsUpdate_ d); simpl.
  - by rewrite orb_true_r.
  - by destruct (imageNeedsUpdate_ d).
Qed.

(** An empty plan: the second half of the flow does nothing. *)
Lemma applyUpdate_empty d h :
  updatePlan d = [] → applyUpdate D P options existingService d h = (Ret tt, h).
Proof. intros Hplan. unfold applyUpdate. by rewrite Hplan. Qed.

(** A plan that is not empty: the timestamp is taken, the update request is
    sent, and if it is accepted the tags are sent next and the flow waits
    for RUNNING. *)
Lemma applyUpdate_nonempty d h :
  updatePlan d ≠ [] →
  let updatedAt := Date_toISOString P h in
  let input := updateServiceInput options existingService d updatedAt in
  let h1 := h ++ [EvNow updatedAt] in
  let h2 := h1 ++ [EvUpdateService input (UpdateServiceCommand P h1 (region options) input)] in
  let h3 := h2 ++ [EvTagResource (ServiceArn existingService) (tagsOf D options)
                     (TagResourceCommand P h2 (region options) (ServiceArn existingService)
                        (tagsOf D options))] in
  applyUpdate D P options existingService d h =
  match UpdateServiceCommand P h1 (region options) input with
  | Rejected e => (Throw e, h2)
  | Resolved _ =>
      match TagResourceCommand P h2 (region options) (ServiceArn existingService)
              (tagsOf D options) with
      | Rejected e => (Throw e, h3)
      | Resolved _ =>
          match waitForAppRunnerService P (region options)
                  (orEmpty (ServiceArn existingService)) MaxWaitTimeForAppRunnerUpdate false h3
          with
          | (Ret (Some service), h4) =>
              (if strictNe (LETSGO_UPDATED_AT service) (Some updatedAt)
               then Exit RolledBack else Ret tt, h4)
          | (Ret None, h4) => (Exit UpdateTimeout, h4)
          | (Exit f, h4) => (Exit f, h4)
          | (Throw e, h4) => (Throw e, h4)
          | (Diverge, h4) => (Diverge, h4)
          end
      end
  end.
Proof.
  intros Hplan. cbv zeta. unfold applyUpdate.
  destruct (updatePlan d) as [|c plan]; [done |]. clear Hplan.
  replace (0 <? Z.of_nat (length (c :: plan))) with true
    by (symmetry; apply Z.ltb_lt; simpl; lia).
  rewrite run_bind. unfold toISOString at 1. cbv beta.
  rewrite run_bind, run_await.
  destruct (UpdateServiceCommand P _ (region options) _) as [[]|e]; [| done].
  rewrite run_bind, run_await.
  destruct (TagResourceCommand P _ (region options) _ _) as [[]|e]; [| done].
  rewrite run_bind.
  destruct (waitForAppRunnerService P _ _ _ _ _) as [[[service|]|f|e|] h4]; try done.
  by destruct (strictNe _ _).
Qed.

End UpdateFlow.

(** ** The comparisons of the code against the words of the specification *)

Lemma differsb_spec c current existingService url desired options :
  differsb c current existingService url desired options = true
  ↔ differs c current existingService url desired options.
Proof.
  destruct c; simpl.
  - apply autoScalingNeedsUpdate_spec.
  - apply healthCheckNeedsUpdate_spec.
  - apply instanceConfigurationNeedsUpdate_spec.
  - apply imageNeedsUpdate_spec.
  - apply configNeedsUpdate_spec.
Qed.

Lemma decisions_planned options existingService url newArn desired current c :
  c ≠ Autoscaling →
  planned c (decisions options existingService url newArn desired)
  = differsb c current existingService url desired options.
Proof. by destruct c. Qed.

(** An event of a kind that is not in [ks] is not in a trace of [ks]. *)
Lemma only_excludes ks t e : only ks t → bool_decide (kindOf e ∈ ks) = false → e ∉ t.
Proof.
  intros Ht Hk He. pose proof (only_elem_of ks t e Ht He) as Hin.
  by rewrite (bool_decide_eq_true_2 _ Hin) in Hk.
Qed.

Lemma elem_of_decide_trace (e e1 e2 e3 : Event) (t1 created : History) :
  e ∈ e1 :: t1 ++ e2 :: created ++ [e3]
  ↔ e = e1 ∨ e ∈ t1 ∨ e = e2 ∨ e ∈ created ∨ e = e3.
Proof.
  rewrite elem_of_cons, elem_of_app, elem_of_cons, elem_of_app, list_elem_of_singleton.
  tauto.
Qed.

Section Decide.

Variable D : Defaults.
Variable P : Provider.
Variable fuel : nat.
Variable options : EnsureAppRunnerOptions.
Variable existingService : Service.

(** The answers a returned run of [decideUpdate] worked with are the ones
    its trace shows. *)
Lemma decideUpdate_observed h d t url current config :
  decideUpdate D P fuel options existingService h = (Ret d, h ++ t) →
  EvGetEcrRepositoryArn (region options) (ecrRepositoryName options) (Resolved url) ∈ t →
  EvDescribeAutoScalingConfiguration (orEmpty (svc_AutoScalingConfigurationArn existingService))
    (Resolved current) ∈ t →
  EvGetConfig (region options) (deployment options) (Resolved config) ∈ t →
  d = decisions options existingService url (newAutoScalingConfigurationArn d)
        (configOf options config)
  ∧ ∃ t1 created,
      only [KListAutoScalingConfigurations; KDeleteAutoScalingConfiguration] t1
      ∧ (if autoScalingNeedsUpdate current options
         then ∃ result,
                created = [EvCreateAutoScalingConfiguration
                             (createAutoScalingConfigurationInput D options) (Resolved result)]
                ∧ newAutoScalingConfigurationArn d = result ?. ac_AutoScalingConfigurationArn
         else created = [] ∧ newAutoScalingConfigurationArn d = None)
      ∧ ∀ e, e ∈ t ↔
             e = EvGetEcrRepositoryArn (region options) (ecrRepositoryName options)
                   (Resolved url)
             ∨ e ∈ t1
             ∨ e = EvDescribeAutoScalingConfiguration
                     (orEmpty (svc_AutoScalingConfigurationArn existingService))
                     (Resolved current)
             ∨ e ∈ created
             ∨ e = EvGetConfig (region options) (deployment options) (Resolved config).
Proof.
  intros (url' & t1 & current' & created & config' & Hreclaimed & Hcreated & Ht & Hd)
    %decideUpdate_Ret Hurl Hcurrent Hconfig.
  apply app_inv_head in Ht. destruct Hreclaimed as (Honly & _).
  assert (∀ e, e ∈ created → kindOf e = KCreateAutoScalingConfiguration) as Hkind.
  { intros e He. destruct (autoScalingNeedsUpdate current' options).
    - destruct Hcreated as (result & -> & _). by apply list_elem_of_singleton in He as ->.
    - destruct Hcreated as [-> _]. by apply not_elem_of_nil in He. }
  assert (url = url') as <-.
  { rewrite Ht in Hurl. apply elem_of_decide_trace in Hurl.
    destruct Hurl as [[=] | [Hin | [[=] | [Hin | [=]]]]]; [done | |].
    - by apply (only_excludes _ _ _ Honly) in Hin.
    - by apply Hkind in Hin. }
  assert (current = current') as <-.
  { rewrite Ht in Hcurrent. apply elem_of_decide_trace in Hcurrent.
    destruct Hcurrent as [[=] | [Hin | [[=] | [Hin | [=]]]]]; [| done |].
    - by apply (only_excludes _ _ _ Honly) in Hin.
    - by apply Hkind in Hin. }
  assert (config = config') as <-.
  { rewrite Ht in Hconfig. apply elem_of_decide_trace in Hconfig.
    destruct Hconfig as [[=] | [Hin | [[=] | [Hin | [=]]]]]; [| | done].
    - by apply (only_excludes _ _ _ Honly) in Hin.
    - by apply Hkind in Hin. }
  split; [done |]. exists t1, created. split; [done |]. split; [done |].
  intros e. rewrite Ht. apply elem_of_decide_trace.
Qed.

End Decide.

(** The outcome of the update flow when the record that reached RUNNING does
    not carry the timestamp of this run. *)
Lemma applyUpdate_rolled_back D P options existingService d h service h4 :
  updatePlan d ≠ [] →
  let updatedAt := Date_toISOString P h in
  let input := updateServiceInput options existingService d updatedAt in
  let h1 := h ++ [EvNow updatedAt] in
  let h2 := h1 ++ [EvUpdateService input (Resolved tt)] in
  let h3 := h2 ++ [EvTagResource (ServiceArn existingService) (tagsOf D options)
                     (Resolved tt)] in
  UpdateServiceCommand P h1 (region options) input = Resolved tt →
  TagResourceCommand P h2 (region options) (ServiceArn existingService) (tagsOf D options)
  = Resolved tt →
  waitForAppRunnerService P (region options) (orEmpty (ServiceArn existingService))
    MaxWaitTimeForAppRunnerUpdate false h3 = (Ret (Some service), h4) →
  LETSGO_UPDATED_AT service ≠ Some updatedAt →
  applyUpdate D P options existingService d h = (Exit RolledBack, h4).
Proof.
  intros Hplan. cbv zeta. intros Hupdate Htag Hwait Hstamp.
  rewrite (applyUpdate_nonempty D P options existingService d h Hplan). cbv zeta.
  rewrite Hupdate, Htag, Hwait. by rewrite (proj2 (strictNe_true _ _) Hstamp).
Qed.

(** ** Discovery *)

Lemma truthy_Some (o : option string) : truthy o = true ↔ ∃ s, o = Some s ∧ s ≠ "".
Proof.
  destruct o as [s|]; simpl.
  - rewrite negb_true_iff. split.
    + intros Hs. exists s. split; [done |]. intros ->. done.
    + intros (s' & [= <-] & Hs). by apply String.eqb_neq.
  - split; [done |]. by intros (s & [=] & _).
Qed.

Lemma tagValue_carries tags key : truthy (tagValue tags key) = true ↔ carriesTag tags key.
Proof.
  rewrite truthy_Some. unfold tagValue, carriesTag.
  destruct (tags ?. List.find (λ tag, bool_decide (Tag_Key tag = Some key))) as [tag|]; simpl.
  - split.
    + intros (s & Hs & Hne). by exists tag, s.
    + intros (tag' & s & [= <-] & Hs & Hne). by exists s.
  - split; [by intros (s & [=] & _) | by intros (tag & s & [=] & _)].
Qed.

Lemma isLetsGoService_carries D deployment component tags :
  isLetsGoService D deployment component tags = true →
  carriesTag tags (TagKeys_LetsGoDeployment D) ∧ carriesTag tags (TagKeys_LetsGoComponent D).
Proof.
  unfold isLetsGoService. cbv zeta. rewrite !andb_true_iff.
  intros [[[Hd Hc] _] _]. by rewrite <- !tagValue_carries.
Qed.

Lemma servicePages_app t1 t2 : servicePages (t1 ++ t2) = servicePages t1 ++ servicePages t2.
Proof.
  induction t1 as [|e t1 IH]; [done |]. destruct e; simpl; try done.
  destruct r; simpl; by rewrite ?IH.
Qed.

Section Discovery.

Variable D : Defaults.
Variable P : Provider.
Variable region : string.
Variables deployment component : option string.

(** a service of the result was there before, or is of the page and was
    kept for its tags *)
Lemma listLetsGoOfPage_Ret page services h result h' :
  listLetsGoOfPage D P region deployment component page services h = (Ret result, h') →
  ∃ t, h' = h ++ t
       ∧ servicePages t = []
       ∧ ∀ service, service ∈ result →
           service ∈ services
           ∨ (service ∈ page
              ∧ ∃ tags, EvListTagsForResource (orEmpty (ss_ServiceArn service)) (Resolved tags)
                          ∈ t
                        ∧ isLetsGoService D deployment component tags = true).
Proof.
  revert services h h'. induction page as [|service rest IH]; intros services h h'; simpl.
  - intros [= <- <-]. exists []. rewrite app_nil_r. split; [done |]. split; [done |]. auto.
  - intros (tags & h1 & Htags & Hrest)%bind_Ret.
    apply await_Ret in Htags as [Htags ->].
    apply IH in Hrest as (t & -> & Hpages & Hkept).
    exists (EvListTagsForResource (orEmpty (ss_ServiceArn service)) (Resolved tags) :: t).
    rewrite <- app_assoc. split; [done |]. split; [done |].
    intros s Hs. destruct (Hkept s Hs) as [Hold | (Hin & tags' & Hev & Hok)].
    + destruct (isLetsGoService D deployment component tags) eqn:Hok; [| by left].
      apply elem_of_app in Hold as [Hold | ->%list_elem_of_singleton]; [by left |].
      right. split; [apply list_elem_of_here |]. exists tags. split; [apply list_elem_of_here | done].
    + right. split; [by apply list_elem_of_further |]. exists tags'.
      split; [by apply list_elem_of_further | done].
Qed.

Lemma listLetsGoPages_Ret fuel nextToken services h result h' :
  listLetsGoPages D P fuel region deployment component nextToken services h = (Ret result, h') →
  ∃ t, h' = h ++ t
       ∧ drained ls_NextToken nextToken (servicePages t)
       ∧ ∀ service, service ∈ result →
           service ∈ services
           ∨ (service ∈ listedServices t
              ∧ ∃ tags, EvListTagsForResource (orEmpty (ss_ServiceArn service)) (Resolved tags)
                          ∈ t
                        ∧ isLetsGoService D deployment component tags = true).
Proof.
  revert nextToken services h h'.
  induction fuel as [|fuel IH]; intros nextToken services h h'; [done |]. simpl.
  intros (page & h1 & Hlist & Hrest)%bind_Ret.
  apply await_Ret in Hlist as [Hlist ->].
  apply bind_Ret in Hrest as (kept & h2 & Hpage & Hrest).
  apply listLetsGoOfPage_Ret in Hpage as (tp & -> & Hppages & Hpkept).
  destruct (truthy (ls_NextToken page)) eqn:Htoken; simpl in Hrest.
  - apply IH in Hrest as (tr & -> & Hrdrained & Hrkept).
    exists (EvListServices nextToken (Resolved page) :: tp ++ tr).
    rewrite <- !app_assoc. split; [done |].
    unfold listedServices in *. simpl. rewrite servicePages_app, Hppages. simpl.
    rewrite Htoken. split; [done |].
    intros s Hs. destruct (Hrkept s Hs) as [Hold | (Hin & tags & Hev & Hok)].
    + destruct (Hpkept s Hold) as [Hold' | (Hin & tags & Hev & Hok)]; [by left |].
      right. split; [apply elem_of_app; by left |]. exists tags. split; [| done].
      apply list_elem_of_further, elem_of_app. by left.
    + right. split; [apply elem_of_app; by right |]. exists tags. split; [| done].
      apply list_elem_of_further, elem_of_app. by right.
  - injection Hrest as <- <-.
    exists (EvListServices nextToken (Resolved page) :: tp).
    rewrite <- !app_assoc. split; [done |].
    unfold listedServices. simpl. rewrite Hppages. simpl. rewrite Htoken, app_nil_r.
    split; [done |].
    intros s Hs. destruct (Hpkept s Hs) as [Hold | (Hin & tags & Hev & Hok)]; [by left |].
    right. split; [done |]. exists tags. split; [by apply list_elem_of_further | done].
Qed.

End Discovery.

(** ** The delete flow and the dispatch *)

Section Dispatch.

Variable D : Defaults.
Variable P : Provider.

(** The delete flow starts with the delete request; only polling follows. *)
Lemma deleteAppRunnerService_trace region serviceArn h :
  ∃ t, (deleteAppRunnerService P region serviceArn h).2
       = h ++ EvDeleteService serviceArn (DeleteServiceCommand P h region serviceArn) :: t
       ∧ only [KDescribeService; KSleep] t.
Proof.
  unfold deleteAppRunnerService. rewrite run_bind, run_settle.
  destruct (DeleteServiceCommand P h region serviceArn) as [[]|e].
  - rewrite run_bind.
    destruct (waitForAppRunnerService_emits P region serviceArn MaxWaitTimeForAppRunnerUpdate
                true (h ++ [EvDeleteService serviceArn (Resolved tt)])) as (t & Ht & Honly).
    exists t. split; [| done].
    destruct (waitForAppRunnerService P _ _ _ _ _) as [[[service|]|f|e|] h1];
      simpl in *; subst h1; by rewrite <- app_assoc.
  - exists []. split; [| apply only_nil].
    destruct (bool_decide _); [done |]. by destruct (strictNe _ _).
Qed.

(** The delete flow returns after an accepted delete request only when the
    wait for DELETED returned absent. *)
Lemma deleteAppRunnerService_Ret region serviceArn h h' :
  deleteAppRunnerService P region serviceArn h = (Ret tt, h') →
  DeleteServiceCommand P h region serviceArn = Resolved tt →
  waitForAppRunnerService P region serviceArn MaxWaitTimeForAppRunnerUpdate true
    (h ++ [EvDeleteService serviceArn (Resolved tt)]) = (Ret None, h').
Proof.
  unfold deleteAppRunnerService. rewrite run_bind, run_settle. intros Hrun Hdelete.
  rewrite Hdelete in Hrun. rewrite run_bind in Hrun. revert Hrun.
  destruct (waitForAppRunnerService P _ _ _ _ _) as [[[service|]|f|e|] h1];
    intros Hrun; simpl in Hrun; try discriminate Hrun.
  by injection Hrun as <-.
Qed.

Lemma getOneLetsGoAppRunnerService_one fuel options h summary h1 :
  listLetsGoAppRunnerServices D P fuel (region options) (Some (deployment options))
    (Some (component options)) h = (Ret [summary], h1) →
  getOneLetsGoAppRunnerService D P fuel options h = (Ret (Some summary), h1).
Proof. intros Hlist. unfold getOneLetsGoAppRunnerService. by rewrite run_bind, Hlist. Qed.

Lemma getOneLetsGoAppRunnerService_many fuel options h services h1 :
  listLetsGoAppRunnerServices D P fuel (region options) (Some (deployment options))
    (Some (component options)) h = (Ret services, h1) →
  (2 ≤ length services)%nat →
  getOneLetsGoAppRunnerService D P fuel options h = (Exit (Ambiguous services), h1).
Proof.
  intros Hlist Hmany. unfold getOneLetsGoAppRunnerService. rewrite run_bind, Hlist.
  by replace (1 <? Z.of_nat (length services)) with true by (symmetry; apply Z.ltb_lt; lia).
Qed.

(** When the one service found is in CREATE_FAILED, the run goes on with
    the delete flow and then the create flow. *)
Lemma ensureAppRunner_create_failed fuel options h summary h1 :
  getOneLetsGoAppRunnerService D P fuel options h = (Ret (Some summary), h1) →
  ss_Status summary = Some "CREATE_FAILED" →
  ensureAppRunner D P fuel options h
  = (_ ← deleteAppRunnerService P (region options) (orEmpty (ss_ServiceArn summary));
     createAppRunnerService D P fuel options) h1.
Proof.
  intros Hone Hstatus. unfold ensureAppRunner. rewrite run_bind, Hone. simpl.
  rewrite Hstatus. simpl. rewrite !run_bind.
  by destruct (deleteAppRunnerService P _ _ h1) as [[[]|f|e|] h2].
Qed.

End Dispatch.

Lemma only_not_mutation t : only listKinds t → Forall (λ e, isMutation (kindOf e) = false) t.
Proof.
  intros Ht. eapply Forall_impl; [exact Ht |]. intros e He. simpl in He.
  destruct (kindOf e); vm_compute in He |- *; congruence.
Qed.

Lemma only_not_update_only t :
  only (deleteKinds ++ createKinds) t → Forall (λ e, kindOf e ∉ updateOnlyKinds) t.
Proof.
  intros Ht. eapply Forall_impl; [exact Ht |]. intros e He Hin. simpl in He.
  apply (bool_decide_eq_true_2 _) in Hin.
  destruct (kindOf e); vm_compute in He, Hin; congruence.
Qed.

(** ** Fuel: more of it never changes what a run did *)

Lemma sameUnlessDiverge_refl {A} (m : M A) : sameUnlessDiverge m m.
Proof. by intros h _. Qed.

Lemma sameUnlessDiverge_bind {A B} (m m' : M A) (k k' : A → M B) :
  sameUnlessDiverge m m' → (∀ a, sameUnlessDiverge (k a) (k' a)) →
  sameUnlessDiverge (m ≫= k) (m' ≫= k').
Proof.
  intros Hm Hk h Hrun. rewrite !run_bind in *.
  rewrite (Hm h); [| by destruct (m h) as [[a|f|e|] h1]].
  destruct (m h) as [[a|f|e|] h1]; try done. by apply Hk.
Qed.

Ltac fuel_step :=
  match goal with
  | |- sameUnlessDiverge ?m ?m => apply sameUnlessDiverge_refl
  | |- sameUnlessDiverge (mbind _ _) (mbind _ _) => apply sameUnlessDiverge_bind; [| intros ?]
  | |- sameUnlessDiverge (if ?b then _ else _) _ => destruct b
  | |- sameUnlessDiverge (match ?x with _ => _ end) _ => destruct x
  end.

Section Fuel.

Variable D : Defaults.
Variable P : Provider.
Variables fuel fuel' : nat.
Hypothesis Hfuel : (fuel ≤ fuel')%nat.

Lemma waitForAppRunnerService_terminates region serviceArn maxWait isDeleting h :
  (waitForAppRunnerService P region serviceArn maxWait isDeleting h).1 ≠ Diverge.
Proof. apply waitLoop_terminates; lia. Qed.

Lemma deleteUnusedPages_fuel region name nextToken :
  sameUnlessDiverge (deleteUnusedPages P fuel region name nextToken)
    (deleteUnusedPages P fuel' region name nextToken).
Proof.
  clear D. revert fuel' Hfuel nextToken.
  induction fuel as [|n IH]; intros [|n'] Hle nextToken; try lia; [by intros h | by intros h |].
  simpl. repeat fuel_step. apply IH. lia.
Qed.

Lemma listLetsGoPages_fuel region deployment component nextToken services :
  sameUnlessDiverge (listLetsGoPages D P fuel region deployment component nextToken services)
    (listLetsGoPages D P fuel' region deployment component nextToken services).
Proof.
  revert fuel' Hfuel nextToken services.
  induction fuel as [|n IH]; intros [|n'] Hle nextToken services; try lia;
    [by intros h | by intros h |].
  simpl. repeat fuel_step. apply IH. lia.
Qed.

Lemma createAppRunnerService_fuel options :
  sameUnlessDiverge (createAppRunnerService D P fuel options)
    (createAppRunnerService D P fuel' options).
Proof.
  unfold createAppRunnerService, deleteUnusedAutoScalingConfigurations.
  fuel_step; [fuel_step |]. fuel_step; [apply deleteUnusedPages_fuel |]. repeat fuel_step.
Qed.

Lemma updateAppRunnerService_fuel options existingService :
  sameUnlessDiverge (updateAppRunnerService D P fuel options existingService)
    (updateAppRunnerService D P fuel' options existingService).
Proof.
  unfold updateAppRunnerService, decideUpdate, deleteUnusedAutoScalingConfigurations.
  fuel_step; [| fuel_step].
  fuel_step; [fuel_step |]. fuel_step; [apply deleteUnusedPages_fuel |]. repeat fuel_step.
Qed.

(** A run of the engine that did not run out of fuel is the same run with
    any larger amount of it. *)
Lemma ensureAppRunner_fuel options :
  sameUnlessDiverge (ensureAppRunner D P fuel options) (ensureAppRunner D P fuel' options).
Proof.
  unfold ensureAppRunner, getOneLetsGoAppRunnerService, listLetsGoAppRunnerServices.
  fuel_step.
  - fuel_step; [apply listLetsGoPages_fuel | repeat fuel_step].
  - fuel_step; [fuel_step |].
    fuel_step; [repeat fuel_step |].
    fuel_step; [repeat fuel_step |].
    destruct a1; [destruct (bool_decide _) |];
      first [apply createAppRunnerService_fuel | apply updateAppRunnerService_fuel].
Qed.

End Fuel.

(** * The claims of the specification *)

(** ** The polling waiter (4.2) *)

(** C2, as the specification words it, fails: with a service that stays in
    OPERATION_IN_PROGRESS for the 7 seconds of the bound, waiting for RUNNING
    returns absent although a record was observed last, and waiting for
    DELETED returns that record rather than absent. *)
Lemma waiter_timeout_result_counterexample :
  let run := λ isDeleting,
    waitForAppRunnerService busyProvider "eu-west-1" "arn:aws:apprunner:web" 7 isDeleting [] in
  let observed := Some (serviceWithStatus "OPERATION_IN_PROGRESS") in
  last (run false).2 = Some (EvDescribeService "arn:aws:apprunner:web" (Resolved observed))
  ∧ (run false).1 = Ret None
  ∧ (run false).1 ≠ Ret (specTimeoutResult false observed)
  ∧ last (run true).2 = Some (EvDescribeService "arn:aws:apprunner:web" (Resolved observed))
  ∧ (run true).1 = Ret observed
  ∧ (run true).1 ≠ Ret (specTimeoutResult true observed).
Proof. vm_compute. repeat split; congruence. Qed.

(** C2, amended: when the bound elapses while every poll reports
    OPERATION_IN_PROGRESS, the waiter returns absent when the target is
    reachRunning and the last-observed record when the target is
    reachDeleted; and a reachRunning call returns a record (reports success)
    only when the poll just made observed RUNNING. *)
Theorem waiter_timeout_result (P : Provider) (region serviceArn : string) (maxWait : Z)
    (h : History) :
  ((∀ h', ∃ svc, DescribeServiceCommand P h' region serviceArn = Resolved (Some svc)
                 ∧ Status svc = Some "OPERATION_IN_PROGRESS") →
   ∀ isDeleting, ∃ svc t,
     waitForAppRunnerService P region serviceArn maxWait isDeleting h
     = (Ret (if isDeleting then Some svc else None),
        (h ++ t) ++ [EvDescribeService serviceArn (Resolved (Some svc))])
     ∧ DescribeServiceCommand P (h ++ t) region serviceArn = Resolved (Some svc)
     ∧ Status svc = Some "OPERATION_IN_PROGRESS")
  ∧ (∀ s h', waitForAppRunnerService P region serviceArn maxWait false h = (Ret (Some s), h') →
       Status s = Some "RUNNING"
       ∧ ∃ t, h' = (h ++ t) ++ [EvDescribeService serviceArn (Resolved (Some s))]
              ∧ DescribeServiceCommand P (h ++ t) region serviceArn = Resolved (Some s)).
Proof.
  split.
  - intros Hbusy isDeleting. unfold waitForAppRunnerService.
    apply waitLoop_timeout; [done | lia | lia].
  - intros s h'. apply waitLoop_running.
Qed.

Lemma waiter_timeout_result_witness :
  (∀ isDeleting, ∃ svc t,
     waitForAppRunnerService busyProvider "eu-west-1" "arn:aws:apprunner:web" 7 isDeleting []
     = (Ret (if isDeleting then Some svc else None),
        ([] ++ t) ++ [EvDescribeService "arn:aws:apprunner:web" (Resolved (Some svc))])
     ∧ DescribeServiceCommand busyProvider ([] ++ t) "eu-west-1" "arn:aws:apprunner:web"
       = Resolved (Some svc)
     ∧ Status svc = Some "OPERATION_IN_PROGRESS")
  ∧ (Status (serviceWithStatus "RUNNING") = Some "RUNNING"
     ∧ ∃ t, (waitForAppRunnerService settlingProvider "eu-west-1" "arn:aws:apprunner:web" 7
               false []).2
            = ([] ++ t)
              ++ [EvDescribeService "arn:aws:apprunner:web"
                    (Resolved (Some (serviceWithStatus "RUNNING")))]
            ∧ DescribeServiceCommand settlingProvider ([] ++ t) "eu-west-1"
                "arn:aws:apprunner:web"
              = Resolved (Some (serviceWithStatus "RUNNING"))).
Proof.
  split.
  - apply (proj1 (waiter_timeout_result busyProvider "eu-west-1" "arn:aws:apprunner:web" 7 [])).
    intros h'. exists (serviceWithStatus "OPERATION_IN_PROGRESS"). split; reflexivity.
  - apply (proj2 (waiter_timeout_result settlingProvider "eu-west-1" "arn:aws:apprunner:web" 7
                    [])).
    vm_compute. reflexivity.
Defined.

(** C4, as the specification words it, fails: the sixth poll happens 5
    seconds in, and the loop then sleeps 1 second where the specification's
    schedule gives 2 seconds for the interval [5,20). *)
Lemma waiter_delay_schedule_counterexample :
  ¬ scheduled specSchedule 0
      (waitForAppRunnerService busyProvider "eu-west-1" "arn:aws:apprunner:web" 7 false []).2.
Proof. vm_compute. intros (_ & _ & _ & _ & _ & Hsixth & _). discriminate Hsixth. Qed.

(** C4, amended: at every poll of the waiter the delay before the next
    describe call is determined by the seconds elapsed so far: 1s while
    elapsed is in [0,5], 2s in (5,20], 5s in (20,60] and 10s in (60,oo). *)
Theorem waiter_delay_schedule (P : Provider) (region serviceArn : string) (maxWait : Z)
    (isDeleting : bool) (h : History) :
  ∃ t, (waitForAppRunnerService P region serviceArn maxWait isDeleting h).2 = h ++ t
       ∧ scheduled schedule 0 t.
Proof. unfold waitForAppRunnerService. by apply waitLoop_scheduled. Qed.

(** ** The diff (4.3, 4.4) *)

(** C7: the variables category is part of the update plan if and only if
    the symmetric difference of the current and the desired key sets, the
    keys of ignoreConfigKeys left out on both sides, is not empty; the
    values bound to the keys are never looked at; and with ignoreConfigKeys
    = ["LEGACY_KEY"], current keys {A, LEGACY_KEY} and desired keys {A} the
    category is absent. *)
Theorem variables_category_iff_key_sets_differ :
  (∀ options existingService ecrRepositoryUrl newAutoScalingConfigurationArn desired,
     categoryName Variables
       ∈ updatePlan (decisions options existingService ecrRepositoryUrl
                       newAutoScalingConfigurationArn desired)
     ↔ differsVariables (currentSecrets existingService) desired (ignoreConfigKeys options))
  ∧ (∀ (current desired : gmap string string) (rebindCurrent rebindDesired : string → string)
       ignoreConfigKeys,
       configNeedsUpdate (Object_keys (rebindCurrent <$> current))
         (Object_keys (rebindDesired <$> desired)) ignoreConfigKeys
       = configNeedsUpdate (Object_keys current) (Object_keys desired) ignoreConfigKeys)
  ∧ categoryName Variables
      ∉ updatePlan (decisions webOptions (webService "v2" earlier)
                      "registry.example" None {[ "A" := "arn:aws:ssm:parameter/a-rotated" ]}).
Proof.
  split; [| split].
  - intros. rewrite updatePlan_elem. simpl. apply configNeedsUpdate_spec.
  - intros. apply eq_true_iff_eq. rewrite !configNeedsUpdate_spec.
    unfold differsVariables. by rewrite !dom_fmap_L.
  - rewrite updatePlan_elem. simpl. apply not_true_iff_false. vm_compute. reflexivity.
Qed.

(** ** The reclaim of unused revisions (4.3) *)

(** C5: in every create-flow and every update-flow the reclaim of unused
    autoscaling revisions runs before any creation of a revision: the flow
    starts with the registry lookup and the reclaim's own list and delete
    calls, and whatever follows them (all creations are among that) follows
    only after the reclaim returned; and when the reclaim returns it has
    asked for all pages of the name and deleted every listed revision that
    has no associated service and is active. *)
Theorem reclaim_precedes_revision_creation (D : Defaults) (P : Provider) (fuel : nat)
    (options : EnsureAppRunnerOptions) :
  (∀ h h', deleteUnusedAutoScalingConfigurations P fuel (region options)
             (autoScalingConfigurationName options) h = (Ret tt, h') →
           ∃ t, h' = h ++ t
                ∧ Reclaimed (autoScalingConfigurationName options) t
                ∧ ∀ revision, revision ∈ listedRevisions t →
                    acs_HasAssociatedService revision = Some false →
                    acs_Status revision = Some "active" →
                    acs_AutoScalingConfigurationArn revision ∈ deletedRevisions t)
  ∧ (∀ h, ReclaimsFirst P fuel options h (createAppRunnerService D P fuel options h).2)
  ∧ (∀ existingService h,
       ReclaimsFirst P fuel options h
         (updateAppRunnerService D P fuel options existingService h).2).
Proof.
  split; [| split].
  - intros h h' (t & -> & Hreclaimed)%deleteUnusedAutoScalingConfigurations_Ret.
    exists t. split; [done |]. split; [done |].
    intros revision Hlisted Hservice Hstatus.
    destruct Hreclaimed as (_ & _ & _ & ->).
    apply list_elem_of_fmap. exists revision. split; [done |].
    apply list_elem_of_In, filter_In. split; [by apply list_elem_of_In |].
    unfold isUnused. rewrite Hservice, Hstatus. reflexivity.
  - apply createAppRunnerService_reclaims_first.
  - apply updateAppRunnerService_reclaims_first.
Qed.

Lemma reclaim_precedes_revision_creation_witness :
  ∃ t, (deleteUnusedAutoScalingConfigurations (webProvider (Some newRevision)) 3 "eu-west-1"
          "letsgo-web" []).2 = [] ++ t
       ∧ Reclaimed "letsgo-web" t
       ∧ ∀ revision, revision ∈ listedRevisions t →
           acs_HasAssociatedService revision = Some false →
           acs_Status revision = Some "active" →
           acs_AutoScalingConfigurationArn revision ∈ deletedRevisions t.
Proof.
  apply (proj1 (reclaim_precedes_revision_creation defaults (webProvider (Some newRevision)) 3
                  webOptions) [] _).
  vm_compute. reflexivity.
Defined.

(** C6, as the specification words it, fails for the autoscaling category:
    the desired upper bound is 10 where the live revision has 5 and nothing
    else differs, a new revision is asked for, its ARN does not come back,
    and the update plan is empty. *)
Lemma diff_minimality_counterexample :
  (∀ c, differs c (Some liveRevision) (webService "v2" earlier) "registry.example"
          (configOf scaledOptions storedConfig) scaledOptions
        ↔ c = Autoscaling)
  ∧ updatePlan
      <$> returned (decideUpdate defaults (webProvider None) 3 scaledOptions
                      (webService "v2" earlier) []).1
    = Some []
  ∧ [] ≠ [categoryName Autoscaling].
Proof.
  split; [| split].
  - intros c. rewrite <- differsb_spec. destruct c; vm_compute; split; congruence.
  - vm_compute. reflexivity.
  - discriminate.
Qed.

(** C6, amended: for every pair (observed, desired) that differs in exactly
    one of the five categories, the update plan contains exactly that
    category and no other, provided, for the autoscaling category, that the
    creation of the new revision returned its ARN (the plan has the
    autoscaling category exactly when a created revision's ARN came back);
    and a new revision is created if and only if any of maxConcurrency,
    minSize, maxSize differs, by plain inequality.  The observed and desired
    state are what the run was answered: the registry address [url], the
    live revision [current] and the stored configuration [config]. *)
Theorem diff_minimality (D : Defaults) (P : Provider) (fuel : nat)
    (options : EnsureAppRunnerOptions) (existingService : Service) (h t : History)
    (d : UpdateDecisions) (url : string) (current : option AutoScalingConfiguration)
    (config : gmap string (gmap string (gmap string string))) :
  decideUpdate D P fuel options existingService h = (Ret d, h ++ t) →
  EvGetEcrRepositoryArn (region options) (ecrRepositoryName options) (Resolved url) ∈ t →
  EvDescribeAutoScalingConfiguration (orEmpty (svc_AutoScalingConfigurationArn existingService))
    (Resolved current) ∈ t →
  EvGetConfig (region options) (deployment options) (Resolved config) ∈ t →
  (differsAutoscaling current options
   ↔ ∃ r, EvCreateAutoScalingConfiguration (createAutoScalingConfigurationInput D options) r ∈ t)
  ∧ (planned Autoscaling d = true
     ↔ ∃ result,
         EvCreateAutoScalingConfiguration (createAutoScalingConfigurationInput D options)
           (Resolved result) ∈ t
         ∧ truthy (result ?. ac_AutoScalingConfigurationArn) = true)
  ∧ ∀ c, (∀ c', differs c' current existingService url (configOf options config) options
                ↔ c' = c) →
         (c = Autoscaling → planned Autoscaling d = true) →
         updatePlan d = [categoryName c].
Proof.
  intros Hrun Hurl Hcurrent Hconfig.
  destruct (decideUpdate_observed D P fuel options existingService h d t url current config
              Hrun Hurl Hcurrent Hconfig) as (Hd & t1 & created & Honly & Hcreated & Ht).
  assert (∀ input r, EvCreateAutoScalingConfiguration input r ∈ t →
                     EvCreateAutoScalingConfiguration input r ∈ created) as Hin.
  { intros input r [[=] | [Hin | [[=] | [Hin | [=]]]]]%Ht; [| done].
    by apply (only_excludes _ _ _ Honly) in Hin. }
  rewrite <- autoScalingNeedsUpdate_spec. simpl.
  destruct (autoScalingNeedsUpdate current options) eqn:Hneeds.
  - destruct Hcreated as (result & -> & Harn). split; [| split].
    + split; [| done]. intros _. exists (Resolved result). apply Ht. set_solver.
    + rewrite Harn. split.
      * intros Htruthy. exists result. split; [apply Ht; set_solver | done].
      * intros (result' & Hcreated & Htruthy). apply Hin in Hcreated.
        apply list_elem_of_singleton in Hcreated. by injection Hcreated as ->.
    + intros c Hone Hproviso. apply updatePlan_exactly. intros c'.
      destruct (decide (c' = Autoscaling)) as [-> | Hne].
      * split; [| by intros <-; apply Hproviso].
        intros _. apply Hone. by apply autoScalingNeedsUpdate_spec.
      * rewrite Hd, (decisions_planned _ _ _ _ _ current) by done.
        rewrite differsb_spec. apply Hone.
  - destruct Hcreated as [-> Harn]. split; [| split].
    + split; [done |]. intros [r Hr]. apply Hin in Hr. by apply not_elem_of_nil in Hr.
    + rewrite Harn. split; [done |].
      intros (result & Hr & _). apply Hin in Hr. by apply not_elem_of_nil in Hr.
    + intros c Hone Hproviso. apply updatePlan_exactly. intros c'.
      destruct (decide (c' = Autoscaling)) as [-> | Hne].
      * simpl. rewrite Harn. split; [done |]. intros <-.
        specialize (Hproviso eq_refl). simpl in Hproviso. by rewrite Harn in Hproviso.
      * rewrite Hd, (decisions_planned _ _ _ _ _ current) by done.
        rewrite differsb_spec. apply Hone.
Qed.

Lemma diff_minimality_witness :
  updatePlan scaledDecisions = [categoryName Autoscaling].
Proof.
  refine (proj2 (proj2 (diff_minimality defaults (webProvider (Some newRevision)) 3 scaledOptions
                          (webService "v2" earlier) []
                          (decideUpdate defaults (webProvider (Some newRevision)) 3
                             scaledOptions (webService "v2" earlier) []).2
                          scaledDecisions "registry.example" (Some liveRevision) storedConfig
                          _ _ _ _))
            Autoscaling _ _).
  - vm_compute. reflexivity.
  - vm_compute. repeat (first [apply list_elem_of_here | apply list_elem_of_further]).
  - vm_compute. repeat (first [apply list_elem_of_here | apply list_elem_of_further]).
  - vm_compute. repeat (first [apply list_elem_of_here | apply list_elem_of_further]).
  - intros c. rewrite <- differsb_spec. destruct c; vm_compute; split; congruence.
  - intros _. vm_compute. reflexivity.
Defined.

(** ** The update flow (4.5) *)

(** C3, as the specification words it, fails: the service has everything
    the options ask for, the update plan is empty, and the run ends without
    a tag call, while its reclaim has deleted two revisions. *)
Lemma update_tags_counterexample :
  let run := updateAppRunnerService defaults (webProvider (Some newRevision)) 3 webOptions
               (webService "v2" earlier) [] in
  updatePlan
    <$> returned (decideUpdate defaults (webProvider (Some newRevision)) 3 webOptions
                    (webService "v2" earlier) []).1
  = Some []
  ∧ run.1 = Ret tt
  ∧ Forall (λ e, kindOf e ≠ KTagResource) run.2
  ∧ List.filter isMutation (kindOf <$> run.2)
    = [KDeleteAutoScalingConfiguration; KDeleteAutoScalingConfiguration].
Proof.
  vm_compute. split; [done |]. split; [done |]. split; [| done].
  repeat constructor; discriminate.
Qed.

(** C3, amended: in every update-flow run the tag call is gated by the
    computed diff.  When the update plan is empty the flow ends where the
    plan was computed: it sends no update request and no tag call, and the
    only calls it has made are the registry lookup, the reclaim's list and
    delete calls, the describe and (when the bounds differ) create call for
    the revision, and the configuration lookup.  When the update plan is not
    empty, the tags are applied right after the update request is accepted,
    and only polling follows. *)
Theorem update_tags_gated_by_plan (D : Defaults) (P : Provider) (fuel : nat)
    (options : EnsureAppRunnerOptions) (existingService : Service) (h h1 : History)
    (d : UpdateDecisions) :
  decideUpdate D P fuel options existingService h = (Ret d, h1) →
  (∃ t, h1 = h ++ t ∧ only decideKinds t)
  ∧ (updatePlan d = [] →
     updateAppRunnerService D P fuel options existingService h = (Ret tt, h1))
  ∧ (updatePlan d ≠ [] →
     let updatedAt := Date_toISOString P h1 in
     let input := updateServiceInput options existingService d updatedAt in
     let r := UpdateServiceCommand P (h1 ++ [EvNow updatedAt]) (region options) input in
     let h2 := h1 ++ [EvNow updatedAt; EvUpdateService input r] in
     match r with
     | Rejected e =>
         updateAppRunnerService D P fuel options existingService h = (Throw e, h2)
     | Resolved _ =>
         ∃ r' t,
           (updateAppRunnerService D P fuel options existingService h).2
           = h2 ++ EvTagResource (ServiceArn existingService) (tagsOf D options) r' :: t
           ∧ only [KDescribeService; KSleep] t
     end).
Proof.
  intros Hdecide. split; [| split].
  - destruct (decideUpdate_emits D P fuel options existingService h) as (t & Ht & Honly).
    rewrite Hdecide in Ht. by exists t.
  - intros Hplan. unfold updateAppRunnerService. rewrite run_bind, Hdecide.
    by apply applyUpdate_empty.
  - intros Hplan. cbv zeta. unfold updateAppRunnerService. rewrite run_bind, Hdecide.
    rewrite (applyUpdate_nonempty D P options existingService d h1 Hplan). cbv zeta.
    rewrite <- !app_assoc. simpl.
    destruct (UpdateServiceCommand P _ (region options) _) as [[]|e]; [| done].
    match goal with
    | |- context [TagResourceCommand P ?h2 ?r ?a ?tags] =>
        exists (TagResourceCommand P h2 r a tags)
    end.
    destruct (TagResourceCommand P _ (region options) _ _) as [[]|e].
    + match goal with
      | |- context [waitForAppRunnerService P ?r ?a ?m ?b ?h3] =>
          destruct (waitForAppRunnerService_emits P r a m b h3) as (t & Ht & Honly);
          destruct (waitForAppRunnerService P r a m b h3) as [[[service|]|f|e|] h4]
      end; simpl in Ht; subst h4; exists t; (split; [| done]);
        rewrite <- ?app_assoc; done.
    + exists []. split; [| apply only_nil]. by rewrite <- ?app_assoc.
Qed.

Lemma update_tags_gated_by_plan_witness :
  updateAppRunnerService defaults (webProvider (Some newRevision)) 3 webOptions
    (webService "v2" earlier) []
  = (Ret tt,
     (decideUpdate defaults (webProvider (Some newRevision)) 3 webOptions
        (webService "v2" earlier) []).2).
Proof.
  refine (proj1 (proj2 (update_tags_gated_by_plan defaults (webProvider (Some newRevision)) 3
                          webOptions (webService "v2" earlier) [] _ convergedDecisions _)) _).
  - vm_compute. reflexivity.
  - vm_compute. reflexivity.
Defined.

(** C1 fails on the code, which is at fault.  The service differs from the
    options in its image only, so the update plan is ["image"] and not
    empty; the update request that is sent carries no variable bindings and
    with them no fingerprint; the provider accepts the request and the
    service reaches RUNNING with the image asked for; the flow nevertheless
    compares the record's fingerprint with the timestamp it never sent and
    ends in RolledBack. *)
Theorem update_request_without_fingerprint :
  let run := updateAppRunnerService defaults (webProvider (Some newRevision)) 3 webOptions
               (webService "v1" earlier) [] in
  updatePlan
    <$> returned (decideUpdate defaults (webProvider (Some newRevision)) 3 webOptions
                    (webService "v1" earlier) []).1
  = Some ["image"]
  ∧ requestFingerprint <$> updateRequests run.2 = [None]
  ∧ last run.2
    = Some (EvDescribeService "arn:aws:apprunner:web" (Resolved (Some (webService "v2" earlier))))
  ∧ Status (webService "v2" earlier) = Some "RUNNING"
  ∧ svc_SourceConfiguration (webService "v2" earlier) ?. sc_ImageRepository ?. ImageIdentifier
    = Some (imageIdentifier "registry.example" webOptions)
  ∧ run.1 = Exit RolledBack.
Proof. vm_compute. by repeat split. Qed.

(** ** Discovery and dispatch (4.5) *)

(** C8: whenever discovery yields exactly one service summary, with status
    CREATE_FAILED, the run goes on with the delete flow for that service
    and, once that has returned, with the create flow.  The delete request
    is the first call after discovery, the create flow runs only after the
    delete flow returned (after an accepted delete request: only after the
    wait for DELETED returned absent), and no call of the update flow is
    ever made. *)
Theorem create_failed_is_deleted_then_created (D : Defaults) (P : Provider) (fuel : nat)
    (options : EnsureAppRunnerOptions) (h h1 : History) (summary : ServiceSummary) :
  listLetsGoAppRunnerServices D P fuel (region options) (Some (deployment options))
    (Some (component options)) h = (Ret [summary], h1) →
  ss_Status summary = Some "CREATE_FAILED" →
  let serviceArn := orEmpty (ss_ServiceArn summary) in
  let deleted := DeleteServiceCommand P h1 (region options) serviceArn in
  ensureAppRunner D P fuel options h
  = (_ ← deleteAppRunnerService P (region options) serviceArn;
     createAppRunnerService D P fuel options) h1
  ∧ ∃ polls created,
      (ensureAppRunner D P fuel options h).2
      = h1 ++ EvDeleteService serviceArn deleted :: polls ++ created
      ∧ only [KDescribeService; KSleep] polls
      ∧ only createKinds created
      ∧ Forall (λ e, kindOf e ∉ updateOnlyKinds) (polls ++ created)
      ∧ (created ≠ [] →
         deleteAppRunnerService P (region options) serviceArn h1
         = (Ret tt, h1 ++ EvDeleteService serviceArn deleted :: polls)
         ∧ (deleted = Resolved tt →
            waitForAppRunnerService P (region options) serviceArn
              MaxWaitTimeForAppRunnerUpdate true
              (h1 ++ [EvDeleteService serviceArn (Resolved tt)])
            = (Ret None, h1 ++ EvDeleteService serviceArn deleted :: polls))).
Proof.
  intros Hlist Hstatus. cbv zeta.
  apply getOneLetsGoAppRunnerService_one in Hlist.
  pose proof (ensureAppRunner_create_failed D P fuel options h summary h1 Hlist Hstatus)
    as Hensure.
  split; [done |]. rewrite Hensure.
  destruct (deleteAppRunnerService_trace P (region options) (orEmpty (ss_ServiceArn summary)) h1)
    as (polls & Hpolls & Honly).
  destruct (bind_prefix createKinds
              (deleteAppRunnerService P (region options) (orEmpty (ss_ServiceArn summary)))
              (λ _, createAppRunnerService D P fuel options) h1)
    as (created & Hcreated & Honly' & Hret).
  { intros _. apply createAppRunnerService_emits. }
  exists polls, created. rewrite Hcreated, Hpolls, <- app_assoc.
  split; [done |]. split; [done |]. split; [done |]. split.
  - apply only_not_update_only. apply only_app.
    + eapply only_mono; [| exact Honly]. kinds_sub.
    + eapply only_mono; [| exact Honly']. kinds_sub.
  - intros Hne. destruct (Hret Hne) as [[] Hfst].
    assert (deleteAppRunnerService P (region options) (orEmpty (ss_ServiceArn summary)) h1
            = (Ret tt,
               h1 ++ EvDeleteService (orEmpty (ss_ServiceArn summary))
                       (DeleteServiceCommand P h1 (region options)
                          (orEmpty (ss_ServiceArn summary))) :: polls)) as Hdelete.
    { destruct (deleteAppRunnerService P _ _ h1) as [o h2]. simpl in *. by subst. }
    split; [done |]. intros Hresolved.
    by apply deleteAppRunnerService_Ret in Hdelete.
Qed.

Lemma create_failed_is_deleted_then_created_witness :
  ensureAppRunner defaults failedProvider 3 webOptions []
  = (_ ← deleteAppRunnerService failedProvider "eu-west-1" "arn:aws:apprunner:web";
     createAppRunnerService defaults failedProvider 3 webOptions)
      (listLetsGoAppRunnerServices defaults failedProvider 3 "eu-west-1" (Some "main")
         (Some "web") []).2.
Proof.
  refine (proj1 (create_failed_is_deleted_then_created defaults failedProvider 3 webOptions []
                   _ (summary "web" "CREATE_FAILED") _ _)).
  - vm_compute. reflexivity.
  - reflexivity.
Defined.

(** C9: whenever discovery finds two or more service summaries for the
    identity, the run ends in the fatal outcome Ambiguous, which names all
    of them and picks none; up to there it has only listed services and
    their tags: no create, update, delete or tag call was made. *)
Theorem ambiguous_discovery_is_fatal (D : Defaults) (P : Provider) (fuel : nat)
    (options : EnsureAppRunnerOptions) (h h1 : History) (services : list ServiceSummary) :
  listLetsGoAppRunnerServices D P fuel (region options) (Some (deployment options))
    (Some (component options)) h = (Ret services, h1) →
  (2 ≤ length services)%nat →
  ensureAppRunner D P fuel options h = (Exit (Ambiguous services), h1)
  ∧ ∃ t, h1 = h ++ t
         ∧ only listKinds t
         ∧ Forall (λ e, isMutation (kindOf e) = false) t.
Proof.
  intros Hlist Hmany. split.
  - unfold ensureAppRunner. rewrite run_bind.
    by rewrite (getOneLetsGoAppRunnerService_many D P fuel options h services h1 Hlist Hmany).
  - destruct (listLetsGoPages_emits D P fuel (region options) (Some (deployment options))
                (Some (component options)) None [] h) as (t & Ht & Honly).
    fold (listLetsGoAppRunnerServices D P fuel (region options) (Some (deployment options))
            (Some (component options))) in Ht.
    rewrite Hlist in Ht. exists t. split; [done |]. split; [done |].
    by apply only_not_mutation.
Qed.

Lemma ambiguous_discovery_is_fatal_witness :
  ensureAppRunner defaults twinsProvider 3 webOptions []
  = (Exit (Ambiguous [summary "web" "RUNNING"; summary "web-old" "RUNNING"]),
     (listLetsGoAppRunnerServices defaults twinsProvider 3 "eu-west-1" (Some "main")
        (Some "web") []).2).
Proof.
  refine (proj1 (ambiguous_discovery_is_fatal defaults twinsProvider 3 webOptions [] _
                   [summary "web" "RUNNING"; summary "web-old" "RUNNING"] _ _)).
  - vm_compute. reflexivity.
  - simpl. lia.
Defined.

(** C10: every service summary that the listing returns was listed by the
    provider and carries a nonempty deployment tag and a nonempty component
    tag in the tags read for it, whatever filter is given (none, too); and
    the list is returned only when the pages were drained: the first call
    sends no token, every further call sends the continuation token of the
    page before it, and the last page has none. *)
Theorem listed_services_carry_both_tags (D : Defaults) (P : Provider) (fuel : nat)
    (region : string) (deployment component : option string) (h h' : History)
    (services : list ServiceSummary) :
  listLetsGoAppRunnerServices D P fuel region deployment component h = (Ret services, h') →
  ∃ t, h' = h ++ t
       ∧ drained ls_NextToken None (servicePages t)
       ∧ ∀ service, service ∈ services →
           service ∈ listedServices t
           ∧ ∃ tags, EvListTagsForResource (orEmpty (ss_ServiceArn service)) (Resolved tags) ∈ t
                     ∧ carriesTag tags (TagKeys_LetsGoDeployment D)
                     ∧ carriesTag tags (TagKeys_LetsGoComponent D).
Proof.
  intros (t & -> & Hdrained & Hkept)%listLetsGoPages_Ret.
  exists t. split; [done |]. split; [done |].
  intros service Hin. destruct (Hkept service Hin) as [Hnil | (Hlisted & tags & Hev & Hok)].
  - by apply not_elem_of_nil in Hnil.
  - split; [done |]. exists tags. split; [done |]. by eapply isLetsGoService_carries.
Qed.

Lemma listed_services_carry_both_tags_witness :
  ∃ t, (listLetsGoAppRunnerServices defaults twinsProvider 3 "eu-west-1" None None []).2 = [] ++ t
       ∧ drained ls_NextToken None (servicePages t)
       ∧ ∀ service, service ∈ [summary "web" "RUNNING"; summary "web-old" "RUNNING"] →
           service ∈ listedServices t
           ∧ ∃ tags, EvListTagsForResource (orEmpty (ss_ServiceArn service)) (Resolved tags) ∈ t
                     ∧ carriesTag tags "LetsGoDeployment"
                     ∧ carriesTag tags "LetsGoComponent".
Proof.
  apply (listed_services_carry_both_tags defaults twinsProvider 3 "eu-west-1" None None [] _
           [summary "web" "RUNNING"; summary "web-old" "RUNNING"]).
  vm_compute. reflexivity.
Defined.

(** * More of the engine's behaviour: proofs *)

(** ** The polling waiter *)

Lemma nextDelay_le clock delay : delay ≤ 10 → nextDelay clock delay ≤ 10.
Proof. intros Hd. unfold nextDelay. repeat case_match; lia. Qed.

Lemma count_app k t1 t2 : count k (t1 ++ t2) = (count k t1 + count k t2)%nat.
Proof. unfold count. by rewrite List.filter_app, length_app. Qed.

Lemma sleptSeconds_app t1 t2 : sleptSeconds (t1 ++ t2) = sleptSeconds t1 + sleptSeconds t2.
Proof.
  induction t1 as [|e t1 IH]; [done |]. destruct e; simpl; rewrite ?IH; lia.
Qed.

Lemma waitLoop_budget P region serviceArn maxWait isDeleting fuel clock delay h :
  1 ≤ delay ≤ 10 → Z.max 0 (maxWait - clock) < Z.of_nat fuel →
  ∃ t, (waitLoop P fuel region serviceArn maxWait isDeleting clock delay h).2 = h ++ t
       ∧ polling serviceArn t
       ∧ 0 ≤ sleptSeconds t
       ∧ (maxWait ≤ clock → sleptSeconds t = 0)
       ∧ (clock < maxWait → clock + sleptSeconds t < maxWait + 10)
       ∧ Z.of_nat (count [KDescribeService] t) ≤ Z.max 0 (maxWait - clock) + 1.
Proof.
  revert clock delay h. induction fuel as [|fuel IH]; intros clock delay h Hd Hfuel; [lia |].
  rewrite waitLoop_S. cbv zeta.
  set (r := DescribeServiceCommand P h region serviceArn).
  destruct (verdict isDeleting r) as [o|service].
  - exists [EvDescribeService serviceArn r]. unfold count. simpl. repeat split; try done; lia.
  - destruct (clock >=? maxWait) eqn:Hc.
    + exists [EvDescribeService serviceArn r]. unfold count. simpl. repeat split; try done; lia.
    + pose proof (nextDelay_pos clock delay (proj1 Hd)) as Hpos.
      pose proof (nextDelay_le clock delay (proj2 Hd)) as Hle.
      destruct (IH (clock + nextDelay clock delay) (nextDelay clock delay)
                  ((h ++ [EvDescribeService serviceArn r]) ++ [EvSleep (nextDelay clock delay)]))
        as (t & Ht & Hpoll & Hnn & Hzero & Hbound & Hcount); [lia | lia |].
      exists (EvDescribeService serviceArn r :: EvSleep (nextDelay clock delay) :: t).
      rewrite Ht, <- !app_assoc. simpl.
      split; [done |]. split; [done |]. split; [lia |]. split; [lia |].
      split; [| unfold count in *; simpl; lia].
      intros _. destruct (decide (maxWait ≤ clock + nextDelay clock delay)) as [Hge | Hlt].
      * rewrite (Hzero Hge). lia.
      * specialize (Hbound ltac:(lia)). lia.
Qed.

Lemma verdict_Stop isDeleting r o :
  verdict isDeleting r = Stop o → waitEnded isDeleting o r.
Proof.
  unfold verdict. destruct r as [service|e].
  - destruct isDeleting.
    + destruct (bool_decide (service ?. Status = Some "DELETED")) eqn:Hdel.
      * intros [= <-]. simpl. right. exists service.
        by apply bool_decide_eq_true_1 in Hdel.
      * destruct (strictNe _ _) eqn:Hne; [| done]. intros [= <-]. simpl.
        exists service. apply bool_decide_eq_false_1 in Hdel.
        by apply (proj1 (strictNe_true _ _)) in Hne.
    + destruct (bool_decide (service ?. Status = Some "RUNNING")) eqn:Hrun.
      * intros [= <-]. apply bool_decide_eq_true_1 in Hrun.
        destruct service as [service|]; [| done]. by simpl.
      * destruct (strictNe _ _) eqn:Hne; [| done]. intros [= <-]. simpl.
        exists service. apply bool_decide_eq_false_1 in Hrun.
        by apply (proj1 (strictNe_true _ _)) in Hne.
  - destruct (bool_decide (err_name e = "ResourceNotFoundException")) eqn:Hname; simpl.
    + apply bool_decide_eq_true_1 in Hname. destruct isDeleting; intros [= <-]; simpl.
      * left. by exists e.
      * split; [done |]. done.
    + apply bool_decide_eq_false_1 in Hname. intros [= <-]. by simpl.
Qed.

Lemma waitLoop_ended P region serviceArn maxWait isDeleting fuel clock delay h o h' :
  1 ≤ delay → Z.max 0 (maxWait - clock) < Z.of_nat fuel →
  waitLoop P fuel region serviceArn maxWait isDeleting clock delay h = (o, h') →
  ∃ t, h' = (h ++ t)
            ++ [EvDescribeService serviceArn (DescribeServiceCommand P (h ++ t) region serviceArn)]
       ∧ waitEnded isDeleting o (DescribeServiceCommand P (h ++ t) region serviceArn).
Proof.
  revert clock delay h. induction fuel as [|fuel IH]; intros clock delay h Hd Hfuel; [lia |].
  rewrite waitLoop_S. cbv zeta.
  destruct (verdict isDeleting _) as [o'|service] eqn:Hv.
  - intros [= <- <-]. exists []. rewrite app_nil_r. split; [done |].
    by apply verdict_Stop.
  - apply verdict_InProgress in Hv as [Hr Hstatus].
    destruct (clock >=? maxWait) eqn:Hc.
    + intros [= <- <-]. exists []. rewrite app_nil_r. split; [done |].
      rewrite Hr. destruct service as [service|]; [| done].
      destruct isDeleting; simpl; [done |]. by exists service.
    + intros Hrun. pose proof (nextDelay_pos clock delay Hd).
      apply IH in Hrun as (t & -> & Hend); [| lia | lia].
      exists (EvDescribeService serviceArn (DescribeServiceCommand P h region serviceArn)
              :: EvSleep (nextDelay clock delay) :: t).
      rewrite <- ?app_assoc in *. simpl in *. by rewrite <- ?app_assoc in *.
Qed.

(** X1: the waiter always comes to an end.  Its trace is a describe call
    for the service, then sleep and describe in turn; it makes at most
    maxWait + 1 describe calls, does not sleep at all when maxWait is not
    positive, and otherwise sleeps less than maxWait + 10 seconds in all. *)
Theorem waiter_budget (P : Provider) (region serviceArn : string) (maxWait : Z)
    (isDeleting : bool) (h : History) :
  (waitForAppRunnerService P region serviceArn maxWait isDeleting h).1 ≠ Diverge
  ∧ ∃ t, (waitForAppRunnerService P region serviceArn maxWait isDeleting h).2 = h ++ t
         ∧ polling serviceArn t
         ∧ Z.of_nat (count [KDescribeService] t) ≤ Z.max 0 maxWait + 1
         ∧ 0 ≤ sleptSeconds t
         ∧ (maxWait ≤ 0 → t = [EvDescribeService serviceArn
                                  (DescribeServiceCommand P h region serviceArn)])
         ∧ (0 < maxWait → sleptSeconds t < maxWait + 10).
Proof.
  split; [apply waitLoop_terminates; lia |].
  unfold waitForAppRunnerService.
  destruct (waitLoop_budget P region serviceArn maxWait isDeleting (S (Z.to_nat maxWait)) 0 1 h)
    as (t & Ht & Hpoll & Hnn & Hzero & Hbound & Hcount); [lia | lia |].
  exists t. split; [done |]. split; [done |].
  split; [by rewrite Z.sub_0_r in Hcount |]. split; [done |]. split; [| intros; lia].
  intros Hle. rewrite waitLoop_S in Ht. cbv zeta in Ht.
  replace (0 >=? maxWait) with true in Ht by (symmetry; apply Z.geb_le; lia).
  destruct (verdict isDeleting _); simpl in Ht; by apply app_inv_head in Ht.
Qed.

Lemma waitForAppRunnerService_ended P region serviceArn maxWait isDeleting h o h' :
  waitForAppRunnerService P region serviceArn maxWait isDeleting h = (o, h') →
  ∃ t, h' = (h ++ t)
            ++ [EvDescribeService serviceArn (DescribeServiceCommand P (h ++ t) region serviceArn)]
       ∧ waitEnded isDeleting o (DescribeServiceCommand P (h ++ t) region serviceArn).
Proof. apply waitLoop_ended; lia. Qed.



(** ** Counting the interactions of a run *)

Lemma count_only_zero ks t : only (others ks) t → count ks t = 0%nat.
Proof.
  intros Ht. unfold count. induction Ht as [|e t He Ht IH]; [done |]. simpl.
  destruct (bool_decide (kindOf e ∈ ks)) eqn:Hek; [| done].
  apply bool_decide_eq_true_1 in He. unfold others in He.
  apply list_elem_of_In, filter_In in He as [_ He]. by rewrite Hek in He.
Qed.

Lemma atMost_zero {A} ks (m : M A) : emits (others ks) m → atMost ks 0 m.
Proof.
  intros Hm h. destruct (Hm h) as (t & Ht & Honly). exists t. split; [done |].
  by rewrite (count_only_zero ks t Honly).
Qed.

Lemma atMost_mono {A} ks n n' (m : M A) : (n ≤ n')%nat → atMost ks n m → atMost ks n' m.
Proof.
  intros Hn Hm h. destruct (Hm h) as (t & Ht & Hc). exists t. split; [done | lia].
Qed.

Lemma atMost_bind {A B} ks n1 n2 (m : M A) (f : A → M B) :
  atMost ks n1 m → (∀ a, atMost ks n2 (f a)) → atMost ks (n1 + n2) (m ≫= f).
Proof.
  intros Hm Hf h. rewrite run_bind. destruct (Hm h) as (t & Ht & Hc).
  destruct (m h) as [[a|x|e|] h1]; simpl in Ht; subst h1;
    try (exists t; split; [done | lia]).
  destruct (Hf a (h ++ t)) as (t' & Ht' & Hc'). exists (t ++ t').
  rewrite Ht', app_assoc, count_app. split; [done | lia].
Qed.

Lemma atMost_bind_l {A B} ks n (m : M A) (f : A → M B) :
  atMost ks n m → (∀ a, atMost ks 0 (f a)) → atMost ks n (m ≫= f).
Proof.
  intros Hm Hf. apply (atMost_mono ks (n + 0)); [lia |]. by apply atMost_bind.
Qed.

Lemma atMost_bind_r {A B} ks n (m : M A) (f : A → M B) :
  atMost ks 0 m → (∀ a, atMost ks n (f a)) → atMost ks n (m ≫= f).
Proof. intros Hm Hf. by apply (atMost_bind ks 0 n). Qed.

Lemma atMost_await {A} ks (call : History → Result A) (ev : Result A → Event) :
  atMost ks 1 (await call ev).
Proof.
  intros h. exists [ev (call h)]. rewrite run_await. split; [by destruct (call h) |].
  unfold count. simpl. destruct (bool_decide _); simpl; lia.
Qed.

Lemma atMost_settle {A} ks (call : History → Result A) (ev : Result A → Event) :
  atMost ks 1 (settle call ev).
Proof.
  intros h. exists [ev (call h)]. split; [done |].
  unfold count. simpl. destruct (bool_decide _); simpl; lia.
Qed.

(** The kinds of a run, from the lemmas about the functions and the shape
    of the rest. *)
Ltac emits_known :=
  first [ emits_by waitForAppRunnerService_emits
        | emits_by awaitConfig_emits
        | emits_by deleteUnusedPages_emits
        | emits_by describeService_emits
        | emits_by listLetsGoPages_emits ].

Ltac emits_auto := repeat first [emits_known | emits_step].

(** A part of a run that makes no interaction of the kinds counted. *)
Ltac zero := apply atMost_zero; emits_auto.

(** Spend the budget of a run: the parts that make no interaction of the
    kinds counted are passed over, the one call that does takes it. *)
Ltac budget :=
  match goal with
  | |- atMost _ 0 _ => solve [zero]
  | |- atMost _ _ (mbind _ _) =>
      first [ apply atMost_bind_r; [solve [zero] | intros ?; budget]
            | apply atMost_bind_l; [budget | intros ?; solve [zero]] ]
  | |- atMost _ 1 (await _ _) => apply atMost_await
  | |- atMost _ 1 (settle _ _) => apply atMost_settle
  | |- atMost _ _ (if ?b then _ else _) => destruct b; budget
  | |- atMost _ _ (match ?x with _ => _ end) => destruct x; budget
  | |- atMost _ _ _ => solve [eapply (atMost_mono _ 0); [lia | zero]]
  end.

(** The engine as the calls it is made of. *)
Ltac unfold_engine :=
  unfold ensureAppRunner, getOneLetsGoAppRunnerService, listLetsGoAppRunnerServices,
    createAppRunnerService, updateAppRunnerService, decideUpdate, applyUpdate,
    deleteAppRunnerService, deleteUnusedAutoScalingConfigurations.

Section Budget.

Variable D : Defaults.
Variable P : Provider.
Variable fuel : nat.
Variable options : EnsureAppRunnerOptions.

Lemma ensureAppRunner_one_service_change :
  atMost [KCreateService; KUpdateService] 1 (ensureAppRunner D P fuel options).
Proof. unfold_engine. budget. Qed.

Lemma ensureAppRunner_one_delete : atMost [KDeleteService] 1 (ensureAppRunner D P fuel options).
Proof. unfold_engine. budget. Qed.

Lemma ensureAppRunner_one_revision :
  atMost [KCreateAutoScalingConfiguration] 1 (ensureAppRunner D P fuel options).
Proof. unfold_engine. budget. Qed.

Lemma ensureAppRunner_one_tag : atMost [KTagResource] 1 (ensureAppRunner D P fuel options).
Proof. unfold_engine. budget. Qed.

Lemma ensureAppRunner_one_url : atMost [KSetAppRunnerUrl] 1 (ensureAppRunner D P fuel options).
Proof. unfold_engine. budget. Qed.

Lemma createAppRunnerService_no_update :
  atMost [KUpdateService; KTagResource; KDeleteService; KDescribeAutoScalingConfiguration] 0
    (createAppRunnerService D P fuel options).
Proof. unfold_engine. budget. Qed.

Lemma updateAppRunnerService_no_create existingService :
  atMost [KCreateService; KDeleteService; KSetAppRunnerUrl] 0
    (updateAppRunnerService D P fuel options existingService).
Proof. unfold_engine. budget. Qed.

End Budget.

(** X3: the calls of one run of the engine that change a service.  A run
    sends at most one request that creates or updates a service (never both),
    at most one that deletes a service, at most one that creates an
    autoscaling revision, at most one tag call, and hands at most one URL to
    the caller; only deletions of unused revisions can be many. *)
Theorem engine_mutation_budget (D : Defaults) (P : Provider) (fuel : nat)
    (options : EnsureAppRunnerOptions) (h : History) :
  ∃ t, (ensureAppRunner D P fuel options h).2 = h ++ t
       ∧ (count [KCreateService; KUpdateService] t ≤ 1)%nat
       ∧ (count [KDeleteService] t ≤ 1)%nat
       ∧ (count [KCreateAutoScalingConfiguration] t ≤ 1)%nat
       ∧ (count [KTagResource] t ≤ 1)%nat
       ∧ (count [KSetAppRunnerUrl] t ≤ 1)%nat.
Proof.
  destruct (ensureAppRunner_one_service_change D P fuel options h) as (t & Ht & H1).
  exists t. split; [done |]. split; [done |].
  destruct (ensureAppRunner_one_delete D P fuel options h) as (t2 & Ht2 & H2).
  destruct (ensureAppRunner_one_revision D P fuel options h) as (t3 & Ht3 & H3).
  destruct (ensureAppRunner_one_tag D P fuel options h) as (t4 & Ht4 & H4).
  destruct (ensureAppRunner_one_url D P fuel options h) as (t5 & Ht5 & H5).
  rewrite Ht in Ht2, Ht3, Ht4, Ht5.
  apply app_inv_head in Ht2 as <-, Ht3 as <-, Ht4 as <-, Ht5 as <-. done.
Qed.

(** X4: the flows keep to their own calls.  The create flow never sends an
    update request, a tag call, a delete request for a service or a describe
    call for a revision; the update flow never creates or deletes a service
    and never hands out a URL. *)
Theorem flows_keep_to_their_calls (D : Defaults) (P : Provider) (fuel : nat)
    (options : EnsureAppRunnerOptions) (existingService : Service) (h : History) :
  (∃ t, (createAppRunnerService D P fuel options h).2 = h ++ t
        ∧ count [KUpdateService; KTagResource; KDeleteService;
                 KDescribeAutoScalingConfiguration] t = 0%nat)
  ∧ (∃ t, (updateAppRunnerService D P fuel options existingService h).2 = h ++ t
          ∧ count [KCreateService; KDeleteService; KSetAppRunnerUrl] t = 0%nat).
Proof.
  split.
  - destruct (createAppRunnerService_no_update D P fuel options h) as (t & Ht & Hc).
    exists t. split; [done | lia].
  - destruct (updateAppRunnerService_no_create D P fuel options existingService h)
      as (t & Ht & Hc).
    exists t. split; [done | lia].
Qed.

(** ** Errors thrown by a run *)

Lemma failsFast_ret {A} (a : A) : failsFast (mret a).
Proof. by intros h e h'. Qed.

Lemma failsFast_exit {A} f : failsFast (exit f : M A).
Proof. by intros h e h'. Qed.

Lemma failsFast_diverge {A} : failsFast (diverge : M A).
Proof. by intros h e h'. Qed.

Lemma failsFast_sleep seconds : failsFast (sleep seconds).
Proof. by intros h e h'. Qed.

Lemma failsFast_toISOString P : failsFast (toISOString P).
Proof. by intros h e h'. Qed.

Lemma failsFast_bind {A B} (m : M A) (f : A → M B) :
  failsFast m → (∀ a, failsFast (f a)) → failsFast (m ≫= f).
Proof.
  intros Hm Hf h e h'. rewrite run_bind.
  destruct (m h) as [[a|x|e'|] h1] eqn:Hrun; try done.
  - apply Hf.
  - intros [= -> ->]. by apply (Hm h).
Qed.

Lemma failsFast_await {A} (call : History → Result A) (ev : Result A → Event) :
  (∀ r, rejection (ev r) = rejectedWith r) → failsFast (await call ev).
Proof.
  intros Hev h e h'. rewrite run_await. destruct (call h) as [a|e'] eqn:Hcall; [done |].
  intros [= -> <-]. exists (ev (Rejected e)). rewrite last_snoc. by rewrite Hev.
Qed.

(** a rethrow right after the settled call *)
Lemma failsFast_settle_rethrow {A B} (call : History → Result A) (ev : Result A → Event)
    (f : Result A → M B) :
  (∀ r, rejection (ev r) = rejectedWith r) →
  (∀ a, failsFast (f (Resolved a))) →
  (∀ e h, (f (Rejected e) h).1 = Throw e ∧ (f (Rejected e) h).2 = h
          ∨ ∀ e', (f (Rejected e) h).1 ≠ Throw e') →
  failsFast (settle call ev ≫= f).
Proof.
  intros Hev Hok Herr h e h'. rewrite run_bind, run_settle.
  destruct (call h) as [a|e'] eqn:Hcall.
  - apply Hok.
  - intros Hrun. destruct (Herr e' (h ++ [ev (Rejected e')])) as [[Hthrow Hsame] | Hnever].
    + rewrite Hrun in Hthrow, Hsame. simpl in *. simplify_eq.
      eexists. rewrite last_snoc. split; [done |]. by rewrite Hev.
    + exfalso. apply (Hnever e). by rewrite Hrun.
Qed.

Create HintDb failsFast.
#[global] Hint Resolve failsFast_ret failsFast_exit failsFast_diverge failsFast_sleep
  failsFast_toISOString : failsFast.

Ltac fails_fast_step :=
  match goal with
  | |- failsFast (mbind _ (await _ _)) => apply failsFast_bind; [| intros ?]
  | |- failsFast (mbind _ _) => apply failsFast_bind; [| intros ?]
  | |- failsFast (await _ _) => apply failsFast_await; reflexivity
  | |- failsFast (if ?b then _ else _) => destruct b
  | |- failsFast (match ?x with _ => _ end) => destruct x
  | |- failsFast _ => solve [eauto with failsFast]
  end.

Section FailsFast.

Variable D : Defaults.
Variable P : Provider.

Lemma describeService_failsFast region serviceArn :
  failsFast (describeService P region serviceArn).
Proof.
  unfold describeService. destruct (negb (truthy serviceArn)); [apply failsFast_ret |].
  apply failsFast_settle_rethrow; [done | intros; apply failsFast_ret |].
  intros e h. destruct (strictNe _ _); [by left | by right].
Qed.

Lemma deleteUnusedOfPage_failsFast region page : failsFast (deleteUnusedOfPage P region page).
Proof. induction page as [|revision rest IH]; simpl; repeat fails_fast_step. Qed.

Lemma deleteUnusedPages_failsFast fuel region name nextToken :
  failsFast (deleteUnusedPages P fuel region name nextToken).
Proof.
  revert nextToken. induction fuel as [|fuel IH]; intros nextToken; simpl;
    repeat fails_fast_step. apply deleteUnusedOfPage_failsFast.
Qed.

Lemma waitLoop_failsFast fuel region serviceArn maxWait isDeleting clock delay :
  failsFast (waitLoop P fuel region serviceArn maxWait isDeleting clock delay).
Proof.
  revert clock delay. induction fuel as [|fuel IH]; intros clock delay; simpl;
    [apply failsFast_diverge |].
  apply failsFast_settle_rethrow; [done | |].
  - intros service. repeat fails_fast_step.
  - intros e h. destruct (bool_decide _ && isDeleting); [by right | by left].
Qed.

Lemma awaitConfig_failsFast options : failsFast (awaitConfig P options).
Proof. unfold awaitConfig. repeat fails_fast_step. Qed.

Lemma createAppRunnerService_failsFast fuel options :
  failsFast (createAppRunnerService D P fuel options).
Proof.
  unfold createAppRunnerService, deleteUnusedAutoScalingConfigurations.
  fails_fast_step; [fails_fast_step |].
  fails_fast_step; [apply deleteUnusedPages_failsFast |].
  fails_fast_step; [fails_fast_step |].
  fails_fast_step; [apply awaitConfig_failsFast |].
  fails_fast_step; [fails_fast_step |].
  fails_fast_step; [fails_fast_step |].
  fails_fast_step; [fails_fast_step |].
  fails_fast_step; [apply waitLoop_failsFast |].
  repeat fails_fast_step.
Qed.

Lemma updateAppRunnerService_failsFast fuel options existingService :
  failsFast (updateAppRunnerService D P fuel options existingService).
Proof.
  unfold updateAppRunnerService, decideUpdate, applyUpdate,
    deleteUnusedAutoScalingConfigurations.
  fails_fast_step.
  - fails_fast_step; [fails_fast_step |].
    fails_fast_step; [apply deleteUnusedPages_failsFast |].
    fails_fast_step; [fails_fast_step |].
    fails_fast_step; [repeat fails_fast_step |].
    fails_fast_step; [apply awaitConfig_failsFast | fails_fast_step].
  - fails_fast_step; [| fails_fast_step].
    fails_fast_step; [fails_fast_step |].
    fails_fast_step; [fails_fast_step |].
    fails_fast_step; [fails_fast_step |].
    fails_fast_step; [apply waitLoop_failsFast |].
    repeat fails_fast_step.
Qed.

Lemma deleteAppRunnerService_failsFast region serviceArn :
  failsFast (deleteAppRunnerService P region serviceArn).
Proof.
  unfold deleteAppRunnerService. apply failsFast_settle_rethrow; [done | |].
  - intros []. fails_fast_step; [apply waitLoop_failsFast | repeat fails_fast_step].
  - intros e h. destruct (bool_decide _); [by right |].
    destruct (strictNe _ _); [by left | by right].
Qed.

Lemma listLetsGoOfPage_failsFast region deployment component page services :
  failsFast (listLetsGoOfPage D P region deployment component page services).
Proof.
  revert services. induction page as [|service rest IH]; intros services; simpl;
    repeat fails_fast_step.
Qed.

Lemma listLetsGoPages_failsFast fuel region deployment component nextToken services :
  failsFast (listLetsGoPages D P fuel region deployment component nextToken services).
Proof.
  revert nextToken services. induction fuel as [|fuel IH]; intros nextToken services; simpl;
    [apply failsFast_diverge |].
  fails_fast_step; [fails_fast_step |].
  fails_fast_step; [apply listLetsGoOfPage_failsFast |].
  fails_fast_step; [apply failsFast_ret | apply IH].
Qed.

Lemma ensureAppRunner_failsFast fuel options : failsFast (ensureAppRunner D P fuel options).
Proof.
  unfold ensureAppRunner, getOneLetsGoAppRunnerService, listLetsGoAppRunnerServices.
  fails_fast_step.
  - fails_fast_step; [apply listLetsGoPages_failsFast | repeat fails_fast_step].
  - fails_fast_step; [fails_fast_step |].
    fails_fast_step.
    { fails_fast_step; [| fails_fast_step].
      fails_fast_step; [apply deleteAppRunnerService_failsFast | fails_fast_step]. }
    fails_fast_step.
    { destruct a0; [apply describeService_failsFast | apply failsFast_ret]. }
    destruct a1; [destruct (bool_decide _) |];
      first [apply createAppRunnerService_failsFast | apply updateAppRunnerService_failsFast].
Qed.

End FailsFast.

(** X5: an exception that ends a run of the engine is the rejection of the
    call the run made last: no call follows a failed one, and the error is
    thrown on as the provider gave it. *)
Theorem engine_fails_fast (D : Defaults) (P : Provider) (fuel : nat)
    (options : EnsureAppRunnerOptions) (h h' : History) (e : SdkError) :
  ensureAppRunner D P fuel options h = (Throw e, h') →
  ∃ ev, last h' = Some ev ∧ rejection ev = Some e.
Proof. apply ensureAppRunner_failsFast. Qed.

Lemma engine_fails_fast_witness :
  ∃ ev, last [EvListServices None (Rejected unsupported)] = Some ev
        ∧ rejection ev = Some unsupported.
Proof.
  apply (engine_fails_fast defaults rejecting 3 webOptions [] _ unsupported).
  vm_compute. reflexivity.
Defined.

(** ** Runs of the flows that return *)

Lemma toISOString_Ret P h a h1 :
  toISOString P h = (Ret a, h1) → a = Date_toISOString P h ∧ h1 = h ++ [EvNow a].
Proof. by intros [= <- <-]. Qed.

(** A wait for RUNNING that returns a record. *)
Lemma waitForAppRunnerService_reached P region serviceArn maxWait h service h' :
  waitForAppRunnerService P region serviceArn maxWait false h = (Ret (Some service), h') →
  ∃ polls, h' = h ++ polls ∧ reachedRunning serviceArn service polls.
Proof.
  intros Hwait.
  destruct (waitLoop_budget P region serviceArn maxWait false (S (Z.to_nat maxWait)) 0 1 h)
    as (polls & Hpolls & Hpolling & _); [lia | lia |].
  fold (waitForAppRunnerService P region serviceArn maxWait false) in Hpolls.
  rewrite Hwait in Hpolls. simpl in Hpolls. subst h'.
  exists polls. split; [done |]. split; [done |].
  apply waitLoop_ended in Hwait as (t & Ht & [Hr Hstatus]); [| lia | lia].
  rewrite <- app_assoc in Ht. apply app_inv_head in Ht. subst polls.
  rewrite last_snoc, Hr. done.
Qed.

Section FlowsReturn.

Variable D : Defaults.
Variable P : Provider.
Variable fuel : nat.
Variable options : EnsureAppRunnerOptions.

Lemma createAppRunnerService_Ret h h' :
  createAppRunnerService D P fuel options h = (Ret tt, h') →
  ∃ url t1 revision config updatedAt result polls service,
    Reclaimed (autoScalingConfigurationName options) t1
    ∧ h' = h ++ EvGetEcrRepositoryArn (region options) (ecrRepositoryName options)
                  (Resolved url)
               :: t1
               ++ [EvCreateAutoScalingConfiguration
                     (createAutoScalingConfigurationInput D options) (Resolved revision);
                   EvGetConfig (region options) (deployment options) (Resolved config);
                   EvNow updatedAt;
                   EvCreateService
                     (createServiceInput D options url (configOf options config) updatedAt
                        revision)
                     (Resolved result);
                   EvSetAppRunnerUrl (publicUrl result) (Resolved tt)]
               ++ polls
    ∧ reachedRunning (orEmpty (result ?. ServiceArn)) service polls.
Proof.
  unfold createAppRunnerService.
  intros (url & h1 & Hecr & Hrest)%bind_Ret. apply await_Ret in Hecr as [Hecr ->].
  apply bind_Ret in Hrest as ([] & h1 & Hreclaim & Hrest).
  apply deleteUnusedAutoScalingConfigurations_Ret in Hreclaim as (t1 & -> & Hreclaimed).
  apply bind_Ret in Hrest as (revision & h1 & Hrevision & Hrest).
  apply await_Ret in Hrevision as [Hrevision ->].
  apply bind_Ret in Hrest as (secrets & h1 & Hconfig & Hrest).
  apply awaitConfig_Ret in Hconfig as (config & Hget & -> & ->).
  apply bind_Ret in Hrest as (updatedAt & h1 & Hnow & Hrest).
  apply toISOString_Ret in Hnow as [Hnow ->].
  apply bind_Ret in Hrest as (result & h1 & Hcreate & Hrest).
  apply await_Ret in Hcreate as [Hcreate ->].
  apply bind_Ret in Hrest as ([] & h1 & Hurl & Hrest).
  apply await_Ret in Hurl as [Hurl ->].
  apply bind_Ret in Hrest as (waited & h1 & Hwait & Hrest).
  destruct waited as [service|]; [| done]. injection Hrest as <-.
  apply waitForAppRunnerService_reached in Hwait as (polls & -> & Hreached).
  exists url, t1, revision, config, updatedAt, result, polls, service.
  split; [done |]. split; [| done].
  rewrite <- ?app_assoc. simpl. by rewrite <- ?app_assoc.
Qed.

Lemma updateAppRunnerService_Ret existingService h h' :
  updateAppRunnerService D P fuel options existingService h = (Ret tt, h') →
  ∃ d h1,
    decideUpdate D P fuel options existingService h = (Ret d, h1)
    ∧ (updatePlan d = [] ∧ h' = h1
       ∨ updatePlan d ≠ []
         ∧ ∃ updatedAt polls service,
             h' = h1 ++ [EvNow updatedAt;
                         EvUpdateService
                           (updateServiceInput options existingService d updatedAt)
                           (Resolved tt);
                         EvTagResource (ServiceArn existingService) (tagsOf D options)
                           (Resolved tt)]
                     ++ polls
             ∧ reachedRunning (orEmpty (ServiceArn existingService)) service polls
             ∧ LETSGO_UPDATED_AT service = Some updatedAt).
Proof.
  unfold updateAppRunnerService. intros (d & h1 & Hdecide & Happly)%bind_Ret.
  exists d, h1. split; [done |].
  destruct (updatePlan d) as [|c plan] eqn:Hplan.
  - left. split; [done |]. rewrite applyUpdate_empty in Happly by done. by injection Happly.
  - right. split; [done |].
    rewrite applyUpdate_nonempty in Happly by (by rewrite Hplan). cbv zeta in Happly.
    destruct (UpdateServiceCommand P _ _ _) as [[]|e]; [| done].
    destruct (TagResourceCommand P _ _ _ _) as [[]|e]; [| done].
    destruct (waitForAppRunnerService P _ _ _ _ _) as [[[service|]|f|e|] h4] eqn:Hwait;
      try done.
    destruct (strictNe _ _) eqn:Hstamp; [done |]. injection Happly as <-.
    apply (proj1 (strictNe_false _ _)) in Hstamp.
    apply waitForAppRunnerService_reached in Hwait as (polls & -> & Hreached).
    exists (Date_toISOString P h1), polls, service.
    split; [| done]. by rewrite <- ?app_assoc.
Qed.

End FlowsReturn.

(** X6: a create flow that returns has gone through exactly this: the
    registry lookup, the reclaim, the creation of a revision, the
    configuration lookup, the timestamp, the create request built from those
    answers, the hand-over of the public URL, and polls of the created
    service of which the last one observed RUNNING. *)
Theorem create_flow_success (D : Defaults) (P : Provider) (fuel : nat)
    (options : EnsureAppRunnerOptions) (h h' : History) :
  createAppRunnerService D P fuel options h = (Ret tt, h') →
  ∃ url t1 revision config updatedAt result polls service,
    Reclaimed (autoScalingConfigurationName options) t1
    ∧ h' = h ++ EvGetEcrRepositoryArn (region options) (ecrRepositoryName options)
                  (Resolved url)
               :: t1
               ++ [EvCreateAutoScalingConfiguration
                     (createAutoScalingConfigurationInput D options) (Resolved revision);
                   EvGetConfig (region options) (deployment options) (Resolved config);
                   EvNow updatedAt;
                   EvCreateService
                     (createServiceInput D options url (configOf options config) updatedAt
                        revision)
                     (Resolved result);
                   EvSetAppRunnerUrl (publicUrl result) (Resolved tt)]
               ++ polls
    ∧ reachedRunning (orEmpty (result ?. ServiceArn)) service polls.
Proof. apply createAppRunnerService_Ret. Qed.

Lemma create_flow_success_witness :
  ∃ url t1 revision config updatedAt result polls service,
    Reclaimed "letsgo-web" t1
    ∧ (createAppRunnerService defaults appliedProvider 3 webOptions []).2
      = [] ++ EvGetEcrRepositoryArn "eu-west-1" "letsgo-web" (Resolved url)
           :: t1
           ++ [EvCreateAutoScalingConfiguration
                 (createAutoScalingConfigurationInput defaults webOptions) (Resolved revision);
               EvGetConfig "eu-west-1" "main" (Resolved config);
               EvNow updatedAt;
               EvCreateService
                 (createServiceInput defaults webOptions url (configOf webOptions config)
                    updatedAt revision)
                 (Resolved result);
               EvSetAppRunnerUrl (publicUrl result) (Resolved tt)]
           ++ polls
    ∧ reachedRunning (orEmpty (result ?. ServiceArn)) service polls.
Proof.
  apply (create_flow_success defaults appliedProvider 3 webOptions [] _).
  vm_compute. reflexivity.
Defined.

(** X7: an update flow that returns has either found nothing to change (the
    update plan is empty and nothing was sent after it was computed), or has
    sent the update request and the tags, polled the service until RUNNING,
    and found the timestamp of this run in the record it observed last. *)
Theorem update_flow_success (D : Defaults) (P : Provider) (fuel : nat)
    (options : EnsureAppRunnerOptions) (existingService : Service) (h h' : History) :
  updateAppRunnerService D P fuel options existingService h = (Ret tt, h') →
  ∃ d h1,
    decideUpdate D P fuel options existingService h = (Ret d, h1)
    ∧ (updatePlan d = [] ∧ h' = h1
       ∨ updatePlan d ≠ []
         ∧ ∃ updatedAt polls service,
             h' = h1 ++ [EvNow updatedAt;
                         EvUpdateService
                           (updateServiceInput options existingService d updatedAt)
                           (Resolved tt);
                         EvTagResource (ServiceArn existingService) (tagsOf D options)
                           (Resolved tt)]
                     ++ polls
             ∧ reachedRunning (orEmpty (ServiceArn existingService)) service polls
             ∧ LETSGO_UPDATED_AT service = Some updatedAt).
Proof. apply updateAppRunnerService_Ret. Qed.

Lemma update_flow_success_witness :
  ∃ d h1,
    decideUpdate defaults appliedProvider 3 webOptions (webService "v1" earlier) []
    = (Ret d, h1)
    ∧ (updatePlan d = []
       ∧ (updateAppRunnerService defaults appliedProvider 3 webOptions
            (webService "v1" earlier) []).2 = h1
       ∨ updatePlan d ≠ []
         ∧ ∃ updatedAt polls service,
             (updateAppRunnerService defaults appliedProvider 3 webOptions
                (webService "v1" earlier) []).2
             = h1 ++ [EvNow updatedAt;
                      EvUpdateService
                        (updateServiceInput webOptions (webService "v1" earlier) d updatedAt)
                        (Resolved tt);
                      EvTagResource (ServiceArn (webService "v1" earlier))
                        (tagsOf defaults webOptions) (Resolved tt)]
                  ++ polls
             ∧ reachedRunning (orEmpty (ServiceArn (webService "v1" earlier))) service polls
             ∧ LETSGO_UPDATED_AT service = Some updatedAt).
Proof.
  apply (update_flow_success defaults appliedProvider 3 webOptions (webService "v1" earlier)
           [] _).
  vm_compute. reflexivity.
Defined.

(** ** The dispatch *)

Section DispatchTable.

Variable D : Defaults.
Variable P : Provider.
Variable fuel : nat.
Variable options : EnsureAppRunnerOptions.

Lemma ensureAppRunner_dispatch h services h1 :
  listLetsGoAppRunnerServices D P fuel (region options) (Some (deployment options))
    (Some (component options)) h = (Ret services, h1) →
  ensureAppRunner D P fuel options h = dispatch D P fuel options services h1.
Proof.
  intros Hlist. unfold ensureAppRunner. rewrite run_bind.
  destruct services as [|summary [|summary' services]].
  - unfold getOneLetsGoAppRunnerService. by rewrite run_bind, Hlist.
  - rewrite (getOneLetsGoAppRunnerService_one D P fuel options h summary h1 Hlist).
    simpl.
    destruct (bool_decide (ss_Status summary = Some "OPERATION_IN_PROGRESS")); [done |].
    destruct (bool_decide (ss_Status summary = Some "CREATE_FAILED")).
    + rewrite !run_bind. by destruct (deleteAppRunnerService P _ _ h1) as [[[]|f|e|] h2].
    + rewrite !run_bind. simpl. rewrite !run_bind.
      by destruct (describeService P _ _ h1) as [[[existingService|]|f|e|] h2].
  - by rewrite (getOneLetsGoAppRunnerService_many D P fuel options h _ h1 Hlist)
      by (simpl; lia).
Qed.

(** When discovery does not return, the run ends with it. *)
Lemma ensureAppRunner_no_discovery h o h1 :
  listLetsGoAppRunnerServices D P fuel (region options) (Some (deployment options))
    (Some (component options)) h = (o, h1) →
  (∀ services, o ≠ Ret services) →
  (ensureAppRunner D P fuel options h).2 = h1
  ∧ ∀ u, (ensureAppRunner D P fuel options h).1 ≠ Ret u.
Proof.
  intros Hlist Ho. unfold ensureAppRunner. rewrite run_bind.
  unfold getOneLetsGoAppRunnerService. rewrite run_bind, Hlist.
  destruct o as [services|f|e|]; [by destruct (Ho services) | done | done | done].
Qed.

Lemma listLetsGoAppRunnerServices_trace h :
  ∃ t, (listLetsGoAppRunnerServices D P fuel (region options) (Some (deployment options))
          (Some (component options)) h).2 = h ++ t
       ∧ only listKinds t.
Proof. apply listLetsGoPages_emits. Qed.

End DispatchTable.

Lemma last_app_Some {A} (l1 l2 : list A) x : last l2 = Some x → last (l1 ++ l2) = Some x.
Proof. intros Hl. by rewrite last_app, Hl. Qed.

Section Converged.

Variable D : Defaults.
Variable P : Provider.
Variable fuel : nat.
Variable options : EnsureAppRunnerOptions.

Lemma createAppRunnerService_converged h h' :
  createAppRunnerService D P fuel options h = (Ret tt, h') → convergedAt h'.
Proof.
  intros (url & t1 & revision & config & updatedAt & result & polls & service & _ & -> &
          (_ & Hlast & Hstatus))%createAppRunnerService_Ret.
  right. exists (orEmpty (result ?. ServiceArn)), service. split; [| done].
  apply last_app_Some. rewrite app_comm_cons. apply last_app_Some. by apply last_app_Some.
Qed.

Lemma updateAppRunnerService_converged existingService h h' :
  updateAppRunnerService D P fuel options existingService h = (Ret tt, h') → convergedAt h'.
Proof.
  intros (d & h1 & Hdecide & [[_ ->] | (_ & updatedAt & polls & service & -> &
                                        (_ & Hlast & Hstatus) & _)])
    %updateAppRunnerService_Ret.
  - apply decideUpdate_Ret in Hdecide
      as (url & t1 & current & created & config & _ & _ & -> & _).
    left. exists (region options), (deployment options), config.
    apply last_app_Some. rewrite app_comm_cons. apply last_app_Some.
    rewrite app_comm_cons. by apply last_app_Some.
  - right. exists (orEmpty (ServiceArn existingService)), service. split; [| done].
    rewrite app_assoc. by apply last_app_Some.
Qed.

Lemma dispatch_no_delete services :
  (∀ summary, services = [summary] → ss_Status summary ≠ Some "CREATE_FAILED") →
  atMost [KDeleteService] 0 (dispatch D P fuel options services).
Proof.
  intros Hfailed. unfold dispatch.
  destruct services as [|summary [|summary' services]].
  - unfold createAppRunnerService, deleteUnusedAutoScalingConfigurations. budget.
  - destruct (bool_decide (ss_Status summary = Some "OPERATION_IN_PROGRESS")); [budget |].
    destruct (bool_decide (ss_Status summary = Some "CREATE_FAILED")) eqn:Hstatus.
    + apply bool_decide_eq_true_1 in Hstatus. by destruct (Hfailed summary eq_refl).
    + unfold createAppRunnerService, updateAppRunnerService, decideUpdate, applyUpdate,
        deleteUnusedAutoScalingConfigurations. budget.
  - budget.
Qed.

End Converged.

(** X8: after discovery has returned the services of the identity, the
    engine goes on by this table: none, the create flow; one in
    OPERATION_IN_PROGRESS, the fatal outcome Busy; one in CREATE_FAILED, the
    delete flow and then the create flow; one in any other status, a describe
    call and then the update flow with the described record, or the create
    flow when the record is absent or the status was DELETED; two or more,
    the fatal outcome Ambiguous.  Discovery itself only lists. *)
Theorem engine_dispatch (D : Defaults) (P : Provider) (fuel : nat)
    (options : EnsureAppRunnerOptions) (h h1 : History) (services : list ServiceSummary) :
  listLetsGoAppRunnerServices D P fuel (region options) (Some (deployment options))
    (Some (component options)) h = (Ret services, h1) →
  ensureAppRunner D P fuel options h = dispatch D P fuel options services h1
  ∧ ∃ t, h1 = h ++ t ∧ only listKinds t.
Proof.
  intros Hlist. split; [by apply ensureAppRunner_dispatch |].
  destruct (listLetsGoAppRunnerServices_trace D P fuel options h) as (t & Ht & Honly).
  rewrite Hlist in Ht. by exists t.
Qed.

Lemma engine_dispatch_witness :
  ensureAppRunner defaults (discovering appliedProvider "RUNNING") 3 webOptions []
  = dispatch defaults (discovering appliedProvider "RUNNING") 3 webOptions
      [summary "web" "RUNNING"]
      (listLetsGoAppRunnerServices defaults (discovering appliedProvider "RUNNING") 3
         "eu-west-1" (Some "main") (Some "web") []).2.
Proof.
  refine (proj1 (engine_dispatch defaults (discovering appliedProvider "RUNNING") 3 webOptions
                   [] _ [summary "web" "RUNNING"] _)).
  vm_compute. reflexivity.
Defined.

(** X9: the engine deletes a service only when discovery found exactly one
    service for the identity and that one was in CREATE_FAILED. *)
Theorem delete_only_after_failed_create (D : Defaults) (P : Provider) (fuel : nat)
    (options : EnsureAppRunnerOptions) (h t : History) :
  (ensureAppRunner D P fuel options h).2 = h ++ t →
  (0 < count [KDeleteService] t)%nat →
  ∃ summary h1,
    listLetsGoAppRunnerServices D P fuel (region options) (Some (deployment options))
      (Some (component options)) h = (Ret [summary], h1)
    ∧ ss_Status summary = Some "CREATE_FAILED".
Proof.
  intros Ht Hcount.
  destruct (listLetsGoAppRunnerServices D P fuel (region options) (Some (deployment options))
              (Some (component options)) h) as [o h1] eqn:Hlist.
  destruct (listLetsGoAppRunnerServices_trace D P fuel options h) as (tl & Htl & Honly).
  rewrite Hlist in Htl. simpl in Htl. subst h1.
  assert (count [KDeleteService] tl = 0%nat) as Hzero.
  { apply count_only_zero. eapply only_mono; [| exact Honly]. kinds_sub. }
  destruct o as [services|f|e|].
  - assert ((∃ summary, services = [summary] ∧ ss_Status summary = Some "CREATE_FAILED")
            ∨ ∀ summary, services = [summary] → ss_Status summary ≠ Some "CREATE_FAILED")
      as [(summary & -> & Hstatus) | Hnot].
    { destruct services as [|summary [|summary' services]]; [by right | | by right].
      destruct (decide (ss_Status summary = Some "CREATE_FAILED")) as [Hstatus | Hstatus].
      - left. by exists summary.
      - right. by intros summary' [= <-]. }
    { by exists summary, (h ++ tl). }
    exfalso. rewrite (ensureAppRunner_dispatch D P fuel options h services _ Hlist) in Ht.
    destruct (dispatch_no_delete D P fuel options services) with (h := h ++ tl)
      as (td & Htd & Hc).
    { done. }
    rewrite Htd, <- app_assoc in Ht. apply app_inv_head in Ht as <-.
    rewrite count_app in Hcount. lia.
  - exfalso.
    destruct (ensureAppRunner_no_discovery D P fuel options h _ _ Hlist) as [Hsame _]; [done |].
    rewrite Hsame in Ht. apply app_inv_head in Ht as <-. lia.
  - exfalso.
    destruct (ensureAppRunner_no_discovery D P fuel options h _ _ Hlist) as [Hsame _]; [done |].
    rewrite Hsame in Ht. apply app_inv_head in Ht as <-. lia.
  - exfalso.
    destruct (ensureAppRunner_no_discovery D P fuel options h _ _ Hlist) as [Hsame _]; [done |].
    rewrite Hsame in Ht. apply app_inv_head in Ht as <-. lia.
Qed.

Lemma delete_only_after_failed_create_witness :
  ∃ summary h1,
    listLetsGoAppRunnerServices defaults failedProvider 3 "eu-west-1" (Some "main")
      (Some "web") [] = (Ret [summary], h1)
    ∧ ss_Status summary = Some "CREATE_FAILED".
Proof.
  apply (delete_only_after_failed_create defaults failedProvider 3 webOptions []
           (ensureAppRunner defaults failedProvider 3 webOptions []).2).
  - reflexivity.
  - vm_compute. lia.
Defined.



(** X11: how the delete flow ends.  A delete request rejected with
    InvalidStateException is fatal and carries the provider's message; one
    rejected with ResourceNotFoundException counts as done, without a poll;
    any other rejection is thrown on.  After an accepted request the flow
    polls, and returns only if the last poll found the service DELETED or
    not found; a service still in OPERATION_IN_PROGRESS at the bound gives
    the fatal outcome DeleteTimeout. *)
Theorem delete_flow_outcome (P : Provider) (region serviceArn : string) (h h' : History)
    (o : Outcome unit) :
  deleteAppRunnerService P region serviceArn h = (o, h') →
  let h1 := h ++ [EvDeleteService serviceArn (DeleteServiceCommand P h region serviceArn)] in
  match DeleteServiceCommand P h region serviceArn with
  | Rejected e =>
      h' = h1
      ∧ o = (if bool_decide (err_name e = "InvalidStateException")
             then Exit (InvalidState (err_message e))
             else if bool_decide (err_name e = "ResourceNotFoundException")
                  then Ret tt else Throw e)
  | Resolved _ =>
      ∃ waited t,
        h' = (h1 ++ t)
             ++ [EvDescribeService serviceArn
                   (DescribeServiceCommand P (h1 ++ t) region serviceArn)]
        ∧ waitEnded true waited (DescribeServiceCommand P (h1 ++ t) region serviceArn)
        ∧ o = deleteOutcome waited
  end.
Proof.
  unfold deleteAppRunnerService. rewrite run_bind, run_settle. cbv zeta.
  destruct (DeleteServiceCommand P h region serviceArn) as [[]|e].
  - rewrite run_bind.
    destruct (waitForAppRunnerService P region serviceArn MaxWaitTimeForAppRunnerUpdate true _)
      as [waited h2] eqn:Hwait.
    intros Hrun. apply waitForAppRunnerService_ended in Hwait as (t & -> & Hended).
    exists waited, t.
    destruct waited as [[service|]|f|e|]; simpl in Hrun;
      unfold exit, mret, M_ret in Hrun; by simplify_eq.
  - destruct (bool_decide (err_name e = "InvalidStateException")); [by intros [= <- <-] |].
    unfold strictNe. destruct (bool_decide (err_name e = "ResourceNotFoundException"));
      by intros [= <- <-].
Qed.

Lemma delete_flow_outcome_witness :
  ∃ waited t,
    (deleteAppRunnerService failedProvider "eu-west-1" "arn:aws:apprunner:web" []).2
    = (([] ++ [EvDeleteService "arn:aws:apprunner:web" (Resolved tt)]) ++ t)
      ++ [EvDescribeService "arn:aws:apprunner:web"
            (DescribeServiceCommand failedProvider
               (([] ++ [EvDeleteService "arn:aws:apprunner:web" (Resolved tt)]) ++ t)
               "eu-west-1" "arn:aws:apprunner:web")]
    ∧ waitEnded true waited
        (DescribeServiceCommand failedProvider
           (([] ++ [EvDeleteService "arn:aws:apprunner:web" (Resolved tt)]) ++ t)
           "eu-west-1" "arn:aws:apprunner:web")
    ∧ Ret tt = deleteOutcome waited.
Proof.
  apply (delete_flow_outcome failedProvider "eu-west-1" "arn:aws:apprunner:web" [] _ (Ret tt)).
  vm_compute. reflexivity.
Defined.

(** ** Discovery: what is read and what is kept *)

Lemma tagReads_app t1 t2 : tagReads (t1 ++ t2) = tagReads t1 ++ tagReads t2.
Proof.
  induction t1 as [|e t1 IH]; [done |]. destruct e; simpl; try done.
  destruct r; simpl; by rewrite ?IH.
Qed.

Lemma kept_cons D deployment component service services tags tagss :
  kept D deployment component (service :: services) (tags :: tagss)
  = (if isLetsGoService D deployment component tags then [service] else [])
    ++ kept D deployment component services tagss.
Proof. unfold kept. simpl. by destruct (isLetsGoService D deployment component tags). Qed.

Lemma kept_app D deployment component services1 services2 tagss1 tagss2 :
  length services1 = length tagss1 →
  kept D deployment component (services1 ++ services2) (tagss1 ++ tagss2)
  = kept D deployment component services1 tagss1
    ++ kept D deployment component services2 tagss2.
Proof.
  intros Hlen. unfold kept. rewrite zip_with_app by done.
  by rewrite List.filter_app, fmap_app.
Qed.

Lemma kept_nil_r D deployment component services :
  kept D deployment component services [] = [].
Proof. by destruct services. Qed.

Section Listing.

Variable D : Defaults.
Variable P : Provider.
Variable region : string.
Variables deployment component : option string.

Lemma listLetsGoOfPage_exact page services h result h' :
  listLetsGoOfPage D P region deployment component page services h = (Ret result, h') →
  ∃ t, h' = h ++ t
       ∧ servicePages t = []
       ∧ (tagReads t).*1 = (λ service, orEmpty (ss_ServiceArn service)) <$> page
       ∧ result = services ++ kept D deployment component page (tagReads t).*2.
Proof.
  revert services h h'. induction page as [|service rest IH]; intros services h h'; simpl.
  - intros [= <- <-]. exists []. by rewrite !app_nil_r.
  - intros (tags & h1 & Htags & Hrest)%bind_Ret.
    apply await_Ret in Htags as [Htags ->].
    apply IH in Hrest as (t & -> & Hpages & Hreads & ->).
    exists (EvListTagsForResource (orEmpty (ss_ServiceArn service)) (Resolved tags) :: t).
    rewrite <- app_assoc. split; [done |]. split; [done |].
    cbn [tagReads]. rewrite !fmap_cons. cbn [fst snd]. rewrite Hreads.
    split; [done |]. rewrite kept_cons.
    destruct (isLetsGoService D deployment component tags); by rewrite <- ?app_assoc.
Qed.

Lemma listLetsGoPages_exact fuel nextToken services h result h' :
  listLetsGoPages D P fuel region deployment component nextToken services h = (Ret result, h') →
  ∃ t, h' = h ++ t
       ∧ (tagReads t).*1 = (λ service, orEmpty (ss_ServiceArn service)) <$> listedServices t
       ∧ result = services ++ kept D deployment component (listedServices t) (tagReads t).*2.
Proof.
  revert nextToken services h h'.
  induction fuel as [|fuel IH]; intros nextToken services h h'; [done |]. simpl.
  intros (page & h1 & Hlist & Hrest)%bind_Ret.
  apply await_Ret in Hlist as [Hlist ->].
  apply bind_Ret in Hrest as (found & h2 & Hpage & Hrest).
  apply listLetsGoOfPage_exact in Hpage as (tp & -> & Hppages & Hpreads & ->).
  assert (length (default [] (ServiceSummaryList page)) = length (tagReads tp).*2) as Hlen.
  { rewrite length_fmap, <- (length_fmap fst), Hpreads. by rewrite length_fmap. }
  destruct (truthy (ls_NextToken page)) eqn:Htoken; simpl in Hrest.
  - apply IH in Hrest as (tr & -> & Hrreads & ->).
    exists (EvListServices nextToken (Resolved page) :: tp ++ tr).
    rewrite <- !app_assoc. split; [done |].
    unfold listedServices in *. simpl. rewrite servicePages_app, Hppages. simpl.
    rewrite tagReads_app, !fmap_app, Hpreads, Hrreads. split; [done |].
    by rewrite kept_app.
  - injection Hrest as <- <-.
    exists (EvListServices nextToken (Resolved page) :: tp).
    rewrite <- !app_assoc. split; [done |].
    unfold listedServices. simpl. rewrite Hppages. simpl. by rewrite app_nil_r.
Qed.

End Listing.

(** X12: the listing reads the tags of every service the provider listed,
    once each and in the order listed, and returns exactly the services kept
    for their tags, in that order: no LetsGo service of a drained listing is
    left out and none is returned twice for one listing. *)
Theorem listing_is_the_filtered_listing (D : Defaults) (P : Provider) (fuel : nat)
    (region : string) (deployment component : option string) (h h' : History)
    (services : list ServiceSummary) :
  listLetsGoAppRunnerServices D P fuel region deployment component h = (Ret services, h') →
  ∃ t, h' = h ++ t
       ∧ (tagReads t).*1 = (λ service, orEmpty (ss_ServiceArn service)) <$> listedServices t
       ∧ services = kept D deployment component (listedServices t) (tagReads t).*2.
Proof. intros Hrun. by apply listLetsGoPages_exact in Hrun. Qed.

Lemma listing_is_the_filtered_listing_witness :
  ∃ t, (listLetsGoAppRunnerServices defaults twinsProvider 3 "eu-west-1" None None []).2 = [] ++ t
       ∧ (tagReads t).*1 = (λ service, orEmpty (ss_ServiceArn service)) <$> listedServices t
       ∧ [summary "web" "RUNNING"; summary "web-old" "RUNNING"]
         = kept defaults None None (listedServices t) (tagReads t).*2.
Proof.
  apply (listing_is_the_filtered_listing defaults twinsProvider 3 "eu-west-1" None None [] _
           [summary "web" "RUNNING"; summary "web-old" "RUNNING"]).
  vm_compute. reflexivity.
Defined.

Lemma isLetsGoService_filters D deployment component tags :
  isLetsGoService D deployment component tags = true →
  (truthy deployment = true → tagValue tags (TagKeys_LetsGoDeployment D) = deployment)
  ∧ (truthy component = true → tagValue tags (TagKeys_LetsGoComponent D) = component).
Proof.
  unfold isLetsGoService. cbv zeta. rewrite !andb_true_iff, !orb_true_iff, !negb_true_iff.
  intros [[_ Hd] Hc]. split; intros Htruthy.
  - destruct Hd as [Hd | Hd]; [congruence |]. by apply bool_decide_eq_true_1 in Hd.
  - destruct Hc as [Hc | Hc]; [congruence |]. by apply bool_decide_eq_true_1 in Hc.
Qed.

(** the listing depends on its filters through the test on the tags only *)
Lemma listLetsGoOfPage_ext D P region deployment component deployment' component' :
  (∀ tags, isLetsGoService D deployment component tags
           = isLetsGoService D deployment' component' tags) →
  ∀ page services h,
    listLetsGoOfPage D P region deployment component page services h
    = listLetsGoOfPage D P region deployment' component' page services h.
Proof.
  intros Hsame page. induction page as [|service rest IH]; intros services h; [done |].
  simpl. rewrite !run_bind. destruct (await _ _ h) as [[tags|f|e|] h1]; try done.
  rewrite Hsame. apply IH.
Qed.

Lemma listLetsGoPages_ext D P region deployment component deployment' component' :
  (∀ tags, isLetsGoService D deployment component tags
           = isLetsGoService D deployment' component' tags) →
  ∀ fuel nextToken services h,
    listLetsGoPages D P fuel region deployment component nextToken services h
    = listLetsGoPages D P fuel region deployment' component' nextToken services h.
Proof.
  intros Hsame fuel. induction fuel as [|fuel IH]; intros nextToken services h; [done |].
  simpl. rewrite !run_bind. destruct (await _ _ h) as [[page|f|e|] h1]; try done.
  rewrite !run_bind.
  rewrite (listLetsGoOfPage_ext D P region _ _ _ _ Hsame).
  destruct (listLetsGoOfPage D P region deployment' component' _ services h1)
    as [[found|f|e|] h2]; try done.
  destruct (negb (truthy (ls_NextToken page))); [done |]. apply IH.
Qed.

(** X13: a filter that is given narrows the listing to the services whose
    tag has exactly that value: for every service returned, the tags read for
    it hold the deployment filter as the value of the deployment tag and the
    component filter as the value of the component tag, for each filter that
    is a nonempty string. *)
Theorem listing_honours_filters (D : Defaults) (P : Provider) (fuel : nat)
    (region : string) (deployment component : option string) (h h' : History)
    (services : list ServiceSummary) :
  listLetsGoAppRunnerServices D P fuel region deployment component h = (Ret services, h') →
  ∃ t, h' = h ++ t
       ∧ ∀ service, service ∈ services →
           ∃ tags, EvListTagsForResource (orEmpty (ss_ServiceArn service)) (Resolved tags) ∈ t
                   ∧ (truthy deployment = true →
                      tagValue tags (TagKeys_LetsGoDeployment D) = deployment)
                   ∧ (truthy component = true →
                      tagValue tags (TagKeys_LetsGoComponent D) = component).
Proof.
  intros (t & -> & _ & Hkept)%listLetsGoPages_Ret.
  exists t. split; [done |].
  intros service Hin. destruct (Hkept service Hin) as [Hnil | (_ & tags & Hev & Hok)].
  - by apply not_elem_of_nil in Hnil.
  - exists tags. split; [done |]. by apply isLetsGoService_filters.
Qed.

Lemma listing_honours_filters_witness :
  ∃ t, (listLetsGoAppRunnerServices defaults twinsProvider 3 "eu-west-1" (Some "main")
          (Some "web") []).2 = [] ++ t
       ∧ ∀ service, service ∈ [summary "web" "RUNNING"; summary "web-old" "RUNNING"] →
           ∃ tags, EvListTagsForResource (orEmpty (ss_ServiceArn service)) (Resolved tags) ∈ t
                   ∧ (truthy (Some "main") = true →
                      tagValue tags "LetsGoDeployment" = Some "main")
                   ∧ (truthy (Some "web") = true →
                      tagValue tags "LetsGoComponent" = Some "web").
Proof.
  apply (listing_honours_filters defaults twinsProvider 3 "eu-west-1" (Some "main")
           (Some "web") [] _ [summary "web" "RUNNING"; summary "web-old" "RUNNING"]).
  vm_compute. reflexivity.
Defined.

(** X14: an empty string given as a filter is no filter: the listing run
    with the deployment filter (or the component filter) set to the empty
    string is the run with that filter left out, call for call and result
    for result. *)
Theorem listing_empty_filter_is_no_filter (D : Defaults) (P : Provider) (fuel : nat)
    (region : string) (deployment component : option string) (h : History) :
  listLetsGoAppRunnerServices D P fuel region (Some "") component h
  = listLetsGoAppRunnerServices D P fuel region None component h
  ∧ listLetsGoAppRunnerServices D P fuel region deployment (Some "") h
    = listLetsGoAppRunnerServices D P fuel region deployment None h.
Proof.
  unfold listLetsGoAppRunnerServices. split; by apply listLetsGoPages_ext.
Qed.

(** ** A service that has what the options ask for *)

Lemma updatePlan_nil d : (∀ c, planned c d = false) → updatePlan d = [].
Proof.
  intros Hnone. unfold updatePlan.
  pose proof (Hnone Autoscaling) as H1. pose proof (Hnone Healthcheck) as H2.
  pose proof (Hnone Instance) as H3. pose proof (Hnone Image) as H4.
  pose proof (Hnone Variables) as H5. simpl in H1, H2, H3, H4, H5.
  by rewrite H1, H2, H3, H4, H5.
Qed.

Lemma differsb_false c current existingService url desired options :
  ¬ differs c current existingService url desired options →
  differsb c current existingService url desired options = false.
Proof.
  intros Hsame. destruct (differsb c current existingService url desired options) eqn:Hb;
    [| done]. by apply differsb_spec in Hb.
Qed.

(** X15: a service that has what the options ask for is left alone.  When
    what the run observed (the registry address, the live revision and the
    stored configuration) differs from the options in none of the five
    categories, the update plan is empty, the update flow returns where the
    plan was computed, and its trace has no creation of a revision, no
    update request, no tag call and no poll. *)
Theorem converged_service_is_left_alone (D : Defaults) (P : Provider) (fuel : nat)
    (options : EnsureAppRunnerOptions) (existingService : Service) (h t : History)
    (d : UpdateDecisions) (url : string) (current : option AutoScalingConfiguration)
    (config : gmap string (gmap string (gmap string string))) :
  decideUpdate D P fuel options existingService h = (Ret d, h ++ t) →
  EvGetEcrRepositoryArn (region options) (ecrRepositoryName options) (Resolved url) ∈ t →
  EvDescribeAutoScalingConfiguration (orEmpty (svc_AutoScalingConfigurationArn existingService))
    (Resolved current) ∈ t →
  EvGetConfig (region options) (deployment options) (Resolved config) ∈ t →
  (∀ c, ¬ differs c current existingService url (configOf options config) options) →
  updatePlan d = []
  ∧ updateAppRunnerService D P fuel options existingService h = (Ret tt, h ++ t)
  ∧ count [KCreateAutoScalingConfiguration; KUpdateService; KTagResource; KNow;
           KDescribeService; KSleep] t = 0%nat.
Proof.
  intros Hrun Hurl Hcurrent Hconfig Hsame.
  destruct (decideUpdate_observed D P fuel options existingService h d t url current config
              Hrun Hurl Hcurrent Hconfig) as (Hd & t1 & created & Honly & Hcreated & Ht).
  pose proof (differsb_false _ _ _ _ _ _ (Hsame Autoscaling)) as Hscaling. simpl in Hscaling.
  rewrite Hscaling in Hcreated. destruct Hcreated as [-> Hnone].
  assert (updatePlan d = []) as Hplan.
  { apply updatePlan_nil. intros c. rewrite Hd.
    destruct (decide (c = Autoscaling)) as [-> | Hc]; [simpl; by rewrite Hnone |].
    rewrite (decisions_planned _ _ _ _ _ current c Hc). by apply differsb_false. }
  split; [done |]. split.
  - unfold updateAppRunnerService. rewrite run_bind, Hrun. by apply applyUpdate_empty.
  - apply count_only_zero. apply Forall_forall. intros e He.
    apply Ht in He as [-> | [He | [-> | [He | ->]]]]; try (vm_compute; reflexivity).
    + pose proof (only_elem_of _ _ _ Honly He) as Hk.
      set_unfold in Hk. destruct Hk as [-> | [-> | []]]; vm_compute; reflexivity.
    + by apply not_elem_of_nil in He.
Qed.

Lemma converged_service_is_left_alone_witness :
  updatePlan convergedDecisions = []
  ∧ updateAppRunnerService defaults (webProvider None) 3 webOptions (webService "v2" earlier) []
    = (Ret tt,
       [] ++ (decideUpdate defaults (webProvider None) 3 webOptions
                (webService "v2" earlier) []).2)
  ∧ count [KCreateAutoScalingConfiguration; KUpdateService; KTagResource; KNow;
           KDescribeService; KSleep]
      (decideUpdate defaults (webProvider None) 3 webOptions (webService "v2" earlier) []).2
    = 0%nat.
Proof.
  refine (converged_service_is_left_alone defaults (webProvider None) 3 webOptions
            (webService "v2" earlier) []
            (decideUpdate defaults (webProvider None) 3 webOptions
               (webService "v2" earlier) []).2
            convergedDecisions "registry.example" (Some liveRevision) storedConfig _ _ _ _ _).
  - vm_compute. reflexivity.
  - vm_compute. repeat (first [apply list_elem_of_here | apply list_elem_of_further]).
  - vm_compute. repeat (first [apply list_elem_of_here | apply list_elem_of_further]).
  - vm_compute. repeat (first [apply list_elem_of_here | apply list_elem_of_further]).
  - intros c. rewrite <- differsb_spec. destruct c; vm_compute; congruence.
Defined.

(** X16: what the create flow asks for is what the update flow takes as up
    to date.  For a service described with the source, instance and health
    check sections of the create request, the comparisons of the update flow
    find no difference in health check, instance sizing, image or variables,
    whatever the time stamp of the request; and a live revision with the
    bounds of the revision request needs no new revision: with no new
    revision the update plan is empty. *)
Theorem created_service_needs_no_update (D : Defaults) (options : EnsureAppRunnerOptions)
    (url updatedAt : string) (secrets : gmap string string)
    (revision current : option AutoScalingConfiguration) (existingService : Service) :
  let input := createServiceInput D options url secrets updatedAt revision in
  let asked := createAutoScalingConfigurationInput D options in
  svc_SourceConfiguration existingService = Some (cs_SourceConfiguration input) →
  svc_InstanceConfiguration existingService = Some (cs_InstanceConfiguration input) →
  svc_HealthCheckConfiguration existingService = Some (cs_HealthCheckConfiguration input) →
  current ?. ac_MaxConcurrency = Some (MaxConcurrency asked) →
  current ?. ac_MinSize = Some (MinSize asked) →
  current ?. ac_MaxSize = Some (MaxSize asked) →
  (∀ c, ¬ differs c current existingService url secrets options)
  ∧ updatePlan (decisions options existingService url None secrets) = [].
Proof.
  intros input asked Hsource Hinstance Hhealth Hconcurrency Hmin Hmax.
  assert (∀ c, ¬ differs c current existingService url secrets options) as Hsame.
  { intros [] Hdiffers; simpl in Hdiffers.
    - unfold differsAutoscaling in Hdiffers. rewrite Hconcurrency, Hmin, Hmax in Hdiffers.
      simpl in Hdiffers. tauto.
    - unfold differsHealthcheck in Hdiffers. rewrite Hhealth in Hdiffers.
      simpl in Hdiffers. tauto.
    - unfold differsInstance in Hdiffers. rewrite Hinstance in Hdiffers.
      simpl in Hdiffers. tauto.
    - unfold differsImage in Hdiffers. rewrite Hsource in Hdiffers. by simpl in Hdiffers.
    - unfold differsVariables, currentSecrets in Hdiffers. rewrite Hsource in Hdiffers.
      simpl in Hdiffers. apply Hdiffers. set_solver. }
  split; [done |]. apply updatePlan_nil. intros c.
  destruct (decide (c = Autoscaling)) as [-> | Hc]; [done |].
  rewrite (decisions_planned _ _ _ _ _ current c Hc). by apply differsb_false.
Qed.

Lemma created_service_needs_no_update_witness :
  (∀ c, ¬ differs c (Some liveRevision)
            {| ServiceArn := Some "arn:aws:apprunner:web";
               ServiceUrl := None;
               Status := Some "RUNNING";
               svc_SourceConfiguration := Some
                 (cs_SourceConfiguration
                    (createServiceInput defaults webOptions "registry.example"
                       (configOf webOptions storedConfig) earlier (Some liveRevision)));
               svc_InstanceConfiguration := Some
                 (cs_InstanceConfiguration
                    (createServiceInput defaults webOptions "registry.example"
                       (configOf webOptions storedConfig) earlier (Some liveRevision)));
               svc_HealthCheckConfiguration := Some
                 (cs_HealthCheckConfiguration
                    (createServiceInput defaults webOptions "registry.example"
                       (configOf webOptions storedConfig) earlier (Some liveRevision)));
               svc_AutoScalingConfigurationArn := None |}
            "registry.example" (configOf webOptions storedConfig) webOptions)
  ∧ updatePlan
      (decisions webOptions
         {| ServiceArn := Some "arn:aws:apprunner:web";
            ServiceUrl := None;
            Status := Some "RUNNING";
            svc_SourceConfiguration := Some
              (cs_SourceConfiguration
                 (createServiceInput defaults webOptions "registry.example"
                    (configOf webOptions storedConfig) earlier (Some liveRevision)));
            svc_InstanceConfiguration := Some
              (cs_InstanceConfiguration
                 (createServiceInput defaults webOptions "registry.example"
                    (configOf webOptions storedConfig) earlier (Some liveRevision)));
            svc_HealthCheckConfiguration := Some
              (cs_HealthCheckConfiguration
                 (createServiceInput defaults webOptions "registry.example"
                    (configOf webOptions storedConfig) earlier (Some liveRevision)));
            svc_AutoScalingConfigurationArn := None |}
         "registry.example" None (configOf webOptions storedConfig))
    = [].
Proof.
  apply (created_service_needs_no_update defaults webOptions "registry.example" earlier
           (configOf webOptions storedConfig) (Some liveRevision) (Some liveRevision));
    reflexivity.
Defined.

(** ** The reclaim, whatever its outcome *)

Lemma deleteRequests_app t1 t2 :
  deleteRequests (t1 ++ t2) = deleteRequests t1 ++ deleteRequests t2.
Proof.
  induction t1 as [|e t1 IH]; [done |]. destruct e; simpl; by rewrite ?IH.
Qed.

Section ReclaimSafety.

Variable P : Provider.
Variable region : string.

Lemma deleteUnusedOfPage_requests page h :
  ∃ t, (deleteUnusedOfPage P region page h).2 = h ++ t
       ∧ revisionPages t = []
       ∧ deleteRequests t `prefix_of` acs_AutoScalingConfigurationArn <$> List.filter isUnused page
       ∧ ((deleteUnusedOfPage P region page h).1 = Ret tt →
          deleteRequests t = acs_AutoScalingConfigurationArn <$> List.filter isUnused page).
Proof.
  revert h. induction page as [|revision rest IH]; intros h; simpl.
  - exists []. by rewrite app_nil_r.
  - fold (isUnused revision). destruct (isUnused revision); [| apply IH].
    rewrite run_bind, run_await.
    destruct (DeleteAutoScalingConfigurationCommand P h region _) as [[]|e] eqn:Hdelete.
    + destruct (IH (h ++ [EvDeleteAutoScalingConfiguration
                            (acs_AutoScalingConfigurationArn revision) (Resolved tt)]))
        as (t & Ht & Hpages & Hprefix & Hall).
      exists (EvDeleteAutoScalingConfiguration (acs_AutoScalingConfigurationArn revision)
                (Resolved tt) :: t).
      rewrite Ht, <- app_assoc. simpl. split; [done |]. split; [done |].
      split; [by apply prefix_cons |]. intros Hret. by rewrite Hall.
    + exists [EvDeleteAutoScalingConfiguration (acs_AutoScalingConfigurationArn revision)
                (Rejected e)].
      simpl. split; [done |]. split; [done |].
      split; [apply prefix_cons, prefix_nil | done].
Qed.

Lemma deleteUnusedPages_requests fuel name nextToken h :
  ∃ t, (deleteUnusedPages P fuel region name nextToken h).2 = h ++ t
       ∧ deleteRequests t
         `prefix_of` acs_AutoScalingConfigurationArn <$> List.filter isUnused (listedRevisions t).
Proof.
  revert nextToken h. induction fuel as [|fuel IH]; intros nextToken h; simpl.
  - exists []. by rewrite app_nil_r.
  - rewrite run_bind, run_await.
    destruct (ListAutoScalingConfigurationsCommand P h region name nextToken)
      as [page|e] eqn:Hlist.
    + rewrite run_bind.
      destruct (deleteUnusedOfPage_requests
                  (default [] (AutoScalingConfigurationSummaryList page))
                  (h ++ [EvListAutoScalingConfigurations name nextToken (Resolved page)]))
        as (tp & Htp & Hpages & Hprefix & Hall).
      destruct (deleteUnusedOfPage P region _ _) as [[[]|f|e|] h1];
        simpl in Htp; subst h1.
      * specialize (Hall eq_refl).
        destruct (negb (truthy (lac_NextToken page))).
        -- exists (EvListAutoScalingConfigurations name nextToken (Resolved page) :: tp).
           rewrite <- app_assoc. split; [done |].
           unfold listedRevisions. simpl. rewrite Hpages. simpl. by rewrite app_nil_r, Hall.
        -- destruct (IH (lac_NextToken page)
                       ((h ++ [EvListAutoScalingConfigurations name nextToken (Resolved page)])
                        ++ tp)) as (tr & Htr & Hrprefix).
           exists (EvListAutoScalingConfigurations name nextToken (Resolved page) :: tp ++ tr).
           rewrite Htr, <- !app_assoc. split; [done |].
           unfold listedRevisions in *. simpl.
           rewrite deleteRequests_app, revisionPages_app, Hpages. simpl.
           rewrite List.filter_app, fmap_app, Hall. by apply prefix_app.
      * exists (EvListAutoScalingConfigurations name nextToken (Resolved page) :: tp).
        rewrite <- app_assoc. split; [done |].
        unfold listedRevisions. simpl. rewrite Hpages. simpl. by rewrite app_nil_r.
      * exists (EvListAutoScalingConfigurations name nextToken (Resolved page) :: tp).
        rewrite <- app_assoc. split; [done |].
        unfold listedRevisions. simpl. rewrite Hpages. simpl. by rewrite app_nil_r.
      * exists (EvListAutoScalingConfigurations name nextToken (Resolved page) :: tp).
        rewrite <- app_assoc. split; [done |].
        unfold listedRevisions. simpl. rewrite Hpages. simpl. by rewrite app_nil_r.
    + exists [EvListAutoScalingConfigurations name nextToken (Rejected e)].
      split; [done |]. apply prefix_nil.
Qed.

End ReclaimSafety.

(** X17: the reclaim is safe whatever its outcome.  In every run of the
    reclaim, also one that a rejected call ends half way, the delete
    requests sent are, in order, for the first of the revisions that the run
    itself was listed and that have no associated service and are active:
    no request is ever for a revision in use, an inactive one, or one the
    run did not list. *)
Theorem reclaim_deletes_only_listed_unused (P : Provider) (fuel : nat)
    (region autoScalingConfigurationName : string) (h : History) :
  ∃ t, (deleteUnusedAutoScalingConfigurations P fuel region autoScalingConfigurationName h).2
       = h ++ t
       ∧ deleteRequests t
         `prefix_of` acs_AutoScalingConfigurationArn <$> List.filter isUnused (listedRevisions t)
       ∧ ∀ arn, arn ∈ deleteRequests t →
           ∃ revision, revision ∈ listedRevisions t
                       ∧ acs_AutoScalingConfigurationArn revision = arn
                       ∧ acs_HasAssociatedService revision ≠ Some true
                       ∧ acs_Status revision = Some "active".
Proof.
  destruct (deleteUnusedPages_requests P region fuel autoScalingConfigurationName None h)
    as (t & Ht & Hprefix).
  exists t. split; [done |]. split; [done |].
  intros arn Hin. destruct Hprefix as [k Hk].
  assert (arn ∈ acs_AutoScalingConfigurationArn
                  <$> List.filter isUnused (listedRevisions t)) as Hunused.
  { rewrite Hk. apply elem_of_app. by left. }
  apply list_elem_of_fmap in Hunused as (revision & -> & Hrevision).
  apply list_elem_of_In, filter_In in Hrevision as [Hlisted Hunused].
  exists revision. split; [by apply list_elem_of_In |]. split; [done |].
  unfold isUnused in Hunused. apply andb_true_iff in Hunused as [Hfree Hactive].
  split; [| by apply bool_decide_eq_true_1 in Hactive].
  intros Hused. by rewrite Hused in Hfree.
Qed.

(** ** The URL of a created service *)

Lemma creates_zero {A} (m : M A) :
  emits (others [KCreateService; KSetAppRunnerUrl]) m → creates m.
Proof.
  intros Hm h. destruct (Hm h) as (t & Ht & Honly). exists t. split; [done |].
  left. by apply count_only_zero.
Qed.

Lemma handsOverUrl_app t1 t2 :
  count [KCreateService; KSetAppRunnerUrl] t1 = 0%nat → handsOverUrl t2 →
  handsOverUrl (t1 ++ t2).
Proof.
  intros Hnone [Hzero | [(t & input & e & -> & Hzero)
                        | (t & input & result & r & polls & -> & Hzero & Hpolls)]].
  - left. rewrite count_app. lia.
  - right. left. exists (t1 ++ t), input, e. rewrite count_app, <- app_assoc.
    split; [done | lia].
  - right. right. exists (t1 ++ t), input, result, r, polls.
    rewrite count_app, <- app_assoc. split; [done |]. split; [lia | done].
Qed.

(** a part of a run with no create request and no URL, then one that creates *)
Lemma creates_bind {A B} (m : M A) (k : A → M B) :
  emits (others [KCreateService; KSetAppRunnerUrl]) m → (∀ a, creates (k a)) →
  creates (m ≫= k).
Proof.
  intros Hm Hk h. rewrite run_bind. destruct (Hm h) as (t & Ht & Honly).
  pose proof (count_only_zero _ _ Honly) as Hzero.
  destruct (m h) as [[a|f|e|] h1]; simpl in Ht; subst h1;
    try (exists t; split; [done | by left]).
  destruct (Hk a (h ++ t)) as (t' & Ht' & Hover).
  exists (t ++ t'). rewrite Ht', app_assoc. split; [done |]. by apply handsOverUrl_app.
Qed.

Ltac creates_step :=
  match goal with
  | |- creates (mbind _ _) => apply creates_bind; [solve [emits_auto] | intros ?]
  | |- creates (if ?b then _ else _) => destruct b
  | |- creates (match ?x with _ => _ end) => destruct x
  end.

Section Creates.

Variable D : Defaults.
Variable P : Provider.
Variable fuel : nat.
Variable options : EnsureAppRunnerOptions.

(** the create request and what follows it (lines 471-526) *)
Lemma createService_creates (input : CreateServiceInput) (maxWait : Z) :
  creates
    (createServiceResult ← await (λ h, CreateServiceCommand P h (region options) input)
                                 (EvCreateService input);
     _ ← await (λ h, setAppRunnerUrl P h (publicUrl createServiceResult))
               (EvSetAppRunnerUrl (publicUrl createServiceResult));
     service ← waitForAppRunnerService P (region options)
                 (orEmpty (createServiceResult ?. ServiceArn)) maxWait false;
     match service with
     | Some _ => mret tt
     | None => exit CreateTimeout
     end).
Proof.
  intros h. rewrite run_bind, run_await.
  destruct (CreateServiceCommand P h (region options) input) as [result|e] eqn:Hcreate.
  - rewrite run_bind, run_await.
    set (h1 := h ++ [EvCreateService input (Resolved result)]).
    destruct (setAppRunnerUrl P h1 (publicUrl result)) as [[]|e] eqn:Hurl.
    + set (h2 := h1 ++ [EvSetAppRunnerUrl (publicUrl result) (Resolved tt)]).
      assert (emits [KDescribeService; KSleep]
                (service ← waitForAppRunnerService P (region options)
                             (orEmpty (result ?. ServiceArn)) maxWait false;
                 match service with
                 | Some _ => mret tt
                 | None => exit CreateTimeout
                 end)) as Hwait by emits_auto.
      destruct (Hwait h2) as (polls & Hpolls & Honly).
      exists (EvCreateService input (Resolved result)
              :: EvSetAppRunnerUrl (publicUrl result) (Resolved tt) :: polls).
      rewrite Hpolls. subst h2 h1. rewrite <- !app_assoc. split; [done |].
      right. right. by exists [], input, result, (Resolved tt), polls.
    + exists [EvCreateService input (Resolved result);
              EvSetAppRunnerUrl (publicUrl result) (Rejected e)].
      subst h1. rewrite <- app_assoc. split; [done |].
      right. right. exists [], input, result, (Rejected e), []. split; [done |].
      split; [done | apply only_nil].
  - exists [EvCreateService input (Rejected e)]. split; [done |].
    right. left. by exists [], input, e.
Qed.

Lemma createAppRunnerService_creates : creates (createAppRunnerService D P fuel options).
Proof.
  unfold createAppRunnerService, deleteUnusedAutoScalingConfigurations.
  do 5 creates_step. apply createService_creates.
Qed.

Lemma ensureAppRunner_creates : creates (ensureAppRunner D P fuel options).
Proof.
  unfold ensureAppRunner, getOneLetsGoAppRunnerService, listLetsGoAppRunnerServices,
    deleteAppRunnerService.
  repeat first [ apply createAppRunnerService_creates
               | creates_step
               | apply creates_zero;
                 unfold updateAppRunnerService, decideUpdate, applyUpdate,
                   deleteUnusedAutoScalingConfigurations;
                 solve [emits_auto] ].
Qed.

End Creates.

(** X18: the URL of a created service is handed over as soon as the create
    request is accepted.  In every run of the engine, whatever its outcome,
    the trace has no create request and no URL handed over; or it ends with a
    create request that was rejected; or it has one accepted create request,
    followed at once by the hand-over of the URL of its answer ("https://"
    and the ServiceUrl, or the empty string when there is none), and only
    polls after that: the URL is handed over before the service is known to
    run, and also when the wait then fails. *)
Theorem url_handed_over_on_accepted_create (D : Defaults) (P : Provider) (fuel : nat)
    (options : EnsureAppRunnerOptions) (h : History) :
  (∃ t, (ensureAppRunner D P fuel options h).2 = h ++ t ∧ handsOverUrl t)
  ∧ (∃ t, (createAppRunnerService D P fuel options h).2 = h ++ t ∧ handsOverUrl t).
Proof.
  split; [apply ensureAppRunner_creates | apply createAppRunnerService_creates].
Qed.

(** ** Runs that do not end *)

Lemma continuations_app t1 t2 :
  continuations (t1 ++ t2) = (continuations t1 + continuations t2)%nat.
Proof. unfold continuations. by rewrite List.filter_app, length_app. Qed.

Lemma bind_Diverge {A B} (m : M A) (k : A → M B) h h' :
  (m ≫= k) h = (Diverge, h')
  ↔ m h = (Diverge, h') ∨ ∃ a h1, m h = (Ret a, h1) ∧ k a h1 = (Diverge, h').
Proof.
  rewrite run_bind. destruct (m h) as [[a|f|e|] h1]; naive_solver.
Qed.

Lemma await_Diverge {A} (call : History → Result A) (ev : Result A → Event) h h' :
  await call ev h = (Diverge, h') → False.
Proof. rewrite run_await. by destruct (call h). Qed.

Lemma endless_never {A} n (m : M A) : (∀ h, (m h).1 ≠ Diverge) → endless n m.
Proof. intros Hm h h' Hrun. specialize (Hm h). by rewrite Hrun in Hm. Qed.

Lemma endless_mono {A} n n' (m : M A) : (n' ≤ n)%nat → endless n m → endless n' m.
Proof.
  intros Hn Hm h h' Hrun. destruct (Hm h h' Hrun) as (t & -> & Ht). exists t.
  split; [done | lia].
Qed.

Lemma endless_bind {A B} n (m : M A) (k : A → M B) :
  emits allKinds m → endless n m → (∀ a, endless n (k a)) → endless n (m ≫= k).
Proof.
  intros Hemits Hm Hk h h' [Hrun | (a & h1 & Hrun & Hrest)]%bind_Diverge; [by apply Hm |].
  destruct (Hemits h) as (t & Ht & _). rewrite Hrun in Ht. simpl in Ht. subst h1.
  destruct (Hk a _ _ Hrest) as (t' & -> & Ht').
  exists (t ++ t'). rewrite app_assoc, continuations_app. split; [done | lia].
Qed.

Lemma endless_await {A} n (call : History → Result A) (ev : Result A → Event) :
  endless n (await call ev).
Proof. apply endless_never. intros h. rewrite run_await. by destruct (call h). Qed.

Lemma endless_settle {A} n (call : History → Result A) (ev : Result A → Event) :
  endless n (settle call ev).
Proof. by apply endless_never. Qed.

Lemma endless_ret {A} n (a : A) : endless n (mret a : M A).
Proof. by apply endless_never. Qed.

Lemma endless_exit {A} n f : endless n (exit f : M A).
Proof. by apply endless_never. Qed.

Lemma endless_throw {A} n e : endless n (throw e : M A).
Proof. by apply endless_never. Qed.

Ltac endless_step :=
  match goal with
  | |- endless _ (mbind _ _) => apply endless_bind; [solve [emits_auto] | | intros ?]
  | |- endless _ (await _ _) => apply endless_await
  | |- endless _ (settle _ _) => apply endless_settle
  | |- endless _ (mret _) => apply endless_ret
  | |- endless _ (exit _) => apply endless_exit
  | |- endless _ (throw _) => apply endless_throw
  | |- endless _ (if ?b then _ else _) => destruct b
  | |- endless _ (match ?x with _ => _ end) => destruct x
  end.

Section Endless.

Variable D : Defaults.
Variable P : Provider.

Lemma waitForAppRunnerService_endless n region serviceArn maxWait isDeleting :
  endless n (waitForAppRunnerService P region serviceArn maxWait isDeleting).
Proof. apply endless_never. intros h. apply waitLoop_terminates; lia. Qed.

Lemma toISOString_endless n : endless n (toISOString P).
Proof. by apply endless_never. Qed.

Lemma deleteUnusedOfPage_endless n region page : endless n (deleteUnusedOfPage P region page).
Proof. induction page as [|revision rest IH]; simpl; repeat endless_step; apply IH. Qed.

Lemma listLetsGoOfPage_endless n region deployment component page services :
  endless n (listLetsGoOfPage D P region deployment component page services).
Proof.
  revert services. induction page as [|service rest IH]; intros services; simpl;
    repeat endless_step; apply IH.
Qed.

Lemma deleteUnusedPages_endless fuel region name nextToken :
  endless fuel (deleteUnusedPages P fuel region name nextToken).
Proof.
  revert nextToken. induction fuel as [|fuel IH]; intros nextToken h h'; simpl.
  - intros [= <-]. exists []. by rewrite app_nil_r.
  - intros [Hlist | (page & h1 & Hlist & Hrest)]%bind_Diverge.
    { by apply await_Diverge in Hlist. }
    apply await_Ret in Hlist as [Hlist ->].
    apply bind_Diverge in Hrest as [Hpage | ([] & h2 & Hpage & Hrest)].
    { pose proof (deleteUnusedOfPage_endless (S fuel) region _ _ _ Hpage) as (t & -> & Ht).
      exists (EvListAutoScalingConfigurations name nextToken (Resolved page) :: t).
      rewrite <- app_assoc. split; [done |]. unfold continuations in *. simpl.
      destruct (truthy (lac_NextToken page)); simpl; lia. }
    destruct (deleteUnusedOfPage_emits P region
                (default [] (AutoScalingConfigurationSummaryList page))
                (h ++ [EvListAutoScalingConfigurations name nextToken (Resolved page)]))
      as (tp & Htp & _).
    rewrite Hpage in Htp. simpl in Htp. subst h2.
    destruct (truthy (lac_NextToken page)) eqn:Htoken; simpl in Hrest; [| done].
    apply IH in Hrest as (tr & -> & Htr).
    exists (EvListAutoScalingConfigurations name nextToken (Resolved page) :: tp ++ tr).
    rewrite <- !app_assoc. split; [done |].
    change (EvListAutoScalingConfigurations name nextToken (Resolved page) :: tp ++ tr)
      with ([EvListAutoScalingConfigurations name nextToken (Resolved page)] ++ tp ++ tr).
    rewrite !continuations_app. unfold continuations at 1. simpl. rewrite Htoken. simpl. lia.
Qed.

Lemma listLetsGoPages_endless fuel region deployment component nextToken services :
  endless fuel (listLetsGoPages D P fuel region deployment component nextToken services).
Proof.
  revert nextToken services. induction fuel as [|fuel IH]; intros nextToken services h h'; simpl.
  - intros [= <-]. exists []. by rewrite app_nil_r.
  - intros [Hlist | (page & h1 & Hlist & Hrest)]%bind_Diverge.
    { by apply await_Diverge in Hlist. }
    apply await_Ret in Hlist as [Hlist ->].
    apply bind_Diverge in Hrest as [Hpage | (found & h2 & Hpage & Hrest)].
    { pose proof (listLetsGoOfPage_endless (S fuel) region deployment component _ _ _ _ Hpage)
        as (t & -> & Ht).
      exists (EvListServices nextToken (Resolved page) :: t).
      rewrite <- app_assoc. split; [done |]. unfold continuations in *. simpl.
      destruct (truthy (ls_NextToken page)); simpl; lia. }
    destruct (listLetsGoOfPage_emits D P region deployment component
                (default [] (ServiceSummaryList page)) services
                (h ++ [EvListServices nextToken (Resolved page)])) as (tp & Htp & _).
    rewrite Hpage in Htp. simpl in Htp. subst h2.
    destruct (truthy (ls_NextToken page)) eqn:Htoken; simpl in Hrest; [| done].
    apply IH in Hrest as (tr & -> & Htr).
    exists (EvListServices nextToken (Resolved page) :: tp ++ tr).
    rewrite <- !app_assoc. split; [done |].
    change (EvListServices nextToken (Resolved page) :: tp ++ tr)
      with ([EvListServices nextToken (Resolved page)] ++ tp ++ tr).
    rewrite !continuations_app. unfold continuations at 1. simpl. rewrite Htoken. simpl. lia.
Qed.

Lemma ensureAppRunner_endless fuel options : endless fuel (ensureAppRunner D P fuel options).
Proof.
  unfold_engine. unfold awaitConfig, describeService.
  repeat first [ apply listLetsGoPages_endless
               | apply deleteUnusedPages_endless
               | apply waitForAppRunnerService_endless
               | apply toISOString_endless
               | endless_step ].
Qed.

End Endless.

(** X19: the engine fails to end only by endless paging.  Every loop of a
    run other than the two over pages is bounded (the waiter by its maximal
    wait): a run on [fuel] steps of paging that has not ended was answered at
    least [fuel] list calls with a page that carries a continuation token;
    so a run whose provider ends its listings has an outcome. *)
Theorem engine_ends_unless_paging_is_endless (D : Defaults) (P : Provider) (fuel : nat)
    (options : EnsureAppRunnerOptions) (h h' : History) :
  ensureAppRunner D P fuel options h = (Diverge, h') →
  ∃ t, h' = h ++ t ∧ (fuel ≤ continuations t)%nat.
Proof. apply ensureAppRunner_endless. Qed.

Lemma engine_ends_unless_paging_is_endless_witness :
  ∃ t, (ensureAppRunner defaults endlessProvider 2 webOptions []).2 = [] ++ t
       ∧ (2 ≤ continuations t)%nat.
Proof.
  apply (engine_ends_unless_paging_is_endless defaults endlessProvider 2 webOptions []).
  vm_compute. reflexivity.
Defined.
